(** * StreamSync browser: the Neko remote-control client

    A shallow embedding of [src/lib/neko/protocol.ts] (binary input
    encoding, keysym table, mouse-button table) and of
    [src/lib/neko/client.ts] (the [NekoClient] session machine), with the
    properties of the design document stated and settled against them. *)

From Stdlib Require Import ZArith QArith Qround Qabs Lqa List Bool Ascii String Lia.
From stdpp Require Import base list.
Import ListNotations.

Close Scope Q_scope.
Open Scope Z_scope.

(** ** JavaScript values used by the client *)

Module JS.

(** A JS [number]. Every finite double is a rational, and the operations
    the client applies to numbers ([Math.round], the integer conversions of
    [DataView], [-=]) are exact on them, so the finite part is carried by
    [Q]. The sign of zero is not observable through any of them. *)
Inductive number : Type :=
  | NaN
  | PosInf
  | NegInf
  | Fin (q : Q).

Definition num_of_Z (z : Z) : number := Fin (inject_Z z).

(** [Math.round]: the closest integer, ties towards +infinity. *)
Definition nearest (q : Q) : Z := Qfloor (q + (1 # 2))%Q.

Definition Math_round (n : number) : number :=
  match n with
  | Fin q => num_of_Z (nearest q)
  | other => other
  end.

(** ToIntegerOrInfinity followed by the modulo of ToUintN: NaN and the
    infinities go to 0, finite values are truncated towards zero. *)
Definition truncate (q : Q) : Z :=
  if Qle_bool 0 q then Qfloor q else Qceiling q.

Definition ToIntegral (n : number) : Z :=
  match n with
  | Fin q => truncate q
  | _ => 0
  end.

Definition ToUint8 (n : number) : Z := ToIntegral n mod 2 ^ 8.
Definition ToUint16 (n : number) : Z := ToIntegral n mod 2 ^ 16.
Definition ToUint32 (n : number) : Z := ToIntegral n mod 2 ^ 32.

Definition ToInt16 (n : number) : Z :=
  let m := ToIntegral n mod 2 ^ 16 in
  if 2 ^ 15 <=? m then m - 2 ^ 16 else m.

(** [n - k] on numbers ([keysym -= 0x20]). *)
Definition sub (n : number) (k : Z) : number :=
  match n with
  | Fin q => Fin (q - inject_Z k)%Q
  | other => other
  end.

(** A JS string is its sequence of UTF-16 code units. *)
Definition jsstring : Type := list Z.

Definition js (s : string) : jsstring :=
  map (fun a => Z.of_N (N_of_ascii a)) (list_ascii_of_string s).

Fixpoint jseqb (s t : jsstring) : bool :=
  match s, t with
  | [], [] => true
  | c :: s', d :: t' => (c =? d) && jseqb s' t'
  | _, _ => false
  end.

(** [s.startsWith(p)] *)
Fixpoint startsWith (s p : jsstring) : bool :=
  match p, s with
  | [], _ => true
  | c :: p', d :: s' => (c =? d) && startsWith s' p'
  | _ :: _, [] => false
  end.

(** [s.endsWith(p)] *)
Definition endsWith (s p : jsstring) : bool :=
  (length p <=? length s)%nat && jseqb (drop (length s - length p) s) p.

(** [s.replace(pat, rep)] with a string pattern: the first occurrence of
    [pat] is replaced (none of the replacements used has a [$]). *)
Fixpoint replace (s pat rep : jsstring) : jsstring :=
  if startsWith s pat then rep ++ drop (length pat) s
  else match s with
       | [] => []
       | c :: s' => c :: replace s' pat rep
       end.

(** [s.replace(/\/$/, '')]: without the [m] flag [$] is the end of the
    input, so the only candidate match is a final slash. *)
Definition replace_trailing_slash (s : jsstring) : jsstring :=
  match rev s with
  | c :: r => if c =? 47 then rev r else s
  | [] => s
  end.

(** An [ArrayBuffer] seen through a [DataView]: a list of bytes, zeroed on
    creation. The setters below are only called at offsets inside the
    buffer (outside, JS raises a RangeError and [<[_:=_]>] does nothing). *)
Definition ArrayBuffer : Type := list Z.

Definition new_ArrayBuffer (size : nat) : ArrayBuffer := replicate size 0.

Definition setUint8 (off : nat) (v : number) (b : ArrayBuffer) : ArrayBuffer :=
  <[off := ToUint8 v]> b.

(** [setUint16(off, v, true)] and [setInt16(off, v, true)]: little endian.
    The two store the same bytes (two's complement). *)
Definition setUint16 (off : nat) (v : number) (b : ArrayBuffer) : ArrayBuffer :=
  let u := ToUint16 v in
  <[S off := u / 256]> (<[off := u mod 256]> b).

Definition setInt16 (off : nat) (v : number) (b : ArrayBuffer) : ArrayBuffer :=
  let u := ToInt16 v mod 2 ^ 16 in
  <[S off := u / 256]> (<[off := u mod 256]> b).

(** [setUint32(off, v, true)] *)
Definition setUint32 (off : nat) (v : number) (b : ArrayBuffer) : ArrayBuffer :=
  let u := ToUint32 v in
  <[S (S (S off)) := u / 16777216]>
    (<[S (S off) := (u / 65536) mod 256]>
       (<[S off := (u / 256) mod 256]>
          (<[off := u mod 256]> b))).

(** Values that a property read on a plain object can give. *)
Inductive value : Type :=
  | VNum (n : number)
  | VObj
  | VUndef
  | VNull.

Definition truthy (v : value) : bool :=
  match v with
  | VNum (Fin q) => negb (Qeq_bool q 0)
  | VNum NaN => false
  | VNum _ => true
  | VObj => true
  | VUndef | VNull => false
  end.

Definition ToNumber (v : value) : number :=
  match v with
  | VNum n => n
  | VNull => num_of_Z 0
  | VObj | VUndef => NaN
  end.

(** The properties every plain object inherits from [Object.prototype];
    [obj[name]] is a function (or the prototype) for them. *)
Definition Object_prototype_names : list jsstring :=
  map js
    ["constructor"; "__proto__"; "hasOwnProperty"; "isPrototypeOf";
     "propertyIsEnumerable"; "toLocaleString"; "toString"; "valueOf";
     "__defineGetter__"; "__defineSetter__"; "__lookupGetter__";
     "__lookupSetter__"]%string.

Fixpoint assoc (k : jsstring) (tbl : list (jsstring * Z)) : option Z :=
  match tbl with
  | [] => None
  | (k', v) :: rest => if jseqb k k' then Some v else assoc k rest
  end.

(** [obj[k]] for an object literal with own properties [tbl]. *)
Definition get (tbl : list (jsstring * Z)) (k : jsstring) : value :=
  match assoc k tbl with
  | Some z => VNum (num_of_Z z)
  | None => if existsb (jseqb k) Object_prototype_names then VObj else VUndef
  end.

End JS.

(** ** [protocol.ts] *)

Module Protocol.
Import JS.

Definition OP_MOUSE_MOVE : Z := 0x01.
Definition OP_MOUSE_SCROLL : Z := 0x02.
Definition OP_MOUSE_DOWN : Z := 0x03.
Definition OP_MOUSE_UP : Z := 0x04.
Definition OP_KEY_DOWN : Z := 0x05.
Definition OP_KEY_UP : Z := 0x06.

Definition createMessage (opcode : Z) (size : nat) : ArrayBuffer :=
  setUint8 0 (num_of_Z opcode) (new_ArrayBuffer size).

Definition encodeMouseMove (x y : number) : ArrayBuffer :=
  let buffer := createMessage OP_MOUSE_MOVE 5 in
  let buffer := setUint16 1 (Math_round x) buffer in
  setUint16 3 (Math_round y) buffer.

Definition encodeMouseScroll (deltaX deltaY : number) : ArrayBuffer :=
  let buffer := createMessage OP_MOUSE_SCROLL 5 in
  let buffer := setInt16 1 (Math_round deltaX) buffer in
  setInt16 3 (Math_round deltaY) buffer.

Definition encodeMouseButton (button : number) (pressed : bool) : ArrayBuffer :=
  let opcode := if pressed then OP_MOUSE_DOWN else OP_MOUSE_UP in
  setUint8 1 button (createMessage opcode 2).

Definition encodeKey (keycode : number) (pressed : bool) : ArrayBuffer :=
  let opcode := if pressed then OP_KEY_DOWN else OP_KEY_UP in
  setUint32 1 keycode (createMessage opcode 5).

Definition KEYSYM_MAP : list (jsstring * Z) :=
  map (fun kv => (js (fst kv), snd kv))
    [ ("KeyA", 0x61); ("KeyB", 0x62); ("KeyC", 0x63); ("KeyD", 0x64);
      ("KeyE", 0x65); ("KeyF", 0x66); ("KeyG", 0x67); ("KeyH", 0x68);
      ("KeyI", 0x69); ("KeyJ", 0x6a); ("KeyK", 0x6b); ("KeyL", 0x6c);
      ("KeyM", 0x6d); ("KeyN", 0x6e); ("KeyO", 0x6f); ("KeyP", 0x70);
      ("KeyQ", 0x71); ("KeyR", 0x72); ("KeyS", 0x73); ("KeyT", 0x74);
      ("KeyU", 0x75); ("KeyV", 0x76); ("KeyW", 0x77); ("KeyX", 0x78);
      ("KeyY", 0x79); ("KeyZ", 0x7a);
      ("Digit0", 0x30); ("Digit1", 0x31); ("Digit2", 0x32); ("Digit3", 0x33);
      ("Digit4", 0x34); ("Digit5", 0x35); ("Digit6", 0x36); ("Digit7", 0x37);
      ("Digit8", 0x38); ("Digit9", 0x39);
      ("F1", 0xffbe); ("F2", 0xffbf); ("F3", 0xffc0); ("F4", 0xffc1);
      ("F5", 0xffc2); ("F6", 0xffc3); ("F7", 0xffc4); ("F8", 0xffc5);
      ("F9", 0xffc6); ("F10", 0xffc7); ("F11", 0xffc8); ("F12", 0xffc9);
      ("Space", 0x20); ("Enter", 0xff0d); ("Tab", 0xff09);
      ("Escape", 0xff1b); ("Backspace", 0xff08); ("Delete", 0xffff);
      ("Insert", 0xff63); ("Home", 0xff50); ("End", 0xff57);
      ("PageUp", 0xff55); ("PageDown", 0xff56);
      ("ArrowUp", 0xff52); ("ArrowDown", 0xff54); ("ArrowLeft", 0xff51);
      ("ArrowRight", 0xff53);
      ("ShiftLeft", 0xffe1); ("ShiftRight", 0xffe2); ("ControlLeft", 0xffe3);
      ("ControlRight", 0xffe4); ("AltLeft", 0xffe9); ("AltRight", 0xffea);
      ("MetaLeft", 0xffeb); ("MetaRight", 0xffec); ("CapsLock", 0xffe5);
      ("Minus", 0x2d); ("Equal", 0x3d); ("BracketLeft", 0x5b);
      ("BracketRight", 0x5d); ("Backslash", 0x5c); ("Semicolon", 0x3b);
      ("Quote", 0x27); ("Backquote", 0x60); ("Comma", 0x2c);
      ("Period", 0x2e); ("Slash", 0x2f) ]%string.

(** The fields of a [KeyboardEvent] that [getKeysym] reads. *)
Record KeyboardEvent : Type := {
  code : jsstring;
  key : jsstring;
  shiftKey : bool;
}.

(** [getKeysym]: the result is [VNull] for JS [null]. *)
Definition getKeysym (event : KeyboardEvent) : value :=
  if truthy (get KEYSYM_MAP (code event)) then
    let keysym := get KEYSYM_MAP (code event) in
    if startsWith (code event) (js "Key") && shiftKey event
    then VNum (sub (ToNumber keysym) 0x20)
    else keysym
  else
    match key event with
    | [c] => VNum (num_of_Z c)
    | _ => VNull
    end.

(** [getMouseButton]: [switch] compares with [===]. *)
Definition getMouseButton (button : number) : Z :=
  match button with
  | Fin q =>
      if Qeq_bool q 0 then 1
      else if Qeq_bool q 1 then 2
      else if Qeq_bool q 2 then 3
      else if Qeq_bool q 3 then 8
      else if Qeq_bool q 4 then 9
      else 1
  | _ => 1
  end.

(** *** The decoder of the design document *)

(** Modelled from the spec: the [InputEvent] a decoder returns
    (MouseMove, MouseScroll, MouseButton, Key); [protocol.ts] has no such
    type, it encodes from plain numbers. *)
Inductive InputEvent : Type :=
  | MouseMove (x y : Z)
  | MouseScroll (dx dy : Z)
  | MouseButton (button : Z) (pressed : bool)
  | Key (keycode : Z) (pressed : bool).

(** Modelled from the spec: the two decode errors. *)
Inductive DecodeError : Type :=
  | UnknownOpcode
  | Truncated.

(** Modelled from the spec: little-endian fields of the layout table. *)
Definition uint16_le (lo hi : Z) : Z := lo + 256 * hi.

Definition int16_le (lo hi : Z) : Z :=
  let u := uint16_le lo hi in
  if 2 ^ 15 <=? u then u - 2 ^ 16 else u.

Definition uint32_le (b0 b1 b2 b3 : Z) : Z :=
  b0 + 256 * b1 + 65536 * b2 + 16777216 * b3.

(** Modelled from the spec: [decode], which [protocol.ts] does not have (the
    client only encodes). It follows the layout table of the document:
    opcode byte, then little-endian fields of the listed widths;
    [UnknownOpcode] for a first byte outside 0x01..0x06, [Truncated] for a
    buffer shorter than the opcode's fixed size. *)
Definition decode (bytes : list Z) : InputEvent + DecodeError :=
  match bytes with
  | [] => inr Truncated
  | op :: payload =>
      if op =? 0x01 then
        match payload with
        | xl :: xh :: yl :: yh :: _ =>
            inl (MouseMove (uint16_le xl xh) (uint16_le yl yh))
        | _ => inr Truncated
        end
      else if op =? 0x02 then
        match payload with
        | xl :: xh :: yl :: yh :: _ =>
            inl (MouseScroll (int16_le xl xh) (int16_le yl yh))
        | _ => inr Truncated
        end
      else if (op =? 0x03) || (op =? 0x04) then
        match payload with
        | b :: _ => inl (MouseButton b (op =? 0x03))
        | _ => inr Truncated
        end
      else if (op =? 0x05) || (op =? 0x06) then
        match payload with
        | b0 :: b1 :: b2 :: b3 :: _ =>
            inl (Key (uint32_le b0 b1 b2 b3) (op =? 0x05))
        | _ => inr Truncated
        end
      else inr UnknownOpcode
  end.

End Protocol.

(** ** [client.ts]: the data of a [NekoClient] and of the browser objects
    it owns *)

Module Client.
Import JS Protocol.

Record NekoConfig : Type := {
  url : jsstring;
  password : option jsstring;
  displayName : option jsstring;
}.

Record NekoState : Type := mkState {
  connected : bool;
  connecting : bool;
  controlling : bool;
  videoWidth : Z;
  videoHeight : Z;
  error : option jsstring;
}.

Definition defaultState : NekoState := mkState false false false 1280 720 None.

(** [readyState] of a WebSocket or of an RTCDataChannel. *)
Inductive ReadyState : Type := CONNECTING | OPEN | CLOSING | CLOSED.

Definition is_open (r : ReadyState) : bool :=
  match r with OPEN => true | _ => false end.

Definition is_closed (r : ReadyState) : bool :=
  match r with CLOSED => true | _ => false end.

(** [connectionState] of an RTCPeerConnection. *)
Inductive ConnectionState : Type :=
  | Cnew | Cconnecting | Cconnected | Cdisconnected | Cfailed | Cclosed.

(** Signaling documents, by their [event] field: the ones the client sends
    and the ones [handleMessage] distinguishes. *)
Inductive Outgoing : Type :=
  | OutIdentity (displayname pass : jsstring)
  | OutCandidate
  | OutAnswer
  | OutControlRequest
  | OutControlRelease.

Inductive Message : Type :=
  | SignalProvide
  | SignalCandidate (candidate : bool)
  | MemberIdentity (id : jsstring)
  | ScreenResolution (width height : Z)
  | ControlGive
  | ControlRelease
  | Unhandled (event : jsstring).

(** The promise made by one run of [establishConnection], and who awaits
    it: [connect] (whose [catch] block runs on rejection) or the reconnect
    timer (which only logs). *)
Inductive PromiseState : Type :=
  | Pending
  | Resolved
  | Rejected (message : jsstring).

Inductive Caller : Type := ByConnect | ByReconnect.

(** What one run of the executor in [establishConnection] creates: the
    socket, and the promise whose [resolve]/[reject] its handlers hold. *)
Record Attempt : Type := mkAttempt {
  a_url : jsstring;
  a_ready : ReadyState;
  a_promise : PromiseState;
  a_caller : Caller;
}.

Inductive TimerKind : Type :=
  | ConnectTimeout (attempt : nat)
  | Reconnect.

Record Timer : Type := mkTimer {
  t_kind : TimerKind;
  t_delay : Z;            (* milliseconds *)
  t_fired : bool;
}.

(** The [onmessage] handler is suspended at each [await] of
    [handleSignalProvide]; a task remembers where, and whose [resolve]
    it will call. *)
Inductive Stage : Type :=
  | AwaitSetRemote
  | AwaitCreateAnswer
  | AwaitSetLocal
  | Finished.

Record Task : Type := mkTask {
  k_attempt : nat;
  k_stage : Stage;
}.

(** What the client does to the outside, in order: callbacks of
    [NekoEvents] it invokes, and calls on the browser objects. *)
Inductive Effect : Type :=
  | OnConnected
  | OnDisconnected (reason : jsstring)
  | OnError (message : jsstring)
  | OnControlGranted
  | OnControlReleased
  | OnResize (width height : Z)
  | NewWebSocket (i : nat) (address : jsstring)
  | WsSend (i : nat) (m : Outgoing)
  | WsCloseCall (i : nat)
  | NewPeerConnection (p : nat)
  | PcCloseCall (p : nat)
  | AddIceCandidate (p : nat)
  | DcCloseCall (d : nat)
  | DcSend (d : nat) (data : ArrayBuffer)
  | SetTimeout (t : nat) (delay : Z).

(** The private fields of the client, then the browser objects created so
    far (indexed by creation order), then the effects so far, then the
    browser's [WebSocket] constructor: [throws w address] is the message of
    the exception [new WebSocket(address)] throws (a [SyntaxError] when the
    address does not parse as a URL), or [None] when it returns a socket. *)
Record World : Type := mkWorld {
  config : option NekoConfig;
  ws : option nat;
  pc : option nat;
  dataChannel : option nat;
  state : NekoState;
  memberId : jsstring;
  reconnectAttempts : Z;
  sockets : list Attempt;
  peers : list ConnectionState;
  channels : list ReadyState;
  timers : list Timer;
  tasks : list Task;
  trace : list Effect;
  throws : jsstring -> option jsstring;
}.

Definition maxReconnectAttempts : Z := 5.

(** A new client, in a browser whose constructor behaves as [browser]. *)
Definition new_client (browser : jsstring -> option jsstring) : World :=
  mkWorld None None None None defaultState [] 0 [] [] [] [] [] [] browser.

(** A new client in a browser that accepts every address it is given. *)
Definition init : World := new_client (fun _ => None).

(** Field updates. *)
Definition set_config v w :=
  mkWorld v (ws w) (pc w) (dataChannel w) (state w) (memberId w)
    (reconnectAttempts w) (sockets w) (peers w) (channels w) (timers w)
    (tasks w) (trace w) (throws w).
Definition set_ws v w :=
  mkWorld (config w) v (pc w) (dataChannel w) (state w) (memberId w)
    (reconnectAttempts w) (sockets w) (peers w) (channels w) (timers w)
    (tasks w) (trace w) (throws w).
Definition set_pc v w :=
  mkWorld (config w) (ws w) v (dataChannel w) (state w) (memberId w)
    (reconnectAttempts w) (sockets w) (peers w) (channels w) (timers w)
    (tasks w) (trace w) (throws w).
Definition set_dataChannel v w :=
  mkWorld (config w) (ws w) (pc w) v (state w) (memberId w)
    (reconnectAttempts w) (sockets w) (peers w) (channels w) (timers w)
    (tasks w) (trace w) (throws w).
Definition set_state v w :=
  mkWorld (config w) (ws w) (pc w) (dataChannel w) v (memberId w)
    (reconnectAttempts w) (sockets w) (peers w) (channels w) (timers w)
    (tasks w) (trace w) (throws w).
Definition set_memberId v w :=
  mkWorld (config w) (ws w) (pc w) (dataChannel w) (state w) v
    (reconnectAttempts w) (sockets w) (peers w) (channels w) (timers w)
    (tasks w) (trace w) (throws w).
Definition set_reconnectAttempts v w :=
  mkWorld (config w) (ws w) (pc w) (dataChannel w) (state w) (memberId w)
    v (sockets w) (peers w) (channels w) (timers w) (tasks w) (trace w) (throws w).
Definition set_sockets v w :=
  mkWorld (config w) (ws w) (pc w) (dataChannel w) (state w) (memberId w)
    (reconnectAttempts w) v (peers w) (channels w) (timers w) (tasks w)
    (trace w) (throws w).
Definition set_peers v w :=
  mkWorld (config w) (ws w) (pc w) (dataChannel w) (state w) (memberId w)
    (reconnectAttempts w) (sockets w) v (channels w) (timers w) (tasks w)
    (trace w) (throws w).
Definition set_channels v w :=
  mkWorld (config w) (ws w) (pc w) (dataChannel w) (state w) (memberId w)
    (reconnectAttempts w) (sockets w) (peers w) v (timers w) (tasks w)
    (trace w) (throws w).
Definition set_timers v w :=
  mkWorld (config w) (ws w) (pc w) (dataChannel w) (state w) (memberId w)
    (reconnectAttempts w) (sockets w) (peers w) (channels w) v (tasks w)
    (trace w) (throws w).
Definition set_tasks v w :=
  mkWorld (config w) (ws w) (pc w) (dataChannel w) (state w) (memberId w)
    (reconnectAttempts w) (sockets w) (peers w) (channels w) (timers w) v
    (trace w) (throws w).
Definition emit (e : Effect) w :=
  mkWorld (config w) (ws w) (pc w) (dataChannel w) (state w) (memberId w)
    (reconnectAttempts w) (sockets w) (peers w) (channels w) (timers w)
    (tasks w) (trace w ++ [e]) (throws w).

Definition set_connected b (s : NekoState) :=
  mkState b (connecting s) (controlling s) (videoWidth s) (videoHeight s) (error s).
Definition set_connecting b (s : NekoState) :=
  mkState (connected s) b (controlling s) (videoWidth s) (videoHeight s) (error s).
Definition set_controlling b (s : NekoState) :=
  mkState (connected s) (connecting s) b (videoWidth s) (videoHeight s) (error s).
Definition set_video wd ht (s : NekoState) :=
  mkState (connected s) (connecting s) (controlling s) wd ht (error s).
Definition set_error e (s : NekoState) :=
  mkState (connected s) (connecting s) (controlling s) (videoWidth s) (videoHeight s) e.

Definition upd_state (f : NekoState -> NekoState) (w : World) : World :=
  set_state (f (state w)) w.

(** ** The methods of [NekoClient] *)

Definition buildWebSocketUrl (address : jsstring) : jsstring :=
  let cleanUrl := replace_trailing_slash address in
  let cleanUrl :=
    if startsWith cleanUrl (js "http://") then
      replace cleanUrl (js "http://") (js "ws://")
    else if startsWith cleanUrl (js "https://") then
      replace cleanUrl (js "https://") (js "wss://")
    else if negb (startsWith cleanUrl (js "ws://"))
            && negb (startsWith cleanUrl (js "wss://")) then
      js "wss://" ++ cleanUrl
    else cleanUrl in
  if negb (endsWith cleanUrl (js "/ws")) then cleanUrl ++ js "/ws"
  else cleanUrl.

Definition ws_open (w : World) : bool :=
  match ws w with
  | Some i => match sockets w !! i with
              | Some a => is_open (a_ready a)
              | None => false
              end
  | None => false
  end.

Definition dc_open (w : World) : bool :=
  match dataChannel w with
  | Some d => match channels w !! d with
              | Some r => is_open r
              | None => false
              end
  | None => false
  end.

Definition send (m : Outgoing) (w : World) : World :=
  match ws w with
  | Some i => if ws_open w then emit (WsSend i m) w else w
  | None => w
  end.

Definition sendBinary (data : ArrayBuffer) (w : World) : World :=
  match dataChannel w with
  | Some d => if dc_open w then emit (DcSend d data) w else w
  | None => w
  end.

(** [x.close()] on a socket or channel that is not closed yet starts the
    closing handshake; the [close] event arrives later. *)
Definition closing (r : ReadyState) : ReadyState :=
  match r with CLOSED => CLOSED | _ => CLOSING end.

Definition close_socket (a : Attempt) : Attempt :=
  mkAttempt (a_url a) (closing (a_ready a)) (a_promise a) (a_caller a).

(** [cleanup]: its three [if] blocks, in order. *)
Definition cleanup_dataChannel (w : World) : World :=
  match dataChannel w with
  | Some d =>
      let w := emit (DcCloseCall d) w in
      let w := set_channels (alter closing d (channels w)) w in
      set_dataChannel None w
  | None => w
  end.

Definition cleanup_pc (w : World) : World :=
  match pc w with
  | Some p =>
      let w := emit (PcCloseCall p) w in
      let w := set_peers (<[p := Cclosed]> (peers w)) w in
      set_pc None w
  | None => w
  end.

Definition cleanup_ws (w : World) : World :=
  match ws w with
  | Some i =>
      let w := emit (WsCloseCall i) w in
      let w := set_sockets (alter close_socket i (sockets w)) w in
      set_ws None w
  | None => w
  end.

Definition cleanup (w : World) : World :=
  let w := cleanup_dataChannel w in
  let w := cleanup_pc w in
  cleanup_ws w.

Definition disconnect (w : World) : World :=
  let w := set_config None w in
  let w := cleanup w in
  set_state defaultState w.

(** The [catch] block of [connect]. *)
Definition connect_catch (message : jsstring) (w : World) : World :=
  let w := upd_state (set_connecting false) w in
  let w := upd_state (set_error (Some message)) w in
  emit (OnError message) w.

(** [resolve()] and [reject(new Error(message))] of attempt [i]: a promise
    settles once; a rejection reaches the caller's handler. *)
Definition set_promise (p : PromiseState) (a : Attempt) : Attempt :=
  mkAttempt (a_url a) (a_ready a) p (a_caller a).

Definition resolve (i : nat) (w : World) : World :=
  match sockets w !! i with
  | Some a =>
      match a_promise a with
      | Pending => set_sockets (<[i := set_promise Resolved a]> (sockets w)) w
      | _ => w
      end
  | None => w
  end.

Definition reject (i : nat) (message : jsstring) (w : World) : World :=
  match sockets w !! i with
  | Some a =>
      match a_promise a with
      | Pending =>
          let w := set_sockets (<[i := set_promise (Rejected message) a]> (sockets w)) w in
          match a_caller a with
          | ByConnect => connect_catch message w
          | ByReconnect => w
          end
      | _ => w
      end
  | None => w
  end.

(** [establishConnection], to the point where it returns its promise. The
    result is [None] when the promise is pending: the executor has created
    the socket, installed its handlers and started the 10 s timer. It is
    [Some message] when the promise is rejected from the start: without a
    config the function throws before anything is created, and when
    [new WebSocket(wsUrl)] throws, the executor stops at its first
    statement, with [this.ws] not assigned and no timer started. *)
Definition establishConnection (who : Caller) (w : World) : World * option jsstring :=
  match config w with
  | None => (w, Some (js "No config provided"))
  | Some cfg =>
      let wsUrl := buildWebSocketUrl (url cfg) in
      match throws w wsUrl with
      | Some message => (w, Some message)
      | None =>
          let i := length (sockets w) in
          let w := emit (NewWebSocket i wsUrl) w in
          let w := set_sockets (sockets w ++ [mkAttempt wsUrl CONNECTING Pending who]) w in
          let w := set_ws (Some i) w in
          let t := length (timers w) in
          let w := emit (SetTimeout t 10000) w in
          let w := set_timers (timers w ++ [mkTimer (ConnectTimeout i) 10000 false]) w in
          (w, None)
      end
  end.

(** Where a call of [connect] is suspended with its continuation due as a
    microtask: at [await this.disconnect()] (the promise of [disconnect] is
    resolved when it returns), or at [await this.establishConnection()] on
    a promise rejected from the start. A call that waits for a pending
    promise is not listed here: [reject] runs its [catch] block. *)
Inductive Suspended : Type :=
  | AwaitDisconnect (cfg : NekoConfig)
  | AwaitRejected (message : jsstring).

(** [connect] from the assignment of [this.config] to the [await] of
    [establishConnection]. *)
Definition connect_body (cfg : NekoConfig) (w : World) : World * option Suspended :=
  let w := set_config (Some cfg) w in
  let w := upd_state (set_connecting true) w in
  let w := upd_state (set_error None) w in
  let w := set_reconnectAttempts 0 w in
  match establishConnection ByConnect w with
  | (w, None) => (w, None)
  | (w, Some message) => (w, Some (AwaitRejected message))
  end.

(** [connect], to the point where it first gives up control: while
    connecting or connected that is [await this.disconnect()], after
    [disconnect] has run. *)
Definition connect (cfg : NekoConfig) (w : World) : World * option Suspended :=
  if connecting (state w) || connected (state w)
  then (disconnect w, Some (AwaitDisconnect cfg))
  else connect_body cfg w.

(** The continuation of a suspended call, to the point where it gives up
    control again. *)
Definition connect_resume (s : Suspended) (w : World) : World * option Suspended :=
  match s with
  | AwaitDisconnect cfg => connect_body cfg w
  | AwaitRejected message => (connect_catch message w, None)
  end.

Definition option_list {A} (o : option A) : list A :=
  match o with
  | Some x => [x]
  | None => []
  end.

(** The suspended calls of a queue resumed one after the other; the result
    lists the ones that were suspended again. *)
Fixpoint resume_all (q : list Suspended) (w : World) : World * list Suspended :=
  match q with
  | [] => (w, [])
  | s :: q =>
      let (w, again) := connect_resume s w in
      let (w, rest) := resume_all q w in
      (w, option_list again ++ rest)
  end.

(** The microtask checkpoint at the end of a turn of the event loop: the
    suspended calls that are left resume, here in the order in which they
    were suspended, and after them the ones suspended again (they are at
    their [catch] block, which does not suspend). No callback of a browser
    object runs before the checkpoint is over. *)
Definition checkpoint (q : list Suspended) (w : World) : World :=
  let (w, again) := resume_all q w in
  fst (resume_all again w).

Definition handleDisconnect (reason : jsstring) (w : World) : World :=
  let wasConnected := connected (state w) in
  let w := upd_state (set_connected false) w in
  let w := upd_state (set_connecting false) w in
  let w := upd_state (set_controlling false) w in
  let w := if wasConnected then emit (OnDisconnected reason) w else w in
  let w := cleanup w in
  if wasConnected && bool_decide (is_Some (config w))
     && (reconnectAttempts w <? maxReconnectAttempts) then
    let w := set_reconnectAttempts (reconnectAttempts w + 1) w in
    let t := length (timers w) in
    let w := emit (SetTimeout t (2000 * reconnectAttempts w)) w in
    set_timers (timers w ++ [mkTimer Reconnect (2000 * reconnectAttempts w) false]) w
  else w.

(** [handleSignalProvide] up to its first [await]. *)
Definition handleSignalProvide (w : World) : World :=
  let p := length (peers w) in
  let w := emit (NewPeerConnection p) w in
  let w := set_peers (peers w ++ [Cnew]) w in
  set_pc (Some p) w.

Definition handleSignalCandidate (candidate : bool) (w : World) : World :=
  match pc w with
  | Some p => if candidate then emit (AddIceCandidate p) w else w
  | None => w
  end.

Definition handleScreenResolution (width height : Z) (w : World) : World :=
  let w := upd_state (set_video width height) w in
  emit (OnResize width height) w.

(** [handleMessage], for every kind but [signal/provide] to its end. *)
Definition handleMessage (m : Message) (w : World) : World :=
  match m with
  | SignalProvide => handleSignalProvide w
  | SignalCandidate c => handleSignalCandidate c w
  | MemberIdentity id => set_memberId id w
  | ScreenResolution width height => handleScreenResolution width height w
  | ControlGive =>
      let w := upd_state (set_controlling true) w in
      emit OnControlGranted w
  | ControlRelease =>
      let w := upd_state (set_controlling false) w in
      emit OnControlReleased w
  | Unhandled _ => w
  end.

Definition sendMouseMove (x y : number) (w : World) : World :=
  if negb (controlling (state w)) then w
  else sendBinary (encodeMouseMove x y) w.

Definition sendMouseScroll (deltaX deltaY : number) (w : World) : World :=
  if negb (controlling (state w)) then w
  else sendBinary (encodeMouseScroll deltaX deltaY) w.

Definition sendMouseButton (button : number) (pressed : bool) (w : World) : World :=
  if negb (controlling (state w)) then w
  else
    let mappedButton := getMouseButton button in
    sendBinary (encodeMouseButton (num_of_Z mappedButton) pressed) w.

Definition sendKeyEvent (event : KeyboardEvent) (pressed : bool) (w : World) : World :=
  if negb (controlling (state w)) then w
  else
    match getKeysym event with
    | VNull => w
    | keysym => sendBinary (encodeKey (ToNumber keysym) pressed) w
    end.

Definition requestControl (w : World) : World := send OutControlRequest w.

Definition releaseControl (w : World) : World :=
  let w := send OutControlRelease w in
  upd_state (set_controlling false) w.

(** ** Handlers installed on the browser objects *)

Definition nonempty (s : option jsstring) : option jsstring :=
  match s with
  | Some (c :: r) => Some (c :: r)
  | _ => None
  end.

(** [ws.onopen] *)
Definition ws_onopen (w : World) : World :=
  match config w with
  | Some cfg =>
      match nonempty (password cfg) with
      | Some pass =>
          send (OutIdentity (default (js "User") (nonempty (displayName cfg))) pass) w
      | None => w
      end
  | None => w
  end.

(** [ws.onmessage] of attempt [i], up to the first [await] that suspends
    it: [None] is a frame that [JSON.parse] rejects (caught and logged).
    For [signal/provide] the rest runs as a task. *)
Definition ws_onmessage (i : nat) (m : option Message) (w : World) : World :=
  match m with
  | None => w
  | Some SignalProvide =>
      let w := handleMessage SignalProvide w in
      set_tasks (tasks w ++ [mkTask i AwaitSetRemote]) w
  | Some m => handleMessage m w
  end.

(** [ws.onerror] of attempt [i] *)
Definition ws_onerror (i : nat) (w : World) : World :=
  let w := upd_state (set_error (Some (js "WebSocket connection failed"))) w in
  reject i (js "WebSocket connection failed") w.

(** [ws.onclose]: [event.reason || 'Connection closed'] *)
Definition ws_onclose (reason : jsstring) (w : World) : World :=
  handleDisconnect (match reason with [] => js "Connection closed" | _ => reason end) w.

(** The callback of the 10 s timer of attempt [i]. *)
Definition connect_timeout (i : nat) (w : World) : World :=
  if connecting (state w) && negb (connected (state w))
  then reject i (js "Connection timeout") w
  else w.

(** The callback of a reconnect timer:
    [this.establishConnection().catch(console.error)]. *)
Definition reconnect_timeout (w : World) : World :=
  fst (establishConnection ByReconnect w).

(** [pc.onconnectionstatechange]: it reads the state of [this.pc]. *)
Definition pc_onconnectionstatechange (w : World) : World :=
  match pc w with
  | Some p =>
      match peers w !! p with
      | Some Cconnected =>
          let w := upd_state (set_connected true) w in
          let w := upd_state (set_connecting false) w in
          emit OnConnected w
      | Some Cdisconnected | Some Cfailed =>
          handleDisconnect (js "WebRTC connection failed") w
      | _ => w
      end
  | None => w
  end.

(** [pc.onicecandidate] with a candidate *)
Definition pc_onicecandidate (w : World) : World := send OutCandidate w.

(** [pc.ondatachannel]: the channel [d] of the event becomes
    [this.dataChannel]; [setupDataChannel] only installs logging handlers. *)
Definition pc_ondatachannel (d : nat) (w : World) : World :=
  set_dataChannel (Some d) w.

(** The continuation of [ws.onmessage] after an [await] of
    [handleSignalProvide] settles: [ok = false] is a rejection, and a null
    [this.pc] a TypeError; both end in the handler's [catch]. After the
    last one the answer is sent and the attempt's promise resolved. *)
Definition set_stage (s : Stage) (k : Task) : Task := mkTask (k_attempt k) s.

Definition resume (n : nat) (k : Task) (ok : bool) (w : World) : World :=
  let finish w := set_tasks (<[n := set_stage Finished k]> (tasks w)) w in
  if negb ok then finish w
  else
    match k_stage k with
    | AwaitSetRemote =>
        match pc w with
        | Some _ => set_tasks (<[n := set_stage AwaitCreateAnswer k]> (tasks w)) w
        | None => finish w
        end
    | AwaitCreateAnswer =>
        match pc w with
        | Some _ => set_tasks (<[n := set_stage AwaitSetLocal k]> (tasks w)) w
        | None => finish w
        end
    | AwaitSetLocal =>
        let w := send OutAnswer w in
        let w := resolve (k_attempt k) w in
        finish w
    | Finished => w
    end.

(** ** Events and the step function *)

Inductive Call : Type :=
  | Connect (cfg : NekoConfig)
  | Disconnect
  | RequestControl
  | ReleaseControl
  | SendMouseMove (x y : number)
  | SendMouseScroll (deltaX deltaY : number)
  | SendMouseButton (button : number) (pressed : bool)
  | SendKeyEvent (event : KeyboardEvent) (pressed : bool).

(** A call of the public interface that is the last thing the application
    does in its turn: what [connect] has left suspended resumes at once. *)
Definition call (c : Call) (w : World) : World :=
  match c with
  | Connect cfg => let (w, s) := connect cfg w in checkpoint (option_list s) w
  | Disconnect => disconnect w
  | RequestControl => requestControl w
  | ReleaseControl => releaseControl w
  | SendMouseMove x y => sendMouseMove x y w
  | SendMouseScroll dx dy => sendMouseScroll dx dy w
  | SendMouseButton b p => sendMouseButton b p w
  | SendKeyEvent e p => sendKeyEvent e p w
  end.

(** What runs in one turn in which the application calls the client
    several times: its calls, and the continuations of suspended [connect]
    calls that come up before the turn is over ([Resume n] resumes the
    [n]-th call suspended at that point, counting from 0). In which order
    continuations come up depends on the number of microtask ticks each
    [await] takes; a list of jobs can put them in any order, and the
    statements below are about every list. *)
Inductive Job : Type :=
  | Do (c : Call)
  | Resume (n : nat).

Definition do_job (wq : World * list Suspended) (j : Job) : World * list Suspended :=
  let (w, q) := wq in
  match j with
  | Do (Connect cfg) =>
      let (w, s) := connect cfg w in (w, q ++ option_list s)
  | Do c => (call c w, q)
  | Resume n =>
      match q !! n with
      | Some s =>
          let (w, again) := connect_resume s w in
          (w, delete n q ++ option_list again)
      | None => (w, q)
      end
  end.

(** A turn: its jobs in order, then the checkpoint. *)
Definition turn (jobs : list Job) (w : World) : World :=
  let (w, q) := fold_left do_job jobs (w, []) in
  checkpoint q w.

(** What the single-threaded event loop can run next: a call of the public
    interface, a turn with several of them, or a callback of a browser
    object. *)
Inductive Event : Type :=
  | Api (c : Call)
  | Turn (jobs : list Job)
  | WsOpen (i : nat)
  | WsMessage (i : nat) (m : option Message)
  | WsError (i : nat)
  | WsClose (i : nat) (reason : jsstring)
  | TimerFire (t : nat)
  | TaskResume (n : nat) (ok : bool)
  | PcConnectionState (p : nat) (s : ConnectionState)
  | PcIceCandidate (p : nat)
  | PcDataChannel (p : nat)
  | DcOpen (d : nat)
  | DcClosed (d : nat).

Definition set_ready (r : ReadyState) (a : Attempt) : Attempt :=
  mkAttempt (a_url a) r (a_promise a) (a_caller a).

Definition fire (t : Timer) : Timer := mkTimer (t_kind t) (t_delay t) true.

Definition pc_alive (s : ConnectionState) : bool :=
  match s with Cclosed => false | _ => true end.

(** One turn of the event loop. The browser delivers [open] once to a
    connecting socket, messages only to an open one, [error] and [close]
    only to one that has not closed, each timer once, and nothing from a
    closed peer connection; an event it cannot deliver changes nothing. *)
Definition step (w : World) (e : Event) : World :=
  match e with
  | Api c => call c w
  | Turn jobs => turn jobs w
  | WsOpen i =>
      match sockets w !! i with
      | Some a =>
          match a_ready a with
          | CONNECTING =>
              ws_onopen (set_sockets (<[i := set_ready OPEN a]> (sockets w)) w)
          | _ => w
          end
      | None => w
      end
  | WsMessage i m =>
      match sockets w !! i with
      | Some a => if is_open (a_ready a) then ws_onmessage i m w else w
      | None => w
      end
  | WsError i =>
      match sockets w !! i with
      | Some a => if is_closed (a_ready a) then w else ws_onerror i w
      | None => w
      end
  | WsClose i reason =>
      match sockets w !! i with
      | Some a =>
          if is_closed (a_ready a) then w
          else ws_onclose reason
                 (set_sockets (<[i := set_ready CLOSED a]> (sockets w)) w)
      | None => w
      end
  | TimerFire t =>
      match timers w !! t with
      | Some tm =>
          if t_fired tm then w
          else
            let w := set_timers (<[t := fire tm]> (timers w)) w in
            match t_kind tm with
            | ConnectTimeout i => connect_timeout i w
            | Reconnect => reconnect_timeout w
            end
      | None => w
      end
  | TaskResume n ok =>
      match tasks w !! n with
      | Some k => resume n k ok w
      | None => w
      end
  | PcConnectionState p s =>
      match peers w !! p with
      | Some old =>
          if pc_alive old && pc_alive s
          then pc_onconnectionstatechange (set_peers (<[p := s]> (peers w)) w)
          else w
      | None => w
      end
  | PcIceCandidate p =>
      match peers w !! p with
      | Some s => if pc_alive s then pc_onicecandidate w else w
      | None => w
      end
  | PcDataChannel p =>
      match peers w !! p with
      | Some s =>
          if pc_alive s then
            let d := length (channels w) in
            pc_ondatachannel d (set_channels (channels w ++ [CONNECTING]) w)
          else w
      | None => w
      end
  | DcOpen d =>
      match channels w !! d with
      | Some CONNECTING => set_channels (<[d := OPEN]> (channels w)) w
      | _ => w
      end
  | DcClosed d =>
      match channels w !! d with
      | Some _ => set_channels (<[d := CLOSED]> (channels w)) w
      | None => w
      end
  end.

Definition run (w : World) (es : list Event) : World := fold_left step es w.

(** Worlds the client can be in: those [run] reaches from a new client,
    in any browser. *)
Definition reachable (w : World) : Prop :=
  exists browser es, w = run (new_client browser) es.

End Client.

(** ** The design document's wording, and the vocabulary of the statements *)

Module Design.
Import JS Protocol Client.

(** Endpoint derivation as the document words it: strip a trailing slash;
    map a leading [http://] to [ws://] and a leading [https://] to
    [wss://]; prefix [wss://] when there is no scheme; append [/ws] unless
    it is already the suffix. *)
Definition strip_trailing_slash (s : jsstring) : jsstring :=
  if endsWith s (js "/") then take (length s - 1) s else s.

Definition strip_prefix (p s : jsstring) : option jsstring :=
  if startsWith s p then Some (drop (length p) s) else None.

Definition has_scheme (s : jsstring) : bool :=
  existsb (startsWith s) [js "ws://"; js "wss://"; js "http://"; js "https://"].

Definition map_scheme (s : jsstring) : jsstring :=
  match strip_prefix (js "http://") s with
  | Some rest => js "ws://" ++ rest
  | None =>
      match strip_prefix (js "https://") s with
      | Some rest => js "wss://" ++ rest
      | None => if has_scheme s then s else js "wss://" ++ s
      end
  end.

Definition derive_endpoint (address : jsstring) : jsstring :=
  let a := map_scheme (strip_trailing_slash address) in
  if endsWith a (js "/ws") then a else a ++ js "/ws".

(** The five-entry button table: left, middle, right, back, forward. *)
Definition button_table : list (Z * Z) :=
  [(0, 1); (1, 2); (2, 3); (3, 8); (4, 9)].

Fixpoint table_lookup (k : Z) (tbl : list (Z * Z)) : option Z :=
  match tbl with
  | [] => None
  | (k', v) :: rest => if k =? k' then Some v else table_lookup k rest
  end.

Definition left_button : Z := 1.

(** The characters of a string, as code points: a high surrogate followed
    by a low surrogate is one character, of a code point beyond 0xFFFF. *)
Definition is_high_surrogate (c : Z) : bool := (0xD800 <=? c) && (c <=? 0xDBFF).
Definition is_low_surrogate (c : Z) : bool := (0xDC00 <=? c) && (c <=? 0xDFFF).

Fixpoint code_points (s : jsstring) : list Z :=
  match s with
  | [] => []
  | c :: rest =>
      match rest with
      | d :: rest' =>
          if is_high_surrogate c && is_low_surrogate d
          then (0x10000 + (c - 0xD800) * 0x400 + (d - 0xDC00)) :: code_points rest'
          else c :: code_points rest
      | [] => [c]
      end
  end.

(** The [code] of the letter key whose capital has code unit [c]. *)
Definition letter_key (c : Z) : jsstring := js "Key" ++ [c].

Definition key_event (c k : jsstring) (shift : bool) : KeyboardEvent :=
  {| code := c; key := k; shiftKey := shift |}.

(** The input-forwarding calls of the public interface. *)
Definition is_input (c : Call) : bool :=
  match c with
  | SendMouseMove _ _ | SendMouseScroll _ _
  | SendMouseButton _ _ | SendKeyEvent _ _ => true
  | _ => false
  end.

Definition is_connect_call (c : Call) : bool :=
  match c with
  | Connect _ => true
  | _ => false
  end.

Definition does_connect (j : Job) : bool :=
  match j with
  | Do c => is_connect_call c
  | Resume _ => false
  end.

(** The events in which [connect] is called. *)
Definition is_connect (e : Event) : bool :=
  match e with
  | Api c => is_connect_call c
  | Turn jobs => existsb does_connect jobs
  | _ => false
  end.

Definition is_error_of (i : nat) (e : Event) : bool :=
  match e with
  | WsError j => Nat.eqb i j
  | _ => false
  end.

(** No [connect] call among the events. *)
Definition no_connect (es : list Event) : bool := forallb (fun e => negb (is_connect e)) es.

(** No [error] event of socket [i] among the events. *)
Definition no_error_of (i : nat) (es : list Event) : bool :=
  forallb (fun e => negb (is_error_of i e)) es.

(** The promise of attempt [i]. *)
Definition promise (i : nat) (w : World) : option PromiseState :=
  a_promise <$> sockets w !! i.

(** No offer has been received on socket [i]: no task belongs to it. *)
Definition no_offer (i : nat) (w : World) : bool :=
  forallb (fun k => negb (Nat.eqb (k_attempt k) i)) (tasks w).

Definition is_reconnect (t : Timer) : bool :=
  match t_kind t with
  | Reconnect => true
  | ConnectTimeout _ => false
  end.

(** Reconnect timers started so far. *)
Definition reconnect_timers (w : World) : Z :=
  Z.of_nat (length (List.filter is_reconnect (timers w))).

(** What a call or handler added to the trace. *)
Definition effects_since (w w' : World) : list Effect :=
  drop (length (trace w)) (trace w').

Definition is_OnDisconnected (e : Effect) : bool :=
  match e with OnDisconnected _ => true | _ => false end.

Definition is_OnControlReleased (e : Effect) : bool :=
  match e with OnControlReleased => true | _ => false end.

Definition count (f : Effect -> bool) (l : list Effect) : nat :=
  length (List.filter f l).

(** The [close()] calls of [cleanup], in its order. *)
Definition closes (w : World) : list Effect :=
  match dataChannel w with Some d => [DcCloseCall d] | None => [] end
  ++ match pc w with Some p => [PcCloseCall p] | None => [] end
  ++ match ws w with Some i => [WsCloseCall i] | None => [] end.

(** The events that end an established session without [disconnect]: the
    [close] of a socket, or the current peer connection turning
    [disconnected] or [failed]. *)
Definition ends_session (w : World) (e : Event) : bool :=
  match e with
  | WsClose i _ =>
      match sockets w !! i with
      | Some a => negb (is_closed (a_ready a))
      | None => false
      end
  | PcConnectionState p s =>
      match pc w, peers w !! p with
      | Some p', Some old =>
          Nat.eqb p p' && pc_alive old
          && match s with Cdisconnected | Cfailed => true | _ => false end
      | _, _ => false
      end
  | _ => false
  end.

(** A sample configuration and the events of a session that comes up
    (socket opens, offer answered, data channel opens, transport connects)
    and is then given control. *)
Definition cfg0 : NekoConfig :=
  {| url := js "https://neko.example.com/";
     password := Some (js "secret");
     displayName := None |}.

Definition handshake : list Event :=
  [Api (Connect cfg0); WsOpen 0; WsMessage 0 (Some SignalProvide);
   TaskResume 0 true; TaskResume 0 true; TaskResume 0 true;
   PcDataChannel 0; DcOpen 0; PcConnectionState 0 Cconnected].

Definition in_control : World :=
  run init (handshake ++ [WsMessage 0 (Some ControlGive)]).

(** [connect] called and the socket open, no offer yet. *)
Definition awaiting_offer : World :=
  run init [Api (Connect cfg0); WsOpen 0].

(** Control granted by the host while the session is still connecting. *)
Definition early_grant : World :=
  run init [Api (Connect cfg0); WsOpen 0; WsMessage 0 (Some ControlGive)].

(** One more failure of the transport after the session came up for the
    [k]-th time, and the reconnection that follows it. *)
Definition retry_cycle (k : nat) : list Event :=
  [PcConnectionState k Cfailed; WsClose k []; TimerFire (2 * k + 1);
   WsOpen (S k); WsMessage (S k) (Some SignalProvide);
   TaskResume (S k) true; TaskResume (S k) true; TaskResume (S k) true;
   PcConnectionState (S k) Cconnected].

Definition five_retries : list Event :=
  handshake ++ flat_map retry_cycle [0; 1; 2; 3; 4]%nat.

Definition reconnect_delays (w : World) : list Z :=
  map t_delay (List.filter is_reconnect (timers w)).

(** A session that came up and lost its transport, then [disconnect] and
    a new [connect], all before the reconnect timer (timer 1) fires. *)
Definition reconnect_due : World :=
  run init (handshake ++ [PcConnectionState 0 Cfailed; Api Disconnect;
                          Api (Connect cfg0)]).

End Design.

(** ** Invariants of the session machine (used by the proofs below) *)

Module Invariants.
Import JS Protocol Client Design.

(** How a step may change [state]: it keeps "not both connecting and
    connected"; when it clears [connected] it clears [controlling]; and
    unless it is a [connect] call it does not set [connecting]. *)
Definition ok_change (connects : bool) (s s' : NekoState) : Prop :=
  (connecting s && connected s = false -> connecting s' && connected s' = false)
  /\ (connected s = true -> connected s' = false -> controlling s' = false)
  /\ (connects = false -> connecting s = false -> connecting s' = false).

(** The part of the world reconnection depends on. *)
Definition gist (w : World) : option NekoConfig * Z * Z * nat :=
  (config w, reconnectAttempts w, reconnect_timers w, length (sockets w)).

(** Whether [handleDisconnect] starts a reconnect timer. *)
Definition retries (w : World) : bool :=
  connected (state w) && bool_decide (is_Some (config w))
  && (reconnectAttempts w <? maxReconnectAttempts).


(** A call of [connect] suspended before it has stored its config. *)
Definition at_disconnect (s : Suspended) : bool :=
  match s with
  | AwaitDisconnect _ => true
  | AwaitRejected _ => false
  end.

(** The socket is closing or closed and its promise still pending. *)
Definition dangling (a : Attempt) : bool :=
  match a_ready a, a_promise a with
  | (CLOSING | CLOSED), Pending => true
  | _, _ => false
  end.

Definition is_dangling (i : nat) (w : World) : Prop :=
  dangling <$> sockets w !! i = Some true.

(** What holds of attempt [i] once [disconnect] has left it behind. *)
Definition abandoned (i : nat) (w : World) : Prop :=
  connecting (state w) = false /\ is_dangling i w /\ no_offer i w = true.

End Invariants.

(** ** The rest of the code: platform readers, the video component's wheel
    handler, the controls' connect handler *)

Module Platform.
Import JS.

(** The readers of a [DataView], little endian: [None] is a RangeError. *)
Definition getUint8 (off : nat) (b : ArrayBuffer) : option Z := b !! off.

Definition getUint16 (off : nat) (b : ArrayBuffer) : option Z :=
  match b !! off, b !! S off with
  | Some lo, Some hi => Some (lo + 256 * hi)
  | _, _ => None
  end.

Definition getInt16 (off : nat) (b : ArrayBuffer) : option Z :=
  match getUint16 off b with
  | Some u => Some (if 2 ^ 15 <=? u then u - 2 ^ 16 else u)
  | None => None
  end.

Definition getUint32 (off : nat) (b : ArrayBuffer) : option Z :=
  match b !! off, b !! S off, b !! S (S off), b !! S (S (S off)) with
  | Some b0, Some b1, Some b2, Some b3 =>
      Some (b0 + 256 * b1 + 65536 * b2 + 16777216 * b3)
  | _, _, _, _ => None
  end.

Definition is_byte (z : Z) : bool := (0 <=? z) && (z <? 256).

(** [Math.sign], [Math.abs], [Math.min] and [*] on numbers. The product is
    exact when one factor is -1, 0 or 1, which is how the code uses it. *)
Definition Math_sign (n : number) : number :=
  match n with
  | NaN => NaN
  | PosInf => num_of_Z 1
  | NegInf => num_of_Z (-1)
  | Fin q => num_of_Z (Z.sgn (Qnum q))
  end.

Definition Math_abs (n : number) : number :=
  match n with
  | NaN => NaN
  | PosInf | NegInf => PosInf
  | Fin q => Fin (Qabs q)
  end.

Definition Math_min (a b : number) : number :=
  match a, b with
  | NaN, _ | _, NaN => NaN
  | NegInf, _ | _, NegInf => NegInf
  | PosInf, other | other, PosInf => other
  | Fin p, Fin q => if Qle_bool p q then Fin p else Fin q
  end.

Definition infinity (negative : bool) : number :=
  if negative then NegInf else PosInf.

Definition mul (a b : number) : number :=
  match a, b with
  | NaN, _ | _, NaN => NaN
  | Fin p, Fin q => Fin (p * q)
  | Fin p, PosInf | PosInf, Fin p =>
      if Qeq_bool p 0 then NaN else infinity (Qnum p <? 0)
  | Fin p, NegInf | NegInf, Fin p =>
      if Qeq_bool p 0 then NaN else infinity (0 <? Qnum p)
  | PosInf, PosInf | NegInf, NegInf => PosInf
  | PosInf, NegInf | NegInf, PosInf => NegInf
  end.

End Platform.

(** [NekoVideo]: the wheel handler. *)
Module Video.
Import JS Protocol Client Platform.

(** [Math.sign(d) * Math.min(Math.abs(d), 10)] *)
Definition normalize (d : number) : number :=
  mul (Math_sign d) (Math_min (Math_abs d) (num_of_Z 10)).

(** [handleWheel], on the [deltaX] and [deltaY] of the wheel event. *)
Definition handleWheel (deltaX deltaY : number) (w : World) : World :=
  let deltaX := normalize deltaX in
  let deltaY := normalize deltaY in
  sendMouseScroll deltaX deltaY w.

End Video.

(** [NekoControls]: the connect button. *)
Module Controls.
Import JS Client.

(** [s || fallback] on strings. *)
Definition or_else (s fallback : jsstring) : jsstring :=
  match s with
  | [] => fallback
  | _ => s
  end.

(** The config [handleConnect] builds from the three input fields. *)
Definition config_of (serverUrl pass displayName : jsstring) : NekoConfig :=
  {| url := serverUrl;
     password := match pass with [] => None | _ => Some pass end;
     displayName := Some (or_else displayName (js "User")) |}.

(** [handleConnect]: nothing without a server address; with one, the
    [connect] call of the click, which is alone in its turn. *)
Definition handleConnect (serverUrl pass displayName : jsstring) (w : World) : World :=
  match serverUrl with
  | [] => w
  | _ => call (Connect (config_of serverUrl pass displayName)) w
  end.

End Controls.

(** Vocabulary of the further statements. *)
Module Words.
Import JS Protocol Client Design Invariants Platform.

(** The keysym [getKeysym] gives for a table value [z]. *)
Definition shifted (ev : KeyboardEvent) (z : Z) : Z :=
  if startsWith (code ev) (js "Key") && shiftKey ev then z - 0x20 else z.

(** Clamping to [-10, 10]. *)
Definition clamp10 (q : Q) : Q :=
  if Qle_bool q (-10) then (-10)%Q else if Qle_bool 10 q then 10%Q else q.

Definition opcode_of (down up : Z) (pressed : bool) : Z :=
  if pressed then down else up.

(** The callbacks [handleDisconnect] invokes, its [close()] calls, and the
    timer it starts, in order. *)
Definition teardown_effects (reason : jsstring) (w : World) : list Effect :=
  (if connected (state w) then [OnDisconnected reason] else [])
  ++ closes w
  ++ (if retries w
      then [SetTimeout (length (timers w)) (2000 * (reconnectAttempts w + 1))]
      else []).

(** The reason [handleDisconnect] is called with at the end of a session. *)
Definition end_reason (e : Event) : jsstring :=
  match e with
  | WsClose _ [] => js "Connection closed"
  | WsClose _ reason => reason
  | _ => js "WebRTC connection failed"
  end.

Definition live_socket (r : ReadyState) : bool :=
  match r with CONNECTING | OPEN => true | _ => false end.

(** A handle the client holds is live: the socket is connecting or open,
    the peer connection is not closed, the data channel exists. *)
Definition ws_live (h : option nat) (l : list Attempt) : Prop :=
  match h with
  | Some i => (live_socket ∘ a_ready) <$> l !! i = Some true
  | None => True
  end.

Definition pc_live (h : option nat) (l : list ConnectionState) : Prop :=
  match h with
  | Some p => pc_alive <$> l !! p = Some true
  | None => True
  end.

Definition dc_known (h : option nat) (l : list ReadyState) : Prop :=
  match h with
  | Some d => is_Some (l !! d)
  | None => True
  end.

(** The client holds no socket it has closed or seen close, no closed peer
    connection, only channels that exist, and a peer connection whenever
    it is connected. *)
Definition holds_live (w : World) : Prop :=
  ws_live (ws w) (sockets w)
  /\ pc_live (pc w) (peers w)
  /\ dc_known (dataChannel w) (channels w)
  /\ (connected (state w) = true -> is_Some (pc w)).

(** The events of a complete answer to an offer on socket [i], when the
    task created for it is the [n]-th. *)
Definition answer_offer (i n : nat) : list Event :=
  [WsMessage i (Some SignalProvide);
   TaskResume n true; TaskResume n true; TaskResume n true].

End Words.

(** ** Properties of [protocol.ts] *)

Module ProtocolProofs.
Import JS Protocol Design.

Lemma truncate_inject_Z (z : Z) : truncate (inject_Z z) = z.
Proof.
  unfold truncate. destruct (Qle_bool 0 (inject_Z z)).
  - apply Qfloor_Z.
  - apply Qceiling_Z.
Qed.

Lemma ToUint16_round (q : Q) :
  ToUint16 (Math_round (Fin q)) = nearest q mod 2 ^ 16.
Proof.
  unfold ToUint16, Math_round, num_of_Z, ToIntegral.
  now rewrite truncate_inject_Z.
Qed.

(** [nearest] is rounding to the closest integer. *)
Lemma nearest_close (q : Q) : (Qabs (q - inject_Z (nearest q)) <= 1 # 2)%Q.
Proof.
  unfold nearest.
  pose proof (Qfloor_le (q + (1 # 2))) as Hlo.
  pose proof (Qlt_floor (q + (1 # 2))) as Hhi.
  rewrite inject_Z_plus in Hhi.
  change (inject_Z 1) with 1%Q in Hhi.
  apply Qabs_Qle_condition. split; lra.
Qed.

Lemma uint16_le_split (u : Z) : uint16_le (u mod 256) (u / 256) = u.
Proof.
  unfold uint16_le. pose proof (Z.div_mod u 256). lia.
Qed.

(** C4. Decoding the five bytes that [encodeMouseMove] produces for finite
    coordinates gives back a mouse move whose coordinates are the inputs
    rounded to the closest integer and reduced modulo 2^16. The decoder is
    the one the design document describes. *)
Theorem decode_encodeMouseMove (x y : Q) :
  decode (encodeMouseMove (Fin x) (Fin y))
  = inl (MouseMove (nearest x mod 2 ^ 16) (nearest y mod 2 ^ 16))
  /\ (Qabs (x - inject_Z (nearest x)) <= 1 # 2)%Q
  /\ (Qabs (y - inject_Z (nearest y)) <= 1 # 2)%Q.
Proof.
  split; [| split; apply nearest_close].
  unfold encodeMouseMove, createMessage, setUint16, setUint8, new_ArrayBuffer.
  rewrite !ToUint16_round.
  cbn [replicate insert list_insert Nat.pred].
  unfold decode.
  change (ToUint8 (num_of_Z OP_MOUSE_MOVE) =? 1) with true.
  cbn iota.
  now rewrite !uint16_le_split.
Qed.

(** The bytes on the wire for non-finite coordinates: zero. *)
Lemma encodeMouseMove_NaN :
  encodeMouseMove NaN PosInf = [1; 0; 0; 0; 0].
Proof. reflexivity. Qed.

Lemma startsWith_replace (s pat rep : jsstring) :
  startsWith s pat = true -> replace s pat rep = rep ++ drop (length pat) s.
Proof.
  intros H. destruct s; cbn [replace]; now rewrite H.
Qed.

Lemma jseqb_single (c d : Z) : jseqb [c] [d] = (c =? d).
Proof. simpl. apply andb_true_r. Qed.

Lemma replace_trailing_slash_strip (s : jsstring) :
  replace_trailing_slash s = strip_trailing_slash s.
Proof.
  unfold replace_trailing_slash, strip_trailing_slash, endsWith.
  change (js "/") with [47].
  destruct s as [|c s _] using rev_ind; [reflexivity|].
  rewrite rev_app_distr. simpl rev. simpl app. cbn iota.
  rewrite rev_involutive.
  rewrite length_app. simpl length.
  replace (length s + 1 - 1)%nat with (length s) by lia.
  rewrite drop_app_length, take_app_length, jseqb_single.
  replace (1 <=? length s + 1)%nat with true by (symmetry; apply Nat.leb_le; lia).
  reflexivity.
Qed.

(** C7. The address [buildWebSocketUrl] computes is the endpoint the
    document derives: one trailing slash stripped, [http://] mapped to
    [ws://] and [https://] to [wss://], [wss://] prefixed when the address
    has no scheme, and [/ws] appended exactly when it is not already the
    suffix. *)
Theorem buildWebSocketUrl_derive_endpoint (address : jsstring) :
  Client.buildWebSocketUrl address = derive_endpoint address.
Proof.
  unfold Client.buildWebSocketUrl, derive_endpoint.
  rewrite replace_trailing_slash_strip.
  set (a := strip_trailing_slash address).
  assert (Hmap :
    (if startsWith a (js "http://") then replace a (js "http://") (js "ws://")
     else if startsWith a (js "https://")
          then replace a (js "https://") (js "wss://")
          else if negb (startsWith a (js "ws://"))
                  && negb (startsWith a (js "wss://"))
               then js "wss://" ++ a else a) = map_scheme a).
  { unfold map_scheme, strip_prefix, has_scheme.
    destruct (startsWith a (js "http://")) eqn:H1.
    - now apply startsWith_replace.
    - destruct (startsWith a (js "https://")) eqn:H2.
      + now apply startsWith_replace.
      + cbn [existsb]. rewrite H1, H2.
        destruct (startsWith a (js "ws://")), (startsWith a (js "wss://"));
          reflexivity. }
  rewrite Hmap.
  now destruct (endsWith (map_scheme a) (js "/ws")).
Qed.

Lemma buildWebSocketUrl_examples :
  Client.buildWebSocketUrl (js "https://neko.example.com/") = js "wss://neko.example.com/ws"
  /\ Client.buildWebSocketUrl (js "http://10.0.0.2:8080") = js "ws://10.0.0.2:8080/ws"
  /\ Client.buildWebSocketUrl (js "neko.local/ws") = js "wss://neko.local/ws"
  /\ Client.buildWebSocketUrl (js "ws://h/ws/") = js "ws://h/ws".
Proof. repeat split; reflexivity. Qed.

Lemma Qeq_bool_inject_Z (a b : Z) : Qeq_bool (inject_Z a) (inject_Z b) = (a =? b).
Proof.
  destruct (Z.eqb_spec a b) as [-> | Hne].
  - now apply Qeq_bool_iff.
  - apply not_true_is_false. intros H. apply Qeq_bool_iff in H.
    unfold Qeq in H. simpl in H. lia.
Qed.

(** C9. On every integer button index [getMouseButton] is the five-entry
    table 0->1, 1->2, 2->3, 3->8, 4->9, and the left button, 1, outside
    it. *)
Theorem getMouseButton_table (button : Z) :
  getMouseButton (num_of_Z button)
  = default left_button (table_lookup button button_table)
  /\ button_table = [(0, 1); (1, 2); (2, 3); (3, 8); (4, 9)]
  /\ left_button = 1.
Proof.
  split; [| split; reflexivity].
  unfold getMouseButton, num_of_Z.
  change 0%Q with (inject_Z 0). change 1%Q with (inject_Z 1).
  change 2%Q with (inject_Z 2). change 3%Q with (inject_Z 3).
  change 4%Q with (inject_Z 4).
  rewrite !Qeq_bool_inject_Z. simpl.
  repeat match goal with |- context [?a =? ?b] => destruct (a =? b) end;
    reflexivity.
Qed.

(** Numbers that are not button indices get the left button too. *)
Lemma getMouseButton_other :
  getMouseButton NaN = 1 /\ getMouseButton (Fin (1 # 2)) = 1
  /\ getMouseButton (num_of_Z (-1)) = 1 /\ getMouseButton (num_of_Z 5) = 1.
Proof. repeat split; reflexivity. Qed.

Lemma get_undefined (k : jsstring) :
  get KEYSYM_MAP k = VUndef
  <-> assoc k KEYSYM_MAP = None
      /\ existsb (jseqb k) Object_prototype_names = false.
Proof.
  unfold get. destruct (assoc k KEYSYM_MAP).
  - split; [discriminate | intros [? _]; discriminate].
  - destruct (existsb (jseqb k) Object_prototype_names).
    + split; [discriminate | intros [_ ?]; discriminate].
    + split; auto.
Qed.

Lemma letter_cases (c : Z) :
  65 <= c <= 90 ->
  In c [65; 66; 67; 68; 69; 70; 71; 72; 73; 74; 75; 76; 77; 78; 79; 80; 81;
        82; 83; 84; 85; 86; 87; 88; 89; 90].
Proof.
  intros H. simpl.
  assert (c = 65 \/ c = 66 \/ c = 67 \/ c = 68 \/ c = 69 \/ c = 70 \/ c = 71
          \/ c = 72 \/ c = 73 \/ c = 74 \/ c = 75 \/ c = 76 \/ c = 77 \/ c = 78
          \/ c = 79 \/ c = 80 \/ c = 81 \/ c = 82 \/ c = 83 \/ c = 84 \/ c = 85
          \/ c = 86 \/ c = 87 \/ c = 88 \/ c = 89 \/ c = 90) by lia.
  intuition.
Qed.

(** C8. [getKeysym] gives the ASCII codes of [a] and [A] for [KeyA] without
    and with shift, and they differ; every letter key [KeyA]..[KeyZ] gives
    its lowercase code without shift and its uppercase code, 0x20 less,
    with shift; and a code for which the lookup [KEYSYM_MAP[code]] gives
    undefined falls back to the code unit of a [key] that is one code unit
    long, else to null. *)
Theorem getKeysym_spec :
  (forall k,
     getKeysym (key_event (js "KeyA") k false) = VNum (num_of_Z 0x61)
     /\ getKeysym (key_event (js "KeyA") k true) = VNum (num_of_Z 0x41)
     /\ getKeysym (key_event (js "KeyA") k false)
        <> getKeysym (key_event (js "KeyA") k true))
  /\ (forall c k, 65 <= c <= 90 ->
        getKeysym (key_event (letter_key c) k false) = VNum (num_of_Z (c + 0x20))
        /\ getKeysym (key_event (letter_key c) k true) = VNum (num_of_Z c))
  /\ (forall ev, get KEYSYM_MAP (code ev) = VUndef ->
        getKeysym ev = match key ev with
                       | [u] => VNum (num_of_Z u)
                       | _ => VNull
                       end).
Proof.
  split; [| split].
  - intros k. repeat split; try reflexivity. discriminate.
  - intros c k Hc. apply letter_cases in Hc. simpl in Hc.
    repeat (destruct Hc as [<- | Hc]; [repeat split; reflexivity |]).
    contradiction.
  - intros ev H. unfold getKeysym. now rewrite H.
Qed.

Lemma getKeysym_spec_witness :
  getKeysym (key_event (letter_key 81) (js "q") true) = VNum (num_of_Z 81)
  /\ getKeysym (key_event (js "IntlBackslash") (js "<") false) = VNum (num_of_Z 60)
  /\ getKeysym (key_event (js "NumpadEnter") (js "Enter") false) = VNull.
Proof.
  destruct getKeysym_spec as (_ & Hletter & Hfallback).
  split; [| split].
  - exact (proj2 (Hletter 81 (js "q") ltac:(lia))).
  - exact (Hfallback (key_event (js "IntlBackslash") (js "<") false) eq_refl).
  - exact (Hfallback (key_event (js "NumpadEnter") (js "Enter") false) eq_refl).
Defined.

(** A key the table does not have, whose text is the single character
    U+1F600, gets null and not the code point: the text is two UTF-16 code
    units long. And for a code that names a property every object inherits,
    the lookup gives that property, not the code point of the key text. *)
Lemma single_character_without_code_point :
  assoc (js "Unidentified") KEYSYM_MAP = None
  /\ code_points [0xD83D; 0xDE00] = [0x1F600]
  /\ getKeysym (key_event (js "Unidentified") [0xD83D; 0xDE00] false) = VNull
  /\ assoc (js "toString") KEYSYM_MAP = None
  /\ code_points (js "a") = [0x61]
  /\ getKeysym (key_event (js "toString") (js "a") false) = VObj.
Proof. repeat split; reflexivity. Qed.

End ProtocolProofs.

(** ** Properties of [client.ts] *)

Module ClientProofs.
Import JS Protocol Client Design Invariants.

Arguments buildWebSocketUrl : simpl never.

(** *** What each method does to [state] *)

Lemma state_cleanup w : state (cleanup w) = state w.
Proof.
  unfold cleanup, cleanup_ws, cleanup_pc, cleanup_dataChannel.
  destruct (dataChannel w); cbn; destruct (pc w); cbn; destruct (ws w);
    reflexivity.
Qed.

Lemma state_send m w : state (send m w) = state w.
Proof.
  unfold send. destruct (ws w); [destruct (ws_open w) |]; reflexivity.
Qed.

Lemma state_sendBinary d w : state (sendBinary d w) = state w.
Proof.
  unfold sendBinary. destruct (dataChannel w); [destruct (dc_open w) |]; reflexivity.
Qed.

Lemma state_resolve i w : state (resolve i w) = state w.
Proof.
  unfold resolve. destruct (sockets w !! i) as [a|]; [destruct (a_promise a) |];
    reflexivity.
Qed.

Lemma state_reject i m w :
  state (reject i m w) = state w
  \/ state (reject i m w) = set_error (Some m) (set_connecting false (state w)).
Proof.
  unfold reject. destruct (sockets w !! i) as [a|]; [| now left].
  destruct (a_promise a); try now left.
  destruct (a_caller a); [right | left]; reflexivity.
Qed.

Lemma state_establishConnection who w :
  state (fst (establishConnection who w)) = state w.
Proof.
  unfold establishConnection. destruct (config w) as [cfg|]; [| reflexivity].
  destruct (throws w (buildWebSocketUrl (url cfg))); reflexivity.
Qed.

Lemma throws_cleanup w : throws (cleanup w) = throws w.
Proof.
  unfold cleanup, cleanup_ws, cleanup_pc, cleanup_dataChannel.
  destruct (dataChannel w); cbn; destruct (pc w); cbn; destruct (ws w);
    reflexivity.
Qed.

Lemma throws_disconnect w : throws (disconnect w) = throws w.
Proof. unfold disconnect. cbn. now rewrite throws_cleanup. Qed.

(** *** Calls of [connect] and turns *)

(** The world [connect] leaves to [establishConnection]. *)
Lemma connect_body_inv cfg w :
  exists s,
    connect_body cfg w
    = (fst (establishConnection ByConnect
              (set_reconnectAttempts 0
                 (upd_state (set_error None)
                    (upd_state (set_connecting true) (set_config (Some cfg) w))))),
       s)
    /\ s = match throws w (buildWebSocketUrl (url cfg)) with
           | Some message => Some (AwaitRejected message)
           | None => None
           end.
Proof.
  unfold connect_body, establishConnection. cbn.
  destruct (throws w (buildWebSocketUrl (url cfg))); eexists; split; reflexivity.
Qed.

Lemma connect_body_suspends cfg w :
  snd (connect_body cfg w)
  = match throws w (buildWebSocketUrl (url cfg)) with
    | Some message => Some (AwaitRejected message)
    | None => None
    end.
Proof. destruct (connect_body_inv cfg w) as (s & -> & ->). reflexivity. Qed.

Lemma state_connect_body cfg w :
  state (fst (connect_body cfg w))
  = set_error None (set_connecting true (state w)).
Proof.
  destruct (connect_body_inv cfg w) as (s & -> & _). cbn [fst].
  now rewrite state_establishConnection.
Qed.

Lemma state_connect_catch m w :
  state (connect_catch m w) = set_error (Some m) (set_connecting false (state w)).
Proof. reflexivity. Qed.

Lemma state_connect_resume s w :
  state (fst (connect_resume s w))
  = match s with
    | AwaitDisconnect _ => set_error None (set_connecting true (state w))
    | AwaitRejected m => set_error (Some m) (set_connecting false (state w))
    end.
Proof. destruct s; [apply state_connect_body | reflexivity]. Qed.

Lemma connect_resume_again s w :
  forall s', snd (connect_resume s w) = Some s' -> at_disconnect s' = false.
Proof.
  destruct s as [cfg | m]; cbn [connect_resume snd]; [| discriminate].
  rewrite connect_body_suspends.
  destruct (throws w _); intros s' [= <-]. reflexivity.
Qed.

Lemma state_disconnect w : state (disconnect w) = defaultState.
Proof. reflexivity. Qed.

Lemma state_handleDisconnect r w :
  state (handleDisconnect r w)
  = set_controlling false (set_connecting false (set_connected false (state w))).
Proof.
  unfold handleDisconnect.
  repeat match goal with
         | |- context [if ?b then _ else _] => destruct b
         end; cbn; rewrite ?state_cleanup; reflexivity.
Qed.


Lemma state_handleMessage m w :
  state (handleMessage m w)
  = match m with
    | ScreenResolution wd ht => set_video wd ht (state w)
    | ControlGive => set_controlling true (state w)
    | ControlRelease => set_controlling false (state w)
    | _ => state w
    end.
Proof.
  destruct m; try reflexivity.
  unfold handleMessage, handleSignalCandidate.
  destruct (pc w); [destruct candidate |]; reflexivity.
Qed.

Lemma state_ws_onmessage i m w :
  state (ws_onmessage i m w)
  = match m with
    | Some m => state (handleMessage m w)
    | None => state w
    end.
Proof. destruct m as [[]|]; reflexivity. Qed.

Lemma state_ws_onopen w : state (ws_onopen w) = state w.
Proof.
  unfold ws_onopen. destruct (config w) as [cfg|]; [| reflexivity].
  destruct (nonempty (password cfg)); [apply state_send | reflexivity].
Qed.

Lemma state_pc_onconnectionstatechange w :
  state (pc_onconnectionstatechange w) = state w
  \/ state (pc_onconnectionstatechange w)
     = set_connecting false (set_connected true (state w))
  \/ state (pc_onconnectionstatechange w)
     = set_controlling false (set_connecting false (set_connected false (state w))).
Proof.
  unfold pc_onconnectionstatechange.
  destruct (pc w) as [p|]; [| now left].
  destruct (peers w !! p) as [[]|]; try now left.
  - right; left; reflexivity.
  - right; right; apply state_handleDisconnect.
  - right; right; apply state_handleDisconnect.
Qed.

Lemma state_resume n k ok w : state (resume n k ok w) = state w.
Proof.
  unfold resume. destruct ok; cbn; [| reflexivity].
  destruct (k_stage k); try reflexivity.
  - destruct (pc w); reflexivity.
  - destruct (pc w); reflexivity.
  - cbn. rewrite state_resolve. apply state_send.
Qed.

Lemma state_input c w : is_input c = true -> state (call c w) = state w.
Proof.
  destruct c; try discriminate; intros _; cbn;
    unfold sendMouseMove, sendMouseScroll, sendMouseButton, sendKeyEvent;
    destruct (controlling (state w)); cbn; try reflexivity;
    try apply state_sendBinary.
  destruct (getKeysym event); try reflexivity; apply state_sendBinary.
Qed.

Lemma state_call c w :
  is_connect_call c = false ->
  state (call c w) = state w \/ state (call c w) = defaultState
  \/ state (call c w) = set_controlling false (state w).
Proof.
  destruct c; try discriminate; intros _;
    try (left; apply state_input; reflexivity); cbn [call].
  - right; left; reflexivity.
  - left. apply state_send.
  - right; right. unfold releaseControl, upd_state. cbn [state set_state].
    now rewrite state_send.
Qed.

Lemma existsb_delete {A} (f : A -> bool) (n : nat) (l : list A) :
  existsb f (delete n l) = true -> existsb f l = true.
Proof.
  revert n. induction l as [| x l IH]; intros [| n]; cbn; try congruence.
  - intros ->. apply orb_true_r.
  - destruct (f x); [reflexivity |]. apply IH.
Qed.

Lemma existsb_lookup {A} (f : A -> bool) (n : nat) (l : list A) (x : A) :
  l !! n = Some x -> f x = true -> existsb f l = true.
Proof.
  revert n. induction l as [| y l IH]; intros [| n]; cbn; try discriminate.
  - now intros [= ->] ->.
  - intros H Hx. rewrite (IH n H Hx). apply orb_true_r.
Qed.

Lemma at_disconnect_again s w q :
  existsb at_disconnect (q ++ option_list (snd (connect_resume s w))) = true ->
  existsb at_disconnect q = true.
Proof.
  rewrite existsb_app. pose proof (connect_resume_again s w) as H.
  destruct (snd (connect_resume s w)) as [s'|]; cbn.
  - rewrite (H s' eq_refl). cbn. now rewrite !orb_false_r.
  - now rewrite orb_false_r.
Qed.

Section Turns.

(** What is kept by the calls other than [connect], by the body of
    [connect] when it runs in a client that is not connected, and by its
    [catch] block, is kept by every turn: the body runs at once only when
    the client is neither connecting nor connected, and later only after
    [disconnect]. *)
Variable P : World -> Prop.
Hypothesis P_call :
  forall c w, is_connect_call c = false -> P w -> P (call c w).
Hypothesis P_body :
  forall cfg w, connected (state w) = false -> P w -> P (fst (connect_body cfg w)).
Hypothesis P_catch : forall m w, P w -> P (connect_catch m w).

Lemma connect_resume_keeps s w q :
  P w -> (existsb at_disconnect q = true -> connected (state w) = false) ->
  (at_disconnect s = true -> existsb at_disconnect q = true) ->
  P (fst (connect_resume s w))
  /\ connected (state (fst (connect_resume s w))) = connected (state w).
Proof.
  intros HP Hq Hs. split.
  - destruct s as [cfg | m]; cbn [connect_resume fst]; [| now apply P_catch].
    apply P_body; [| exact HP]. apply Hq, Hs. reflexivity.
  - rewrite state_connect_resume. destruct s; reflexivity.
Qed.

Lemma resume_all_keeps q : forall w,
  P w -> (existsb at_disconnect q = true -> connected (state w) = false) ->
  P (fst (resume_all q w))
  /\ existsb at_disconnect (snd (resume_all q w)) = false.
Proof.
  induction q as [| s q IH]; intros w HP Hq; [now split |].
  cbn [resume_all].
  destruct (connect_resume_keeps s w (s :: q) HP Hq) as [HP1 Hc].
  { cbn. now intros ->. }
  pose proof (connect_resume_again s w) as Hs.
  destruct (connect_resume s w) as [w1 again]. cbn [fst snd] in *.
  destruct (IH w1 HP1) as [HP2 Hq2].
  { intros H. rewrite Hc. apply Hq. cbn. rewrite H. apply orb_true_r. }
  destruct (resume_all q w1) as [w2 rest]. cbn [fst snd] in *.
  split; [exact HP2 |]. rewrite existsb_app, Hq2, orb_false_r.
  destruct again as [s'|]; [| reflexivity]. cbn. now rewrite (Hs s' eq_refl).
Qed.

Lemma checkpoint_keeps q w :
  P w -> (existsb at_disconnect q = true -> connected (state w) = false) ->
  P (checkpoint q w).
Proof.
  intros HP Hq. unfold checkpoint.
  destruct (resume_all_keeps q w HP Hq) as [HP1 Hq1].
  destruct (resume_all q w) as [w1 again]. cbn [fst snd] in *.
  apply resume_all_keeps; [exact HP1 | congruence].
Qed.

Lemma do_job_keeps j w q :
  P w -> (existsb at_disconnect q = true -> connected (state w) = false) ->
  P (fst (do_job (w, q) j))
  /\ (existsb at_disconnect (snd (do_job (w, q) j)) = true ->
      connected (state (fst (do_job (w, q) j))) = false).
Proof.
  intros HP Hq.
  assert (Hcall : forall c, is_connect_call c = false ->
            P (call c w)
            /\ (existsb at_disconnect q = true ->
                connected (state (call c w)) = false)).
  { intros c Hc. split; [now apply P_call |]. intros H.
    destruct (state_call c w Hc) as [-> | [-> | ->]]; cbn; auto. }
  destruct j as [c | n]; cbn [do_job].
  - destruct c; try (apply Hcall; reflexivity).
    unfold connect.
    destruct (connecting (state w) || connected (state w)) eqn:Hbusy; cbn [fst snd].
    + split; [now apply (P_call Disconnect) | reflexivity].
    + apply orb_false_iff in Hbusy as [_ Hc].
      pose proof (connect_resume_keeps (AwaitDisconnect cfg) w
                    [AwaitDisconnect cfg] HP (fun _ => Hc) (fun _ => eq_refl))
        as [HP1 Hc1].
      pose proof (at_disconnect_again (AwaitDisconnect cfg) w q) as Hs.
      cbn [connect_resume] in *.
      destruct (connect_body cfg w) as [w1 s]. cbn [fst snd] in *.
      split; [exact HP1 | congruence].
  - destruct (q !! n) as [s|] eqn:Hn; cbn [fst snd]; [| now split].
    destruct (connect_resume_keeps s w q HP Hq) as [HP1 Hc1].
    { intros Hs. exact (existsb_lookup _ _ _ _ Hn Hs). }
    pose proof (at_disconnect_again s w (delete n q)) as Hs.
    destruct (connect_resume s w) as [w1 again]. cbn [fst snd] in *.
    split; [exact HP1 |]. intros H. rewrite Hc1. apply Hq.
    eapply existsb_delete, Hs, H.
Qed.

Lemma jobs_keep jobs : forall w q,
  P w -> (existsb at_disconnect q = true -> connected (state w) = false) ->
  P (fst (fold_left do_job jobs (w, q)))
  /\ (existsb at_disconnect (snd (fold_left do_job jobs (w, q))) = true ->
      connected (state (fst (fold_left do_job jobs (w, q)))) = false).
Proof.
  induction jobs as [| j jobs IH]; intros w q HP Hq; [now split |].
  cbn [fold_left]. destruct (do_job_keeps j w q HP Hq) as [HP1 Hq1].
  destruct (do_job (w, q) j) as [w1 q1]. now apply IH.
Qed.

Lemma turn_keeps jobs w : P w -> P (turn jobs w).
Proof.
  intros HP. unfold turn.
  destruct (jobs_keep jobs w [] HP) as [HP1 Hq1]; [discriminate |].
  destruct (fold_left do_job jobs (w, [])) as [w1 q1].
  now apply checkpoint_keeps.
Qed.

End Turns.

(** A turn in which [connect] is not called is its calls, one after the
    other. *)
Lemma turn_calls (P : World -> Prop) (jobs : list Job) :
  existsb does_connect jobs = false ->
  (forall c w, is_connect_call c = false -> P w -> P (call c w)) ->
  forall w, P w -> P (turn jobs w).
Proof.
  intros Hjobs Hcall. unfold turn.
  induction jobs as [| j jobs IH]; intros w HP; [exact HP |].
  cbn in Hjobs. apply orb_false_iff in Hjobs as [Hj Hjobs].
  cbn [fold_left].
  assert (exists w1, do_job (w, []) j = (w1, []) /\ P w1) as (w1 & -> & HP1).
  { destruct j as [c | n]; cbn [do_job].
    - destruct c; try discriminate; eexists; split; try reflexivity;
        now apply Hcall.
    - exists w. now split. }
  now apply IH.
Qed.

(** The checkpoint leaves no call suspended: what its first pass suspends
    again is at a [catch] block, and the second pass ends those. *)
Lemma resume_all_again q : forall w,
  existsb at_disconnect (snd (resume_all q w)) = false.
Proof.
  induction q as [| s q IH]; intros w; [reflexivity |].
  cbn [resume_all]. pose proof (connect_resume_again s w) as Hs.
  destruct (connect_resume s w) as [w1 again]. cbn [snd] in Hs.
  specialize (IH w1). destruct (resume_all q w1) as [w2 rest].
  cbn [snd] in *. rewrite existsb_app, IH, orb_false_r.
  destruct again as [s'|]; [| reflexivity]. cbn. now rewrite (Hs s' eq_refl).
Qed.

Lemma resume_all_catch q : forall w,
  existsb at_disconnect q = false -> snd (resume_all q w) = [].
Proof.
  induction q as [| s q IH]; intros w Hq; [reflexivity |].
  cbn in Hq. apply orb_false_iff in Hq as [Hs Hq].
  destruct s as [cfg | m]; [discriminate |].
  cbn [resume_all connect_resume]. specialize (IH (connect_catch m w) Hq).
  destruct (resume_all q (connect_catch m w)) as [w2 rest].
  cbn [snd] in IH. now subst rest.
Qed.

Lemma checkpoint_complete q w :
  snd (resume_all (snd (resume_all q w)) (fst (resume_all q w))) = [].
Proof. apply resume_all_catch, resume_all_again. Qed.

(** A call that is alone in its turn. *)
Lemma call_turn c w : turn [Do c] w = call c w.
Proof.
  unfold turn. destruct c; try reflexivity.
  cbn. now destruct (connect cfg w).
Qed.

Lemma establishConnection_throws who w cfg m :
  config w = Some cfg -> throws w (buildWebSocketUrl (url cfg)) = Some m ->
  establishConnection who w = (w, Some m).
Proof. intros Hc Ht. unfold establishConnection. now rewrite Hc, Ht. Qed.

Lemma establishConnection_opens who w cfg :
  config w = Some cfg -> throws w (buildWebSocketUrl (url cfg)) = None ->
  snd (establishConnection who w) = None
  /\ sockets (fst (establishConnection who w))
     = sockets w ++ [mkAttempt (buildWebSocketUrl (url cfg)) CONNECTING Pending who]
  /\ ws (fst (establishConnection who w)) = Some (length (sockets w))
  /\ timers (fst (establishConnection who w))
     = timers w ++ [mkTimer (ConnectTimeout (length (sockets w))) 10000 false]
  /\ trace (fst (establishConnection who w))
     = trace w ++ [NewWebSocket (length (sockets w)) (buildWebSocketUrl (url cfg));
                   SetTimeout (length (timers w)) 10000].
Proof.
  intros Hc Ht. unfold establishConnection. rewrite Hc, Ht. cbn.
  repeat split. now rewrite <- app_assoc.
Qed.

Lemma body_alone cfg w :
  (let (w', s) := connect_body cfg w in checkpoint (option_list s) w')
  = match throws w (buildWebSocketUrl (url cfg)) with
    | None =>
        fst (establishConnection ByConnect
               (set_reconnectAttempts 0
                  (upd_state (set_error None)
                     (upd_state (set_connecting true) (set_config (Some cfg) w)))))
    | Some m =>
        connect_catch m
          (set_reconnectAttempts 0
             (upd_state (set_error None)
                (upd_state (set_connecting true) (set_config (Some cfg) w))))
    end.
Proof.
  destruct (connect_body_inv cfg w) as (s & -> & ->).
  destruct (throws w (buildWebSocketUrl (url cfg))) as [m|] eqn:Ht;
    [| reflexivity].
  unfold checkpoint. cbn [option_list resume_all connect_resume fst app].
  erewrite establishConnection_throws; [reflexivity | reflexivity | exact Ht].
Qed.

Lemma checkpoint_disconnect cfg w :
  checkpoint [AwaitDisconnect cfg] w
  = let (w', s) := connect_body cfg w in checkpoint (option_list s) w'.
Proof.
  unfold checkpoint at 1. cbn [resume_all connect_resume].
  pose proof (connect_body_suspends cfg w) as Hs.
  destruct (connect_body cfg w) as [w1 s]. cbn [snd] in Hs. subst s.
  destruct (throws w (buildWebSocketUrl (url cfg))); reflexivity.
Qed.

(** A [connect] call alone in its turn: [disconnect] first while connecting
    or connected, then the config and the flags, then the socket, or the
    [catch] block at once when the constructor throws. *)
Lemma call_connect cfg w :
  call (Connect cfg) w
  = match throws w (buildWebSocketUrl (url cfg)) with
    | None =>
        fst (establishConnection ByConnect
               (set_reconnectAttempts 0
                  (upd_state (set_error None)
                     (upd_state (set_connecting true)
                        (set_config (Some cfg)
                           (if connecting (state w) || connected (state w)
                            then disconnect w else w))))))
    | Some m =>
        connect_catch m
          (set_reconnectAttempts 0
             (upd_state (set_error None)
                (upd_state (set_connecting true)
                   (set_config (Some cfg)
                      (if connecting (state w) || connected (state w)
                       then disconnect w else w)))))
    end.
Proof.
  cbn [call]. unfold connect.
  destruct (connecting (state w) || connected (state w)).
  - cbn [option_list]. rewrite checkpoint_disconnect, body_alone.
    now rewrite throws_disconnect.
  - apply body_alone.
Qed.

(** *** The session invariant *)

Ltac by_fields :=
  unfold ok_change;
  repeat match goal with
         | H : state _ = _ |- _ => rewrite H; clear H
         end;
  match goal with
  | |- context [state ?w] =>
      destruct (state w) as [[] [] [] ? ? ?]; cbn; intuition congruence
  end.

Lemma ok_change_refl b s : ok_change b s s.
Proof. unfold ok_change. intuition congruence. Qed.

Lemma ok_change_reject i m w : ok_change false (state w) (state (reject i m w)).
Proof. destruct (state_reject i m w) as [H | H]; by_fields. Qed.

Lemma ok_change_call c w :
  is_connect_call c = false -> ok_change false (state w) (state (call c w)).
Proof.
  intros Hc. destruct (state_call c w Hc) as [H | [H | H]]; by_fields.
Qed.

Lemma ok_change_turn jobs w :
  ok_change (existsb does_connect jobs) (state w) (state (turn jobs w)).
Proof.
  split; [| split].
  - apply (turn_keeps (fun w => connecting (state w) && connected (state w) = false)).
    + intros c v Hc. apply (ok_change_call c v Hc).
    + intros cfg v Hv _. rewrite state_connect_body. cbn. now rewrite Hv.
    + reflexivity.
  - intros Hw.
    apply (turn_keeps (fun v => connected (state v) = false ->
                                controlling (state v) = false));
      [| | | congruence].
    + intros c v Hc Hv. destruct (state_call c v Hc) as [-> | [-> | ->]]; auto.
    + intros cfg v _ Hv. rewrite state_connect_body. exact Hv.
    + intros m v Hv. exact Hv.
  - intros Hjobs Hw.
    apply (turn_calls (fun v => connecting (state v) = false) jobs Hjobs);
      [| exact Hw].
    intros c v Hc. apply (ok_change_call c v Hc); reflexivity.
Qed.

Lemma ok_change_step w e : ok_change (is_connect e) (state w) (state (step w e)).
Proof.
  destruct e as [c | jobs | i | i m | i | i r | t | n ok | p s | p | p | d | d];
    cbn [step is_connect].
  - destruct (is_connect_call c) eqn:Hc; [| now apply ok_change_call].
    rewrite <- call_turn.
    replace true with (existsb does_connect [Do c]) by (cbn; now rewrite Hc).
    apply ok_change_turn.
  - apply ok_change_turn.
  - destruct (sockets w !! i) as [a|]; [| apply ok_change_refl].
    destruct (a_ready a); try apply ok_change_refl.
    rewrite state_ws_onopen. apply ok_change_refl.
  - destruct (sockets w !! i) as [a|]; [| apply ok_change_refl].
    destruct (is_open (a_ready a)); [| apply ok_change_refl].
    rewrite state_ws_onmessage. destruct m as [m|]; [| apply ok_change_refl].
    rewrite state_handleMessage. destruct m; by_fields.
  - destruct (sockets w !! i) as [a|]; [| apply ok_change_refl].
    destruct (is_closed (a_ready a)); [apply ok_change_refl |].
    unfold ws_onerror.
    match goal with |- context [reject i ?m ?w'] =>
      destruct (state_reject i m w') as [H | H]; rewrite H end; cbn; by_fields.
  - destruct (sockets w !! i) as [a|]; [| apply ok_change_refl].
    destruct (is_closed (a_ready a)); [apply ok_change_refl |].
    unfold ws_onclose. rewrite state_handleDisconnect. cbn. by_fields.
  - destruct (timers w !! t) as [tm|]; [| apply ok_change_refl].
    destruct (t_fired tm); [apply ok_change_refl |].
    destruct (t_kind tm) as [i|].
    + unfold connect_timeout. cbn.
      destruct (connecting (state w) && negb (connected (state w)));
        [| apply ok_change_refl].
      match goal with |- context [reject i ?m ?w'] =>
        destruct (state_reject i m w') as [H | H]; rewrite H end; cbn; by_fields.
    + unfold reconnect_timeout. rewrite state_establishConnection.
      apply ok_change_refl.
  - destruct (tasks w !! n) as [k|]; [| apply ok_change_refl].
    rewrite state_resume. apply ok_change_refl.
  - destruct (peers w !! p) as [old|]; [| apply ok_change_refl].
    destruct (pc_alive old && pc_alive s); [| apply ok_change_refl].
    match goal with |- context [pc_onconnectionstatechange ?w'] =>
      destruct (state_pc_onconnectionstatechange w') as [H | [H | H]];
      rewrite H end; cbn; by_fields.
  - destruct (peers w !! p) as [s|]; [| apply ok_change_refl].
    destruct (pc_alive s); [| apply ok_change_refl].
    unfold pc_onicecandidate. rewrite state_send. apply ok_change_refl.
  - destruct (peers w !! p) as [s|]; [| apply ok_change_refl].
    destruct (pc_alive s); apply ok_change_refl.
  - destruct (channels w !! d) as [[]|]; apply ok_change_refl.
  - destruct (channels w !! d) as [r|]; apply ok_change_refl.
Qed.

Lemma run_snoc w es e : run w (es ++ [e]) = step (run w es) e.
Proof. unfold run. now rewrite fold_left_app. Qed.

Lemma never_connecting_and_connected browser es :
  connecting (state (run (new_client browser) es))
  && connected (state (run (new_client browser) es)) = false.
Proof.
  induction es as [| e es IH] using rev_ind; [reflexivity |].
  rewrite run_snoc. now apply (ok_change_step (run (new_client browser) es) e).
Qed.

(** C1. Reachable states never have [connecting] and [connected] both
    true, and every step that clears [connected] clears [controlling] with
    it; but [controlling] does not wait for [connected]: a [control/give]
    arriving on the open socket sets it whatever [connected] is. *)
Theorem session_invariant :
  (forall browser es,
     connecting (state (run (new_client browser) es))
     && connected (state (run (new_client browser) es)) = false)
  /\ (forall w e,
        connected (state w) = true -> connected (state (step w e)) = false ->
        controlling (state (step w e)) = false)
  /\ (forall w i a,
        sockets w !! i = Some a -> is_open (a_ready a) = true ->
        controlling (state (step w (WsMessage i (Some ControlGive)))) = true
        /\ connected (state (step w (WsMessage i (Some ControlGive))))
           = connected (state w)).
Proof.
  split; [exact never_connecting_and_connected | split].
  - intros w e. apply (ok_change_step w e).
  - intros w i a Hi Ha. cbn [step]. rewrite Hi, Ha. split; reflexivity.
Qed.

Lemma session_invariant_witness :
  controlling (state (step in_control (Api Disconnect))) = false
  /\ controlling (state (step awaiting_offer (WsMessage 0%nat (Some ControlGive)))) = true.
Proof.
  destruct session_invariant as (_ & Hclear & Hgive). split.
  - apply Hclear; reflexivity.
  - apply (Hgive awaiting_offer 0%nat (mkAttempt (buildWebSocketUrl (url cfg0)) OPEN Pending ByConnect));
      reflexivity.
Defined.

(** The invariant as the document states it fails: after [connect], with
    the socket open, a [control/give] makes [controlling] true while
    [connected] is false. *)
Lemma controlling_without_connected :
  reachable early_grant
  /\ controlling (state early_grant) = true
  /\ connected (state early_grant) = false.
Proof.
  split; [| split; reflexivity].
  now exists (fun _ => None),
    [Api (Connect cfg0); WsOpen 0%nat; WsMessage 0%nat (Some ControlGive)].
Qed.

(** *** [disconnect] and [releaseControl] *)

Lemma trace_cleanup w : trace (cleanup w) = trace w ++ closes w.
Proof.
  unfold cleanup, cleanup_ws, cleanup_pc, cleanup_dataChannel, closes.
  destruct (dataChannel w); cbn; destruct (pc w); cbn; destruct (ws w); cbn;
    rewrite <- ?app_assoc, ?app_nil_r; reflexivity.
Qed.

Lemma effects_since_app w w' l :
  trace w' = trace w ++ l -> effects_since w w' = l.
Proof. unfold effects_since. intros ->. apply drop_app_length. Qed.

Lemma closes_not_events w : count is_OnDisconnected (closes w) = 0%nat.
Proof.
  unfold closes. destruct (dataChannel w), (pc w), (ws w); reflexivity.
Qed.

Lemma cleanup_idle w :
  dataChannel w = None -> pc w = None -> ws w = None -> cleanup w = w.
Proof.
  intros Hd Hp Hw.
  unfold cleanup, cleanup_ws, cleanup_pc, cleanup_dataChannel.
  rewrite Hd. cbn. rewrite Hp. cbn. now rewrite Hw.
Qed.

Lemma cleanup_releases w :
  dataChannel (cleanup w) = None /\ pc (cleanup w) = None /\ ws (cleanup w) = None.
Proof.
  unfold cleanup, cleanup_ws, cleanup_pc, cleanup_dataChannel.
  destruct (dataChannel w) eqn:Hd; cbn; destruct (pc w) eqn:Hp; cbn;
    destruct (ws w) eqn:Hw; cbn; auto.
Qed.

Lemma config_cleanup w : config (cleanup w) = config w.
Proof.
  unfold cleanup, cleanup_ws, cleanup_pc, cleanup_dataChannel.
  destruct (dataChannel w); cbn; destruct (pc w); cbn; destruct (ws w);
    reflexivity.
Qed.

(** C2. [disconnect] is idempotent, calls [close()] on the data channel,
    the peer connection and the socket it holds, in that order, and leaves
    the default state; it invokes no [onDisconnected] callback, connected
    or not. *)
Theorem disconnect_spec (w : World) :
  disconnect (disconnect w) = disconnect w
  /\ effects_since w (disconnect w) = closes w
  /\ state (disconnect w) = mkState false false false 1280 720 None
  /\ count is_OnDisconnected (effects_since w (disconnect w)) = 0%nat.
Proof.
  assert (Heff : effects_since w (disconnect w) = closes w).
  { apply effects_since_app. unfold disconnect. cbn [trace set_state].
    now rewrite trace_cleanup. }
  split; [| split; [exact Heff | split; [reflexivity |]]].
  - unfold disconnect at 2 3.
    destruct (cleanup_releases (set_config None w)) as (Hd & Hp & Hw).
    pose proof (config_cleanup (set_config None w)) as Hc.
    destruct (cleanup (set_config None w)); cbn in Hd, Hp, Hw, Hc; subst.
    unfold disconnect. now rewrite cleanup_idle.
  - rewrite Heff. apply closes_not_events.
Qed.

(** Called on a session that is connected and in control, [disconnect]
    invokes no [onDisconnected] callback, and none follows when the socket
    reports its close. *)
Lemma disconnect_emits_no_event :
  connected (state in_control) = true
  /\ controlling (state in_control) = true
  /\ count is_OnDisconnected (effects_since in_control (disconnect in_control)) = 0%nat
  /\ count is_OnDisconnected
       (trace (run in_control [Api Disconnect; WsClose 0%nat []; TimerFire 0%nat])) = 0%nat.
Proof. repeat split; reflexivity. Qed.

(** C3. [releaseControl] sends [control/release] when the socket is open
    (and nothing when it is not), clears [controlling] at once, and invokes
    no callback. *)
Theorem releaseControl_spec (w : World) :
  state (releaseControl w) = set_controlling false (state w)
  /\ effects_since w (releaseControl w)
     = match ws w with
       | Some i => if ws_open w then [WsSend i OutControlRelease] else []
       | None => []
       end
  /\ count is_OnControlReleased (effects_since w (releaseControl w)) = 0%nat.
Proof.
  assert (Heff : effects_since w (releaseControl w)
     = match ws w with
       | Some i => if ws_open w then [WsSend i OutControlRelease] else []
       | None => []
       end).
  { apply effects_since_app. unfold releaseControl, upd_state, send.
    cbn [trace set_state].
    destruct (ws w); [destruct (ws_open w) |]; cbn; now rewrite ?app_nil_r. }
  split; [| split; [exact Heff |]].
  - unfold releaseControl, upd_state. cbn [state set_state].
    now rewrite state_send.
  - rewrite Heff. destruct (ws w); [destruct (ws_open w) |]; reflexivity.
Qed.

(** In control of a connected session, [releaseControl] sends the message
    and invokes no [onControlReleased]; on a new client it does not send
    either. *)
Lemma releaseControl_emits_no_event :
  controlling (state in_control) = true
  /\ effects_since in_control (releaseControl in_control) = [WsSend 0%nat OutControlRelease]
  /\ count is_OnControlReleased (effects_since in_control (releaseControl in_control)) = 0%nat
  /\ effects_since init (releaseControl init) = [].
Proof. repeat split; reflexivity. Qed.

(** *** Input forwarding *)

Lemma sendBinary_closed data w : dc_open w = false -> sendBinary data w = w.
Proof.
  intros H. unfold sendBinary. rewrite H. now destruct (dataChannel w).
Qed.

(** C6. An input call changes nothing at all (state, channel, trace) when
    [controlling] is false, and nothing either when [controlling] is true
    and the data channel is missing or not open. *)
Theorem input_dropped (w : World) (c : Call) :
  is_input c = true ->
  controlling (state w) = false \/ dc_open w = false ->
  step w (Api c) = w.
Proof.
  intros Hc H. cbn [step].
  destruct c; try discriminate; cbn [call];
    unfold sendMouseMove, sendMouseScroll, sendMouseButton, sendKeyEvent;
    destruct (controlling (state w)) eqn:Hctl; cbn [negb]; try reflexivity;
    (destruct H as [H | H]; [discriminate |]);
    try (now apply sendBinary_closed).
  destruct (getKeysym event); try reflexivity; now apply sendBinary_closed.
Qed.

Lemma input_dropped_witness :
  step init (Api (SendMouseMove (Fin 10) (Fin 20))) = init
  /\ controlling (state early_grant) = true
  /\ step early_grant (Api (SendKeyEvent (key_event (js "KeyA") (js "a") false) true))
     = early_grant.
Proof.
  split; [| split].
  - apply input_dropped; [reflexivity | left; reflexivity].
  - reflexivity.
  - apply input_dropped; [reflexivity | right; reflexivity].
Defined.

(** *** Automatic reconnection *)

Ltac cleanup_cases w :=
  unfold cleanup, cleanup_ws, cleanup_pc, cleanup_dataChannel;
  destruct (dataChannel w); cbn; destruct (pc w); cbn; destruct (ws w); cbn.

Lemma timers_cleanup w : timers (cleanup w) = timers w.
Proof. cleanup_cases w; reflexivity. Qed.

Lemma reconnectAttempts_cleanup w :
  reconnectAttempts (cleanup w) = reconnectAttempts w.
Proof. cleanup_cases w; reflexivity. Qed.

Lemma tasks_cleanup w : tasks (cleanup w) = tasks w.
Proof. cleanup_cases w; reflexivity. Qed.

Lemma sockets_cleanup w :
  sockets (cleanup w)
  = match ws w with
    | Some j => alter close_socket j (sockets w)
    | None => sockets w
    end.
Proof. cleanup_cases w; reflexivity. Qed.










Lemma handleDisconnect_fields r w :
  config (handleDisconnect r w) = config w
  /\ length (sockets (handleDisconnect r w)) = length (sockets w)
  /\ if retries w then
       reconnectAttempts (handleDisconnect r w) = reconnectAttempts w + 1
       /\ timers (handleDisconnect r w)
          = timers w ++ [mkTimer Reconnect (2000 * (reconnectAttempts w + 1)) false]
     else
       reconnectAttempts (handleDisconnect r w) = reconnectAttempts w
       /\ timers (handleDisconnect r w) = timers w.
Proof.
  unfold handleDisconnect. cbv zeta.
  set (w1 := cleanup _).
  assert (H1 : config w1 = config w /\ reconnectAttempts w1 = reconnectAttempts w
               /\ timers w1 = timers w
               /\ length (sockets w1) = length (sockets w)).
  { subst w1.
    rewrite config_cleanup, reconnectAttempts_cleanup, timers_cleanup,
      sockets_cleanup.
    destruct (connected (state w)); cbn;
      (destruct (ws w); rewrite ?length_alter; auto). }
  destruct H1 as (Hc & Ha & Ht & Hl). clearbody w1.
  unfold retries. rewrite Hc, Ha.
  destruct (connected (state w) && bool_decide (is_Some (config w))
            && (reconnectAttempts w <? maxReconnectAttempts));
    cbn; rewrite ?Hc, ?Ha, ?Ht, ?Hl; auto.
Qed.





Lemma gist_handleMessage m w : gist (handleMessage m w) = gist w.
Proof.
  destruct m; try reflexivity.
  unfold handleMessage, handleSignalCandidate.
  destruct (pc w); [destruct candidate |]; reflexivity.
Qed.






Lemma run_cons w e es : run w (e :: es) = run (step w e) es.
Proof. reflexivity. Qed.

Lemma no_connect_cons e es :
  no_connect (e :: es) = true -> is_connect e = false /\ no_connect es = true.
Proof.
  unfold no_connect. cbn. intros H. apply andb_true_iff in H as [H1 H2].
  split; [now apply negb_true_iff | assumption].
Qed.



Lemma reconnectAttempts_establishConnection who w :
  reconnectAttempts (fst (establishConnection who w)) = reconnectAttempts w.
Proof.
  unfold establishConnection. destruct (config w) as [cfg|]; [| reflexivity].
  destruct (throws w (buildWebSocketUrl (url cfg))); reflexivity.
Qed.




(** C10. The reconnect timer outlives [disconnect]: a session comes up and
    loses its transport, which starts the timer (2000 ms); the application
    calls [disconnect] and then [connect] before it fires. The timer then
    finds a config again and opens a further socket, which replaces the
    one [connect] has just opened as the current socket; that one stays
    open, is never closed by the client, and keeps its handlers. *)
Theorem reconnect_after_disconnect :
  timers reconnect_due !! 1%nat = Some (mkTimer Reconnect 2000 false)
  /\ ws reconnect_due = Some 1%nat
  /\ effects_since reconnect_due (step reconnect_due (TimerFire 1%nat))
     = [NewWebSocket 2%nat (js "wss://neko.example.com/ws"); SetTimeout 3%nat 10000]
  /\ ws (step reconnect_due (TimerFire 1%nat)) = Some 2%nat
  /\ sockets (step reconnect_due (TimerFire 1%nat)) !! 1%nat
     = Some (mkAttempt (js "wss://neko.example.com/ws") CONNECTING Pending ByConnect)
  /\ sockets (step reconnect_due (TimerFire 1%nat)) !! 2%nat
     = Some (mkAttempt (js "wss://neko.example.com/ws") CONNECTING Pending ByReconnect).
Proof. repeat split; vm_compute; reflexivity. Qed.

(** *** A [connect] left pending by [disconnect] *)

Lemma dangling_close_socket a : dangling a = true -> dangling (close_socket a) = true.
Proof. unfold dangling. destruct a as [u [] [] c]; cbn; congruence. Qed.

Lemma is_dangling_insert i j x w l :
  l = sockets w -> (j = i -> dangling x = true) ->
  is_dangling i w -> dangling <$> <[j := x]> l !! i = Some true.
Proof.
  unfold is_dangling. intros -> Hx H.
  destruct (decide (j = i)) as [-> | Hne].
  - rewrite list_lookup_insert_eq; [cbn; now rewrite Hx |].
    destruct (sockets w !! i) eqn:E; [| discriminate].
    now apply lookup_lt_Some in E.
  - now rewrite list_lookup_insert_ne.
Qed.

Lemma is_dangling_alter i j w :
  is_dangling i w -> dangling <$> alter close_socket j (sockets w) !! i = Some true.
Proof.
  unfold is_dangling. intros H.
  destruct (decide (j = i)) as [-> | Hne].
  - rewrite list_lookup_alter_eq.
    destruct (sockets w !! i) as [a|]; [| discriminate]. cbn in *.
    injection H as H. now rewrite dangling_close_socket.
  - now rewrite list_lookup_alter_ne.
Qed.

Lemma is_dangling_app i w l :
  is_dangling i w -> dangling <$> (sockets w ++ l) !! i = Some true.
Proof.
  unfold is_dangling. intros H.
  destruct (sockets w !! i) as [a|] eqn:E; [| discriminate].
  now rewrite (lookup_app_l_Some _ _ _ _ E).
Qed.

Lemma is_dangling_eq i w w' :
  sockets w' = sockets w -> is_dangling i w -> is_dangling i w'.
Proof. unfold is_dangling. now intros ->. Qed.

Lemma dangling_inv i w :
  is_dangling i w ->
  exists a, sockets w !! i = Some a /\ a_promise a = Pending
            /\ (a_ready a = CLOSING \/ a_ready a = CLOSED).
Proof.
  unfold is_dangling. destruct (sockets w !! i) as [a|]; [| discriminate].
  intros H. injection H as H. exists a. unfold dangling in H.
  destruct (a_ready a), (a_promise a); try discriminate; auto.
Qed.

Lemma is_dangling_cleanup i w : is_dangling i w -> is_dangling i (cleanup w).
Proof.
  intros H. unfold is_dangling. rewrite sockets_cleanup.
  destruct (ws w); [now apply is_dangling_alter | assumption].
Qed.

Lemma sockets_send m w : sockets (send m w) = sockets w.
Proof.
  unfold send. destruct (ws w); [destruct (ws_open w) |]; reflexivity.
Qed.

Lemma tasks_send m w : tasks (send m w) = tasks w.
Proof.
  unfold send. destruct (ws w); [destruct (ws_open w) |]; reflexivity.
Qed.

Lemma sockets_sendBinary d w : sockets (sendBinary d w) = sockets w.
Proof.
  unfold sendBinary. destruct (dataChannel w); [destruct (dc_open w) |]; reflexivity.
Qed.

Lemma tasks_sendBinary d w : tasks (sendBinary d w) = tasks w.
Proof.
  unfold sendBinary. destruct (dataChannel w); [destruct (dc_open w) |]; reflexivity.
Qed.

Lemma sockets_input c w : is_input c = true -> sockets (call c w) = sockets w.
Proof.
  destruct c; try discriminate; intros _; cbn;
    unfold sendMouseMove, sendMouseScroll, sendMouseButton, sendKeyEvent;
    destruct (controlling (state w)); cbn [negb]; try reflexivity;
    try apply sockets_sendBinary.
  destruct (getKeysym event); try reflexivity; apply sockets_sendBinary.
Qed.

Lemma tasks_input c w : is_input c = true -> tasks (call c w) = tasks w.
Proof.
  destruct c; try discriminate; intros _; cbn;
    unfold sendMouseMove, sendMouseScroll, sendMouseButton, sendKeyEvent;
    destruct (controlling (state w)); cbn [negb]; try reflexivity;
    try apply tasks_sendBinary.
  destruct (getKeysym event); try reflexivity; apply tasks_sendBinary.
Qed.

Lemma sockets_handleMessage m w : sockets (handleMessage m w) = sockets w.
Proof.
  destruct m; try reflexivity.
  unfold handleMessage, handleSignalCandidate.
  destruct (pc w); [destruct candidate |]; reflexivity.
Qed.

Lemma tasks_handleMessage m w : tasks (handleMessage m w) = tasks w.
Proof.
  destruct m; try reflexivity.
  unfold handleMessage, handleSignalCandidate.
  destruct (pc w); [destruct candidate |]; reflexivity.
Qed.

Lemma tasks_reject i m w : tasks (reject i m w) = tasks w.
Proof.
  unfold reject. destruct (sockets w !! i) as [a|]; [| reflexivity].
  destruct (a_promise a); try reflexivity. now destruct (a_caller a).
Qed.

Lemma is_dangling_reject i j m w :
  j <> i -> is_dangling i w -> is_dangling i (reject j m w).
Proof.
  intros Hne H. unfold reject. destruct (sockets w !! j) as [a|]; [| assumption].
  destruct (a_promise a); try assumption.
  destruct (a_caller a); unfold is_dangling; cbn;
    apply (is_dangling_insert i j _ w); auto; contradiction.
Qed.

Lemma is_dangling_resolve i j w :
  j <> i -> is_dangling i w -> is_dangling i (resolve j w).
Proof.
  intros Hne H. unfold resolve. destruct (sockets w !! j) as [a|]; [| assumption].
  destruct (a_promise a); try assumption.
  unfold is_dangling; cbn. apply (is_dangling_insert i j _ w); auto; contradiction.
Qed.

Lemma sockets_handleDisconnect r w :
  sockets (handleDisconnect r w) = sockets (cleanup w).
Proof.
  unfold handleDisconnect. cbv zeta.
  repeat match goal with
         | |- context [if ?b then _ else _] => destruct b
         end; cbn; rewrite !sockets_cleanup; reflexivity.
Qed.

Lemma tasks_handleDisconnect r w : tasks (handleDisconnect r w) = tasks w.
Proof.
  unfold handleDisconnect. cbv zeta.
  repeat match goal with
         | |- context [if ?b then _ else _] => destruct b
         end; cbn; rewrite !tasks_cleanup; reflexivity.
Qed.

Lemma is_dangling_handleDisconnect i r w :
  is_dangling i w -> is_dangling i (handleDisconnect r w).
Proof.
  intros H. unfold is_dangling. rewrite sockets_handleDisconnect.
  now apply is_dangling_cleanup.
Qed.

Lemma no_offer_snoc i j w :
  j <> i -> no_offer i w = true ->
  forallb (fun k => negb (k_attempt k =? i)%nat) (tasks w ++ [mkTask j AwaitSetRemote]) = true.
Proof.
  intros Hne H. rewrite forallb_app. unfold no_offer in H. rewrite H. cbn.
  apply Nat.eqb_neq in Hne. now rewrite Hne.
Qed.

Lemma no_offer_lookup i n k w :
  no_offer i w = true -> tasks w !! n = Some k -> k_attempt k <> i.
Proof.
  unfold no_offer. intros H Hk. rewrite forallb_forall in H.
  apply list_elem_of_lookup_2, list_elem_of_In in Hk.
  specialize (H k Hk). apply negb_true_iff, Nat.eqb_neq in H. exact H.
Qed.

Lemma no_offer_insert i n k s w :
  no_offer i w = true -> tasks w !! n = Some k ->
  forallb (fun k => negb (k_attempt k =? i)%nat) (<[n := set_stage s k]> (tasks w)) = true.
Proof.
  intros H Hk. pose proof (no_offer_lookup i n k w H Hk) as Hne.
  unfold no_offer in H. rewrite forallb_forall in *.
  intros x Hx. apply list_elem_of_In, list_elem_of_lookup in Hx as [m Hm].
  destruct (decide (n = m)) as [-> | Hnm].
  - rewrite list_lookup_insert_eq in Hm by (now apply lookup_lt_Some in Hk).
    injection Hm as <-. cbn. now apply negb_true_iff, Nat.eqb_neq.
  - rewrite list_lookup_insert_ne in Hm by assumption.
    apply H, list_elem_of_In. now apply list_elem_of_lookup_2 in Hm.
Qed.

Lemma is_dangling_call i c w :
  is_connect_call c = false -> is_dangling i w -> is_dangling i (call c w).
Proof.
  intros Hc Hd. destruct c; try discriminate;
    try (eapply is_dangling_eq; [now apply sockets_input | assumption]);
    cbn [call].
  - unfold disconnect. apply (is_dangling_eq i (cleanup (set_config None w)));
      [reflexivity |]. now apply is_dangling_cleanup.
  - eapply is_dangling_eq; [apply sockets_send | assumption].
  - eapply is_dangling_eq; [| exact Hd]. unfold releaseControl. cbn.
    apply sockets_send.
Qed.

Lemma tasks_call c w : is_connect_call c = false -> tasks (call c w) = tasks w.
Proof.
  intros Hc. destruct c; try discriminate;
    try (now rewrite tasks_input); cbn [call].
  - unfold disconnect. cbn [tasks set_state]. now rewrite tasks_cleanup.
  - unfold requestControl. now rewrite tasks_send.
  - unfold releaseControl. cbn. now rewrite tasks_send.
Qed.

Lemma abandoned_step i w e :
  is_connect e = false -> is_error_of i e = false ->
  abandoned i w -> abandoned i (step w e).
Proof.
  intros He Herr (Hcon & Hd & Hno).
  split; [| split].
  - destruct (ok_change_step w e) as (_ & _ & H). now apply H.
  - destruct e as [c | jobs | j | j m | j | j r | t | n ok | p s | p | p | d | d];
      cbn [step]; cbn [is_connect] in He.
    + now apply is_dangling_call.
    + apply (turn_calls (is_dangling i) jobs He); [| exact Hd].
      intros c v Hc. now apply is_dangling_call.
    + destruct (dangling_inv i w Hd) as (a & Ha & Hp & Hr).
      destruct (sockets w !! j) as [b|] eqn:Hb; [| assumption].
      destruct (a_ready b) eqn:Hrb; try assumption.
      assert (Hne : j <> i).
      { intros ->. rewrite Ha in Hb. injection Hb as <-.
        destruct Hr as [Hr | Hr]; rewrite Hr in Hrb; discriminate. }
      apply (is_dangling_eq i (set_sockets (<[j := set_ready OPEN b]> (sockets w)) w)).
      * unfold ws_onopen. cbn [config set_sockets].
        destruct (config w) as [cfg|]; [| reflexivity].
        destruct (nonempty (password cfg)); [apply sockets_send | reflexivity].
      * unfold is_dangling. cbn [sockets set_sockets].
        apply (is_dangling_insert i j _ w);
          [reflexivity | contradiction | exact Hd].
    + destruct (sockets w !! j) as [b|]; [| assumption].
      destruct (is_open (a_ready b)); [| assumption].
      eapply is_dangling_eq; [| exact Hd].
      destruct m as [[]|]; try reflexivity.
      unfold ws_onmessage, handleMessage, handleSignalCandidate.
      destruct (pc w); [destruct candidate |]; reflexivity.
    + cbn in Herr. apply negb_true_iff in Herr.
      destruct (sockets w !! j) as [b|]; [| assumption].
      destruct (is_closed (a_ready b)); [assumption |].
      unfold ws_onerror. apply is_dangling_reject.
      * intros ->. now rewrite Nat.eqb_refl in Herr.
      * assumption.
    + destruct (dangling_inv i w Hd) as (a & Ha & Hp & Hr).
      destruct (sockets w !! j) as [b|] eqn:Hb; [| assumption].
      destruct (is_closed (a_ready b)); [assumption |].
      unfold ws_onclose. apply is_dangling_handleDisconnect.
      unfold is_dangling. cbn [sockets set_sockets].
      apply (is_dangling_insert i j _ w); [reflexivity | | exact Hd].
      intros ->. rewrite Ha in Hb. injection Hb as <-.
      unfold dangling. cbn. now rewrite Hp.
    + destruct (timers w !! t) as [tm|]; [| assumption].
      destruct (t_fired tm); [assumption |].
      destruct (t_kind tm) as [k|].
      * unfold connect_timeout. cbn [state set_timers]. now rewrite Hcon.
      * unfold reconnect_timeout, establishConnection.
        cbn [config set_timers throws].
        destruct (config w) as [cfg|]; [| assumption].
        destruct (throws w (buildWebSocketUrl (url cfg))); [assumption |].
        unfold is_dangling. cbn. now apply is_dangling_app.
    + destruct (tasks w !! n) as [k|] eqn:Hk; [| assumption].
      pose proof (no_offer_lookup i n k w Hno Hk) as Hne.
      unfold resume. destruct ok; cbn [negb]; [| assumption].
      destruct (k_stage k); try assumption.
      * now destruct (pc w).
      * now destruct (pc w).
      * unfold is_dangling. cbn [sockets set_tasks].
        apply is_dangling_resolve; [assumption |].
        eapply is_dangling_eq; [apply sockets_send | assumption].
    + destruct (peers w !! p) as [old|]; [| assumption].
      destruct (pc_alive old && pc_alive s); [| assumption].
      unfold pc_onconnectionstatechange. cbn [pc peers set_peers].
      destruct (pc w) as [p'|]; [| assumption].
      destruct (<[p:=s]> (peers w) !! p') as [[]|]; try assumption.
      * now apply is_dangling_handleDisconnect.
      * now apply is_dangling_handleDisconnect.
    + destruct (peers w !! p) as [s|]; [| assumption].
      destruct (pc_alive s); [| assumption].
      eapply is_dangling_eq; [apply sockets_send | assumption].
    + destruct (peers w !! p) as [s|]; [| assumption].
      now destruct (pc_alive s).
    + now destruct (channels w !! d) as [[]|].
    + now destruct (channels w !! d) as [r|].
  - unfold no_offer in *.
    destruct e as [c | jobs | j | j m | j | j r | t | n ok | p s | p | p | d | d];
      cbn [step]; cbn [is_connect] in He.
    + now rewrite tasks_call.
    + apply (turn_calls
               (fun v => forallb (fun k => negb (k_attempt k =? i)%nat) (tasks v) = true)
               jobs He); [| exact Hno].
      intros c v Hc Hv. now rewrite tasks_call.
    + destruct (sockets w !! j) as [b|] eqn:Hb; [| assumption].
      destruct (a_ready b) eqn:Hrb; try assumption.
      unfold ws_onopen. cbn [config set_sockets].
      destruct (config w) as [cfg|]; [| assumption].
      destruct (nonempty (password cfg)); [now rewrite tasks_send | assumption].
    + destruct (dangling_inv i w Hd) as (a & Ha & Hp & Hr).
      destruct (sockets w !! j) as [b|] eqn:Hb; [| assumption].
      destruct (is_open (a_ready b)) eqn:Hopen; [| assumption].
      assert (Hne : j <> i).
      { intros ->. rewrite Ha in Hb. injection Hb as <-.
        destruct Hr as [Hr | Hr]; rewrite Hr in Hopen; discriminate. }
      destruct m as [m|]; [| assumption].
      destruct m; try assumption.
      * cbn. now apply no_offer_snoc.
      * unfold ws_onmessage. now rewrite tasks_handleMessage.
    + destruct (sockets w !! j) as [b|]; [| assumption].
      destruct (is_closed (a_ready b)); [assumption |].
      unfold ws_onerror. now rewrite tasks_reject.
    + destruct (sockets w !! j) as [b|]; [| assumption].
      destruct (is_closed (a_ready b)); [assumption |].
      unfold ws_onclose. now rewrite tasks_handleDisconnect.
    + destruct (timers w !! t) as [tm|]; [| assumption].
      destruct (t_fired tm); [assumption |].
      destruct (t_kind tm) as [k|].
      * unfold connect_timeout. cbn [state set_timers]. now rewrite Hcon.
      * unfold reconnect_timeout, establishConnection.
        cbn [config set_timers throws].
        destruct (config w) as [cfg|]; [| assumption].
        now destruct (throws w (buildWebSocketUrl (url cfg))).
    + destruct (tasks w !! n) as [k|] eqn:Hk; [| assumption].
      unfold resume. destruct ok; cbn [negb];
        [| now apply no_offer_insert].
      destruct (k_stage k); try assumption.
      * destruct (pc w); now apply no_offer_insert.
      * destruct (pc w); now apply no_offer_insert.
      * cbn [tasks set_tasks].
        assert (Ht : tasks (resolve (k_attempt k) (send OutAnswer w)) = tasks w).
        { unfold resolve. destruct (sockets (send OutAnswer w) !! k_attempt k) as [b|];
            [destruct (a_promise b) |]; cbn; apply tasks_send. }
        rewrite Ht. now apply no_offer_insert.
    + destruct (peers w !! p) as [old|]; [| assumption].
      destruct (pc_alive old && pc_alive s); [| assumption].
      unfold pc_onconnectionstatechange. cbn [pc peers set_peers].
      destruct (pc w) as [p'|]; [| assumption].
      destruct (<[p:=s]> (peers w) !! p') as [[]|]; try assumption.
      * now rewrite tasks_handleDisconnect.
      * now rewrite tasks_handleDisconnect.
    + destruct (peers w !! p) as [s|]; [| assumption].
      destruct (pc_alive s); [| assumption].
      unfold pc_onicecandidate. now rewrite tasks_send.
    + destruct (peers w !! p) as [s|]; [| assumption].
      now destruct (pc_alive s).
    + now destruct (channels w !! d) as [[]|].
    + now destruct (channels w !! d) as [r|].
Qed.

Lemma abandoned_run i es : forall w,
  no_connect es = true -> no_error_of i es = true ->
  abandoned i w -> abandoned i (run w es).
Proof.
  induction es as [| e es IH]; intros w Hc He Hw; [assumption |].
  apply no_connect_cons in Hc as [Hc Hcs].
  unfold no_error_of in He. cbn in He. apply andb_true_iff in He as [He Hes].
  apply negb_true_iff in He.
  rewrite run_cons. apply IH; auto using abandoned_step.
Qed.

Lemma abandoned_disconnect i w :
  ws w = Some i -> promise i w = Some Pending -> no_offer i w = true ->
  abandoned i (disconnect w).
Proof.
  intros Hws Hp Hno. split; [reflexivity | split].
  - unfold is_dangling, disconnect. cbn [sockets set_state].
    rewrite sockets_cleanup. cbn [ws sockets set_config]. rewrite Hws.
    rewrite list_lookup_alter_eq. unfold promise in Hp.
    destruct (sockets w !! i) as [a|]; [| discriminate].
    cbn in *. injection Hp as Hp. f_equal.
    unfold dangling, close_socket. cbn. rewrite Hp. now destruct (a_ready a).
  - unfold no_offer, disconnect. cbn [tasks set_state].
    now rewrite tasks_cleanup.
Qed.

(** C5. [disconnect] does not settle the promise of a pending [connect]:
    if the socket of the attempt is the current one, its promise pending
    and no offer received, the promise is still pending after [disconnect]
    and after any later events, as long as that socket reports no error
    and [connect] is not called again. *)
Theorem pending_after_disconnect (w : World) (i : nat) (es : list Event) :
  ws w = Some i -> promise i w = Some Pending -> no_offer i w = true ->
  no_connect es = true -> no_error_of i es = true ->
  promise i (run (disconnect w) es) = Some Pending.
Proof.
  intros Hws Hp Hno Hc He.
  pose proof (abandoned_run i es (disconnect w) Hc He
                (abandoned_disconnect i w Hws Hp Hno)) as (_ & Hd & _).
  destruct (dangling_inv _ _ Hd) as (a & Ha & Hpa & _).
  unfold promise. now rewrite Ha, <- Hpa.
Qed.

Lemma pending_after_disconnect_witness :
  promise 0%nat
    (run (disconnect awaiting_offer)
       [WsClose 0%nat []; TimerFire 0%nat; Api ReleaseControl])
  = Some Pending.
Proof.
  apply pending_after_disconnect; reflexivity.
Defined.

(** With [connect] waiting for the offer on an open socket, [disconnect]
    leaves its promise pending, not rejected; so do the close event of the
    socket and the 10 s timer. *)
Lemma connect_left_pending :
  ws awaiting_offer = Some 0%nat
  /\ connecting (state awaiting_offer) = true
  /\ promise 0%nat awaiting_offer = Some Pending
  /\ promise 0%nat (run awaiting_offer [Api Disconnect]) = Some Pending
  /\ promise 0%nat
       (run awaiting_offer [Api Disconnect; WsClose 0%nat []; TimerFire 0%nat])
     = Some Pending.
Proof. repeat split; reflexivity. Qed.

(** When the socket was still connecting and the browser reports the
    aborted handshake as an error, the promise is rejected, with the
    message of [ws.onerror]. *)
Lemma connect_rejected_by_error :
  promise 0%nat (run init [Api (Connect cfg0); Api Disconnect; WsError 0%nat])
  = Some (Rejected (js "WebSocket connection failed")).
Proof. reflexivity. Qed.


(** Five failures in a row use up the retries, with delays of 2, 4, 6, 8
    and 10 seconds; the sixth failure starts no timer. *)
Lemma retries_run_out :
  reconnect_delays (run init five_retries) = [2000; 4000; 6000; 8000; 10000]
  /\ connected (state (run init five_retries)) = true
  /\ reconnect_delays (run init (five_retries ++ [PcConnectionState 5%nat Cfailed]))
     = [2000; 4000; 6000; 8000; 10000]
  /\ connected (state (run init (five_retries ++ [PcConnectionState 5%nat Cfailed])))
     = false.
Proof. repeat split; vm_compute; reflexivity. Qed.

End ClientProofs.

(** ** Further properties of [protocol.ts] *)

Module EncodingProofs.
Import JS Protocol Client Design Platform Video Words ProtocolProofs.

Lemma ToInt16_range (n : number) : - 2 ^ 15 <= ToInt16 n < 2 ^ 15.
Proof.
  unfold ToInt16.
  pose proof (Z.mod_pos_bound (ToIntegral n) (2 ^ 16) ltac:(lia)) as H.
  destruct (Z.leb_spec (2 ^ 15) (ToIntegral n mod 2 ^ 16)); lia.
Qed.

Lemma ToInt16_stored (n : number) :
  let u := ToInt16 n mod 2 ^ 16 in
  (if 2 ^ 15 <=? u then u - 2 ^ 16 else u) = ToInt16 n.
Proof.
  cbv zeta. pose proof (ToInt16_range n) as H.
  destruct (Z.leb_spec 0 (ToInt16 n)) as [Hs | Hs].
  - rewrite Z.mod_small by lia.
    destruct (Z.leb_spec (2 ^ 15) (ToInt16 n)); lia.
  - replace (ToInt16 n mod 2 ^ 16) with (ToInt16 n + 2 ^ 16).
    + destruct (Z.leb_spec (2 ^ 15) (ToInt16 n + 2 ^ 16)); lia.
    + apply Z.mod_unique with (q := -1); [left |]; lia.
Qed.

Lemma split16 (u : Z) : u mod 256 + 256 * (u / 256) = u.
Proof. pose proof (Z.div_mod u 256). lia. Qed.

Lemma ToInt16_integer (z : Z) :
  - 2 ^ 15 <= z < 2 ^ 15 -> ToInt16 (num_of_Z z) = z.
Proof.
  intros H. unfold ToInt16, num_of_Z, ToIntegral. rewrite truncate_inject_Z.
  destruct (Z.leb_spec 0 z) as [Hs | Hs].
  - rewrite Z.mod_small by lia. destruct (Z.leb_spec (2 ^ 15) z); lia.
  - replace (z mod 2 ^ 16) with (z + 2 ^ 16)
      by (apply Z.mod_unique with (q := -1); [left |]; lia).
    destruct (Z.leb_spec (2 ^ 15) (z + 2 ^ 16)); lia.
Qed.

Lemma getInt16_encodeMouseScroll (deltaX deltaY : number) :
  getInt16 1 (encodeMouseScroll deltaX deltaY) = Some (ToInt16 (Math_round deltaX))
  /\ getInt16 3 (encodeMouseScroll deltaX deltaY) = Some (ToInt16 (Math_round deltaY)).
Proof.
  unfold encodeMouseScroll, createMessage, setInt16, setUint8, new_ArrayBuffer,
    getInt16, getUint16.
  cbn [replicate insert list_insert lookup list_lookup].
  rewrite !split16. split; f_equal; apply ToInt16_stored.
Qed.

(** X1. What [DataView.getInt16] reads back from a scroll message is the
    rounded delta wrapped to a signed 16-bit integer, for every number; it
    is the rounded delta itself when that fits in 16 bits. *)
Theorem scroll_read_back (deltaX deltaY : number) :
  length (encodeMouseScroll deltaX deltaY) = 5%nat
  /\ getUint8 0 (encodeMouseScroll deltaX deltaY) = Some 0x02
  /\ getInt16 1 (encodeMouseScroll deltaX deltaY) = Some (ToInt16 (Math_round deltaX))
  /\ getInt16 3 (encodeMouseScroll deltaX deltaY) = Some (ToInt16 (Math_round deltaY))
  /\ (forall q, - 2 ^ 15 <= nearest q < 2 ^ 15 ->
        ToInt16 (Math_round (Fin q)) = nearest q).
Proof.
  destruct (getInt16_encodeMouseScroll deltaX deltaY) as [H1 H3].
  repeat split; try reflexivity; try assumption.
  intros q H. now apply ToInt16_integer.
Qed.

Lemma ToUint32_range (n : number) : 0 <= ToUint32 n < 2 ^ 32.
Proof. unfold ToUint32. apply Z.mod_pos_bound. lia. Qed.

Lemma split32 (u : Z) :
  u mod 256 + 256 * ((u / 256) mod 256) + 65536 * ((u / 65536) mod 256)
  + 16777216 * (u / 16777216) = u.
Proof.
  pose proof (Z.div_mod u 256 ltac:(lia)) as H0.
  pose proof (Z.div_mod (u / 256) 256 ltac:(lia)) as H1.
  pose proof (Z.div_mod (u / 256 / 256) 256 ltac:(lia)) as H2.
  rewrite !Z.div_div in * by lia.
  change (256 * 256) with 65536 in *. change (65536 * 256) with 16777216 in *.
  lia.
Qed.

Lemma encodeKey_bytes (keycode : number) (pressed : bool) :
  encodeKey keycode pressed
  = [opcode_of 0x05 0x06 pressed;
     ToUint32 keycode mod 256; (ToUint32 keycode / 256) mod 256;
     (ToUint32 keycode / 65536) mod 256; ToUint32 keycode / 16777216].
Proof. now destruct pressed. Qed.

Lemma ToUint32_integer (z : Z) : 0 <= z < 2 ^ 32 -> ToUint32 (num_of_Z z) = z.
Proof.
  intros H. unfold ToUint32, num_of_Z, ToIntegral. rewrite truncate_inject_Z.
  now apply Z.mod_small.
Qed.

Lemma getUint32_encodeKey (keycode : number) (pressed : bool) :
  getUint32 1 (encodeKey keycode pressed) = Some (ToUint32 keycode).
Proof.
  rewrite encodeKey_bytes. unfold getUint32.
  cbn [lookup list_lookup]. now rewrite split32.
Qed.

(** X2. [DataView.getUint32] reads back from a key message the keycode
    modulo 2^32, and the opcode tells press from release; so two key
    messages with keycodes below 2^32 are equal only for the same keycode
    and the same direction. *)
Theorem key_read_back :
  (forall keycode pressed,
     length (encodeKey keycode pressed) = 5%nat
     /\ getUint8 0 (encodeKey keycode pressed) = Some (opcode_of 0x05 0x06 pressed)
     /\ getUint32 1 (encodeKey keycode pressed) = Some (ToUint32 keycode))
  /\ (forall z z' pressed pressed',
        0 <= z < 2 ^ 32 -> 0 <= z' < 2 ^ 32 ->
        encodeKey (num_of_Z z) pressed = encodeKey (num_of_Z z') pressed' ->
        z = z' /\ pressed = pressed').
Proof.
  pose proof getUint32_encodeKey as Hread.
  split.
  - intros keycode pressed. repeat split; [now destruct pressed .. | apply Hread].
  - intros z z' p p' Hz Hz' E. split.
    + pose proof (Hread (num_of_Z z) p) as H1.
      rewrite E, Hread, !ToUint32_integer in H1 by assumption. congruence.
    + rewrite !encodeKey_bytes in E. injection E as E _.
      destruct p, p'; try reflexivity; discriminate.
Qed.

Lemma getMouseButton_values (button : number) :
  In (getMouseButton button) [1; 2; 3; 8; 9].
Proof.
  unfold getMouseButton. destruct button; cbn; auto.
  repeat match goal with
         | |- context [Qeq_bool ?a ?b] => destruct (Qeq_bool a b)
         end; cbn; auto 10.
Qed.

(** X3. Whatever number the platform reports as the pressed button, the
    message [sendMouseButton] encodes is two bytes: the down or up opcode
    and one of the X11 buttons 1, 2, 3, 8, 9, stored unchanged. *)
Theorem button_message (button : number) (pressed : bool) :
  encodeMouseButton (num_of_Z (getMouseButton button)) pressed
  = [opcode_of 0x03 0x04 pressed; getMouseButton button]
  /\ In (getMouseButton button) [1; 2; 3; 8; 9].
Proof.
  split; [| apply getMouseButton_values].
  pose proof (getMouseButton_values button) as H. cbn in H.
  destruct pressed;
    (destruct H as [<- | [<- | [<- | [<- | [<- | []]]]]]; reflexivity).
Qed.

Lemma is_byte_mod (u : Z) : is_byte (u mod 256) = true.
Proof.
  unfold is_byte. pose proof (Z.mod_pos_bound u 256 ltac:(lia)).
  apply andb_true_iff. split; [apply Z.leb_le | apply Z.ltb_lt]; lia.
Qed.

Lemma is_byte_div (u k : Z) :
  0 < k -> 0 <= u < 256 * k -> is_byte (u / k) = true.
Proof.
  intros Hk H. unfold is_byte. apply andb_true_iff.
  split; [apply Z.leb_le | apply Z.ltb_lt].
  - apply Z.div_pos; lia.
  - apply Z.div_lt_upper_bound; lia.
Qed.

Lemma ToUint16_range (n : number) : 0 <= ToUint16 n < 2 ^ 16.
Proof. unfold ToUint16. apply Z.mod_pos_bound. lia. Qed.

(** X4. Every message the four encoders build has its fixed length (5, 5,
    2, 5) and consists of bytes, whatever the numbers given (fractions,
    negative or huge values, NaN, infinities). *)
Theorem messages_well_formed (a b : number) (pressed : bool) :
  (length (encodeMouseMove a b) = 5%nat
   /\ forallb is_byte (encodeMouseMove a b) = true)
  /\ (length (encodeMouseScroll a b) = 5%nat
      /\ forallb is_byte (encodeMouseScroll a b) = true)
  /\ (length (encodeMouseButton a pressed) = 2%nat
      /\ forallb is_byte (encodeMouseButton a pressed) = true)
  /\ (length (encodeKey a pressed) = 5%nat
      /\ forallb is_byte (encodeKey a pressed) = true).
Proof.
  pose proof (ToUint16_range (Math_round a)) as Ha.
  pose proof (ToUint16_range (Math_round b)) as Hb.
  pose proof (Z.mod_pos_bound (ToInt16 (Math_round a)) (2 ^ 16) ltac:(lia)) as Hsa.
  pose proof (Z.mod_pos_bound (ToInt16 (Math_round b)) (2 ^ 16) ltac:(lia)) as Hsb.
  pose proof (ToUint32_range a) as Hk.
  repeat split; try reflexivity; try (now destruct pressed).
  - unfold encodeMouseMove, createMessage, setUint16, setUint8, new_ArrayBuffer.
    cbn [replicate insert list_insert forallb].
    rewrite !is_byte_mod, !is_byte_div by lia. reflexivity.
  - unfold encodeMouseScroll, createMessage, setInt16, setUint8, new_ArrayBuffer.
    cbn [replicate insert list_insert forallb].
    rewrite !is_byte_mod, !is_byte_div by lia. reflexivity.
  - unfold encodeMouseButton, createMessage, setUint8, new_ArrayBuffer, ToUint8.
    cbn [replicate insert list_insert forallb].
    change (2 ^ 8) with 256. rewrite !is_byte_mod. reflexivity.
  - rewrite encodeKey_bytes. cbn [forallb].
    rewrite !is_byte_mod, is_byte_div by lia. now destruct pressed.
Qed.

Lemma jseqb_eq (s t : jsstring) : jseqb s t = true -> s = t.
Proof.
  revert t. induction s as [| c s IH]; intros [| d t] H; try discriminate;
    [reflexivity |].
  cbn in H. apply andb_true_iff in H as [Hc Hs].
  apply Z.eqb_eq in Hc. f_equal; auto.
Qed.

Lemma assoc_In (k : jsstring) (tbl : list (jsstring * Z)) (z : Z) :
  assoc k tbl = Some z -> In (k, z) tbl.
Proof.
  induction tbl as [| [k' v] tbl IH]; [discriminate |]. cbn.
  destruct (jseqb k k') eqn:E.
  - intros H. injection H as ->. left. now rewrite (jseqb_eq _ _ E).
  - auto.
Qed.

Lemma table_entry_ok (k : jsstring) (z : Z) :
  In (k, z) KEYSYM_MAP ->
  0 < z < 2 ^ 16 /\ (startsWith k (js "Key") = true -> 0x61 <= z <= 0x7a).
Proof.
  assert (H : forallb (fun kv : jsstring * Z =>
                (0 <? snd kv) && (snd kv <? 2 ^ 16)
                && implb (startsWith (fst kv) (js "Key"))
                         ((0x61 <=? snd kv) && (snd kv <=? 0x7a)))
              KEYSYM_MAP = true) by (vm_compute; reflexivity).
  rewrite forallb_forall in H. intros Hin. specialize (H _ Hin).
  cbn [fst snd] in H.
  apply andb_true_iff in H as [H Hkey]. apply andb_true_iff in H as [H0 H1].
  apply Z.ltb_lt in H0. apply Z.ltb_lt in H1. split; [lia |].
  intros Hs. rewrite Hs in Hkey. cbn in Hkey.
  apply andb_true_iff in Hkey as [H2 H3].
  apply Z.leb_le in H2. apply Z.leb_le in H3. lia.
Qed.

Lemma sub_integer (z k : Z) : sub (num_of_Z z) k = num_of_Z (z - k).
Proof.
  unfold sub, num_of_Z, inject_Z, Qminus, Qplus, Qopp. cbn [Qnum Qden].
  change (1 * 1)%positive with 1%positive. rewrite !Z.mul_1_r. reflexivity.
Qed.

Lemma KEYSYM_MAP_keys_distinct : NoDup (map fst KEYSYM_MAP).
Proof. apply (bool_decide_unpack _). vm_compute. exact I. Qed.

Lemma getKeysym_mapped (ev : KeyboardEvent) (z : Z) :
  assoc (code ev) KEYSYM_MAP = Some z ->
  getKeysym ev = VNum (num_of_Z (shifted ev z))
  /\ 0 < shifted ev z < 2 ^ 16.
Proof.
  intros Hz. pose proof (table_entry_ok _ _ (assoc_In _ _ _ Hz)) as [Hr Hk].
  assert (Ht : truthy (get KEYSYM_MAP (code ev)) = true).
  { unfold get. rewrite Hz. unfold truthy, num_of_Z.
    change 0%Q with (inject_Z 0). rewrite Qeq_bool_inject_Z.
    apply negb_true_iff, Z.eqb_neq. lia. }
  unfold getKeysym, shifted. rewrite Ht. unfold get. rewrite Hz.
  destruct (startsWith (code ev) (js "Key")) eqn:Hs; cbn [andb].
  - specialize (Hk eq_refl). destruct (shiftKey ev).
    + cbn [ToNumber]. rewrite sub_integer. split; [reflexivity | lia].
    + split; [reflexivity | lia].
  - split; [reflexivity | lia].
Qed.

(** X5. For every code of the table [getKeysym] returns the table value,
    0x20 less exactly when the code starts with [Key] and shift is held:
    the text of the key is not looked at, and shift changes nothing for
    digits, punctuation, function and modifier keys. The result is a
    positive number below 2^16. *)
Theorem keysym_of_table (ev : KeyboardEvent) (z : Z) :
  assoc (code ev) KEYSYM_MAP = Some z ->
  getKeysym ev = VNum (num_of_Z (shifted ev z))
  /\ 0 < shifted ev z < 2 ^ 16
  /\ NoDup (map fst KEYSYM_MAP).
Proof.
  intros Hz. destruct (getKeysym_mapped ev z Hz) as [H1 H2].
  auto using KEYSYM_MAP_keys_distinct.
Qed.

Lemma keysym_of_table_witness :
  getKeysym (key_event (js "Digit1") (js "!") true) = VNum (num_of_Z 0x31)
  /\ getKeysym (key_event (js "KeyZ") (js "Z") true) = VNum (num_of_Z 0x5a).
Proof.
  split.
  - exact (proj1 (keysym_of_table (key_event (js "Digit1") (js "!") true) 0x31 eq_refl)).
  - exact (proj1 (keysym_of_table (key_event (js "KeyZ") (js "Z") true) 0x7a eq_refl)).
Defined.

(** *** The wheel handler *)

Lemma Qle_bool_false (a b : Q) : Qle_bool a b = false -> (b < a)%Q.
Proof.
  intros H. apply Qnot_le_lt. intros Hle.
  apply Qle_bool_iff in Hle. congruence.
Qed.

Lemma sgn_Qnum (q : Q) :
  (Z.sgn (Qnum q) = 1 /\ (0 < q)%Q) \/ (Z.sgn (Qnum q) = 0 /\ (q == 0)%Q)
  \/ (Z.sgn (Qnum q) = -1 /\ (q < 0)%Q).
Proof.
  destruct q as [[| p | p] d]; cbn.
  - right; left. split; reflexivity.
  - left. split; reflexivity.
  - right; right. split; reflexivity.
Qed.

Lemma normalize_finite (q : Q) :
  exists r, normalize (Fin q) = Fin r /\ (r == clamp10 q)%Q.
Proof.
  unfold normalize, Math_sign, Math_abs, Math_min, num_of_Z, mul, clamp10.
  change (inject_Z 10) with 10%Q.
  destruct (Qle_bool (Qabs q) 10) eqn:Habs;
    eexists; (split; [reflexivity |]);
    [apply Qle_bool_iff in Habs | apply Qle_bool_false in Habs];
    destruct (Qle_bool q (-10)) eqn:Hlo;
    [apply Qle_bool_iff in Hlo | apply Qle_bool_false in Hlo
    |apply Qle_bool_iff in Hlo | apply Qle_bool_false in Hlo];
    destruct (Qle_bool 10 q) eqn:Hhi;
    [apply Qle_bool_iff in Hhi | apply Qle_bool_false in Hhi
    |apply Qle_bool_iff in Hhi | apply Qle_bool_false in Hhi
    |apply Qle_bool_iff in Hhi | apply Qle_bool_false in Hhi
    |apply Qle_bool_iff in Hhi | apply Qle_bool_false in Hhi];
    destruct (sgn_Qnum q) as [[-> Hs] | [[-> Hs] | [-> Hs]]];
    change (inject_Z 1) with 1%Q; change (inject_Z 0) with 0%Q;
    change (inject_Z (-1)) with (-1)%Q;
    try (rewrite Qabs_pos in * by lra);
    try (rewrite Qabs_neg in * by lra);
    lra.
Qed.

Lemma nearest_clamp10 (q : Q) : -10 <= nearest (clamp10 q) <= 10.
Proof.
  assert (H : (-10 <= clamp10 q <= 10)%Q).
  { unfold clamp10.
    destruct (Qle_bool q (-10)) eqn:Hlo; [lra |]. apply Qle_bool_false in Hlo.
    destruct (Qle_bool 10 q) eqn:Hhi; [lra |]. apply Qle_bool_false in Hhi.
    lra. }
  unfold nearest. split.
  - change (-10) with (Qfloor (inject_Z (-10))). apply Qfloor_resp_le.
    change (inject_Z (-10)) with (-10)%Q. lra.
  - change 10 with (Qfloor (10 + (1 # 2))). apply Qfloor_resp_le. lra.
Qed.

Lemma normalize_rounded (d : number) :
  exists v, ToInt16 (Math_round (normalize d)) = v /\ -10 <= v <= 10
            /\ (forall q, d = Fin q -> v = nearest (clamp10 q)).
Proof.
  destruct d as [| | | q].
  - exists 0. repeat split; try lia. discriminate.
  - exists 10. repeat split; try lia. discriminate.
  - exists (-10). repeat split; try lia. discriminate.
  - destruct (normalize_finite q) as (r & -> & Hr).
    exists (nearest (clamp10 q)). pose proof (nearest_clamp10 q) as Hb.
    assert (Hn : nearest r = nearest (clamp10 q)).
    { unfold nearest. now rewrite Hr. }
    split; [| split; [exact Hb |]].
    + cbn [Math_round]. rewrite Hn. apply ToInt16_integer. lia.
    + intros q' E. now injection E as <-.
Qed.

End EncodingProofs.

(** ** Further properties of [client.ts] and of its callers *)

Module SessionProofs.
Import JS Protocol Client Design Invariants Platform Video Controls Words.
Import ProtocolProofs ClientProofs EncodingProofs.

Lemma ws_cleanup w : ws (cleanup w) = None.
Proof. apply cleanup_releases. Qed.

Lemma disconnect_fields w :
  length (sockets (cleanup (set_config None w))) = length (sockets w)
  /\ timers (cleanup (set_config None w)) = timers w
  /\ trace (cleanup (set_config None w)) = trace w ++ closes w.
Proof.
  rewrite sockets_cleanup, timers_cleanup, trace_cleanup.
  cbn [ws sockets set_config]. repeat split.
  destruct (ws w); now rewrite ?length_alter.
Qed.

Lemma config_establishConnection who w :
  config (fst (establishConnection who w)) = config w.
Proof.
  unfold establishConnection. destruct (config w) as [cfg|] eqn:Hc;
    [| assumption].
  destruct (throws w (buildWebSocketUrl (url cfg))); assumption.
Qed.

(** What [connect] starts from: the client as it is, or as [disconnect]
    leaves it when it was connecting or connected. *)
Lemma connect_start (w : World) :
  connected (state (if connecting (state w) || connected (state w)
                    then disconnect w else w)) = false
  /\ length (sockets (if connecting (state w) || connected (state w)
                      then disconnect w else w)) = length (sockets w)
  /\ timers (if connecting (state w) || connected (state w)
             then disconnect w else w) = timers w
  /\ trace (if connecting (state w) || connected (state w)
            then disconnect w else w)
     = trace w ++ (if connecting (state w) || connected (state w)
                   then closes w else [])
  /\ ws (if connecting (state w) || connected (state w)
         then disconnect w else w)
     = (if connecting (state w) || connected (state w) then None else ws w)
  /\ throws (if connecting (state w) || connected (state w)
             then disconnect w else w) = throws w.
Proof.
  destruct (disconnect_fields w) as (Hl & Ht & Htr).
  destruct (connecting (state w) || connected (state w)) eqn:Hbusy.
  - unfold disconnect. cbn [state sockets timers trace ws throws set_state].
    rewrite ws_cleanup, throws_cleanup. now repeat split.
  - apply orb_false_iff in Hbusy as [_ Hc].
    rewrite app_nil_r. now repeat split.
Qed.

(** A [connect] call that nothing follows in its turn. *)
Lemma connect_alone (cfg : NekoConfig) (w : World) :
  config (call (Connect cfg) w) = Some cfg
  /\ connected (state (call (Connect cfg) w)) = false
  /\ reconnectAttempts (call (Connect cfg) w) = 0
  /\ match throws w (buildWebSocketUrl (url cfg)) with
     | None =>
         ws (call (Connect cfg) w) = Some (length (sockets w))
         /\ sockets (call (Connect cfg) w) !! length (sockets w)
            = Some (mkAttempt (buildWebSocketUrl (url cfg)) CONNECTING Pending ByConnect)
         /\ connecting (state (call (Connect cfg) w)) = true
         /\ error (state (call (Connect cfg) w)) = None
         /\ effects_since w (call (Connect cfg) w)
            = (if connecting (state w) || connected (state w) then closes w else [])
              ++ [NewWebSocket (length (sockets w)) (buildWebSocketUrl (url cfg));
                  SetTimeout (length (timers w)) 10000]
     | Some message =>
         ws (call (Connect cfg) w)
         = (if connecting (state w) || connected (state w) then None else ws w)
         /\ length (sockets (call (Connect cfg) w)) = length (sockets w)
         /\ timers (call (Connect cfg) w) = timers w
         /\ connecting (state (call (Connect cfg) w)) = false
         /\ error (state (call (Connect cfg) w)) = Some message
         /\ effects_since w (call (Connect cfg) w)
            = (if connecting (state w) || connected (state w) then closes w else [])
              ++ [OnError message]
     end.
Proof.
  rewrite call_connect.
  destruct (connect_start w) as (Hcon & Hl & Ht & Htr & Hws & Hth).
  set (w0 := if connecting (state w) || connected (state w)
             then disconnect w else w) in *.
  clearbody w0.
  set (w1 := set_reconnectAttempts 0
               (upd_state (set_error None)
                  (upd_state (set_connecting true) (set_config (Some cfg) w0)))).
  assert (Hc1 : config w1 = Some cfg) by reflexivity.
  assert (Hs1 : state w1 = set_error None (set_connecting true (state w0)))
    by reflexivity.
  assert (Ha1 : reconnectAttempts w1 = 0) by reflexivity.
  assert (Hf1 : sockets w1 = sockets w0 /\ timers w1 = timers w0
                /\ trace w1 = trace w0 /\ ws w1 = ws w0
                /\ throws w1 = throws w0) by now repeat split.
  destruct Hf1 as (Hso1 & Hti1 & Htr1 & Hws1 & Hth1).
  clearbody w1.
  destruct (throws w (buildWebSocketUrl (url cfg))) as [m|] eqn:Hthrows.
  - cbn [config state reconnectAttempts connect_catch emit upd_state set_state
         ws sockets timers trace].
    rewrite Hc1, Ha1, Hs1, Hso1, Hti1, Hws1. cbn. rewrite Hcon.
    repeat split; try assumption.
    apply effects_since_app. cbn. now rewrite Htr1, Htr, <- app_assoc.
  - destruct (establishConnection_opens ByConnect w1 cfg Hc1)
      as (_ & Hso & Hw & _ & Htrace); [congruence |].
    rewrite config_establishConnection, state_establishConnection,
      reconnectAttempts_establishConnection, Hc1, Ha1, Hs1, Hso, Hw.
    rewrite Hso1, Hl. cbn. rewrite Hcon.
    repeat split.
    + apply list_lookup_middle. now rewrite Hl.
    + apply effects_since_app.
      now rewrite Htrace, Hso1, Hti1, Htr1, Hl, Ht, Htr, <- app_assoc.
Qed.

(** X7. A [connect] call that nothing follows in its turn ends with the
    given config stored, [connected] false and zero reconnect attempts; a
    session that was connecting or connected has its channel, peer
    connection and socket closed first, otherwise nothing is closed, even
    a socket still held after a timeout. When the browser accepts the
    derived address, a new socket to it is the current one, its promise
    is pending, [connecting] is true, there is no error, and the 10 s
    timer is started. When [new WebSocket] throws, no socket is created
    and no timer started, [connecting] is false, the message of the
    exception is stored in [error] and passed to [onError]. *)
Theorem connect_opens_session (cfg : NekoConfig) (w : World) :
  config (step w (Api (Connect cfg))) = Some cfg
  /\ connected (state (step w (Api (Connect cfg)))) = false
  /\ reconnectAttempts (step w (Api (Connect cfg))) = 0
  /\ match throws w (buildWebSocketUrl (url cfg)) with
     | None =>
         ws (step w (Api (Connect cfg))) = Some (length (sockets w))
         /\ sockets (step w (Api (Connect cfg))) !! length (sockets w)
            = Some (mkAttempt (buildWebSocketUrl (url cfg)) CONNECTING Pending ByConnect)
         /\ connecting (state (step w (Api (Connect cfg)))) = true
         /\ error (state (step w (Api (Connect cfg)))) = None
         /\ effects_since w (step w (Api (Connect cfg)))
            = (if connecting (state w) || connected (state w) then closes w else [])
              ++ [NewWebSocket (length (sockets w)) (buildWebSocketUrl (url cfg));
                  SetTimeout (length (timers w)) 10000]
     | Some message =>
         ws (step w (Api (Connect cfg)))
         = (if connecting (state w) || connected (state w) then None else ws w)
         /\ length (sockets (step w (Api (Connect cfg)))) = length (sockets w)
         /\ timers (step w (Api (Connect cfg))) = timers w
         /\ connecting (state (step w (Api (Connect cfg)))) = false
         /\ error (state (step w (Api (Connect cfg)))) = Some message
         /\ effects_since w (step w (Api (Connect cfg)))
            = (if connecting (state w) || connected (state w) then closes w else [])
              ++ [OnError message]
     end.
Proof. exact (connect_alone cfg w). Qed.

(** *** A [connect] call with other calls after it in its turn *)

Lemma jobs_calls (cs : list Call) (q : list Suspended) : forall w,
  forallb (fun c => negb (is_connect_call c)) cs = true ->
  fold_left do_job (map Do cs) (w, q) = (run w (map Api cs), q).
Proof.
  induction cs as [| c cs IH]; intros w Hcs; [reflexivity |].
  cbn in Hcs. apply andb_true_iff in Hcs as [Hc Hcs].
  cbn [map fold_left]. rewrite run_cons. cbn [step].
  rewrite <- (IH (call c w) Hcs). f_equal.
  destruct c; try reflexivity. discriminate.
Qed.

Lemma idle_after_calls (cs : list Call) : forall w,
  forallb (fun c => negb (is_connect_call c)) cs = true ->
  connecting (state w) || connected (state w) = false ->
  connecting (state (run w (map Api cs)))
  || connected (state (run w (map Api cs))) = false.
Proof.
  induction cs as [| c cs IH]; intros w Hcs Hw; [exact Hw |].
  cbn in Hcs. apply andb_true_iff in Hcs as [Hc Hcs].
  apply negb_true_iff in Hc.
  cbn [map]. rewrite run_cons. cbn [step]. apply IH; [exact Hcs |].
  destruct (state_call c w Hc) as [-> | [-> | ->]]; auto.
Qed.

(** X21. While the client is connecting or connected, [connect] itself
    only runs [disconnect]; storing the config, raising [connecting] and
    opening the socket wait for the end of the turn. So when the
    application makes further calls in the same turn (none of them
    [connect]), the turn as a whole is [disconnect], then those calls,
    then [connect] on the idle client. A [disconnect] called right after
    [connect] does not stop it: the turn ends with the config stored and,
    when the browser accepts the address, with [connecting] true and a
    socket held. *)
Theorem connect_deferred (cfg : NekoConfig) (cs : list Call) (w : World) :
  connecting (state w) || connected (state w) = true ->
  forallb (fun c => negb (is_connect_call c)) cs = true ->
  connect cfg w = (disconnect w, Some (AwaitDisconnect cfg))
  /\ step w (Turn (Do (Connect cfg) :: map Do cs))
     = step (run (disconnect w) (map Api cs)) (Api (Connect cfg))
  /\ config (step w (Turn [Do (Connect cfg); Do Disconnect])) = Some cfg
  /\ (throws w (buildWebSocketUrl (url cfg)) = None ->
      connecting (state (step w (Turn [Do (Connect cfg); Do Disconnect]))) = true
      /\ is_Some (ws (step w (Turn [Do (Connect cfg); Do Disconnect])))).
Proof.
  intros Hbusy Hcs.
  assert (Hsync : connect cfg w = (disconnect w, Some (AwaitDisconnect cfg)))
    by (unfold connect; now rewrite Hbusy).
  assert (Hturn : forall cs',
            forallb (fun c => negb (is_connect_call c)) cs' = true ->
            step w (Turn (Do (Connect cfg) :: map Do cs'))
            = step (run (disconnect w) (map Api cs')) (Api (Connect cfg))).
  { intros cs' Hcs'. cbn [step]. unfold turn. cbn [fold_left do_job].
    rewrite Hsync. cbn [app option_list]. rewrite (jobs_calls cs' _ _ Hcs').
    rewrite checkpoint_disconnect. cbn [call]. unfold connect.
    now rewrite (idle_after_calls cs' (disconnect w) Hcs' eq_refl). }
  split; [exact Hsync | split; [now apply Hturn |]].
  change [Do (Connect cfg); Do Disconnect]
    with (Do (Connect cfg) :: map Do [Disconnect]).
  rewrite (Hturn [Disconnect] eq_refl).
  set (w' := run (disconnect w) (map Api [Disconnect])).
  destruct (connect_alone cfg w') as (Hc & _ & _ & H).
  assert (Ht : throws w' = throws w).
  { unfold w'. cbn [map run fold_left step call].
    now rewrite !throws_disconnect. }
  rewrite Ht in H. cbn [step].
  split; [exact Hc |]. intros Hok. rewrite Hok in H.
  destruct H as (Hws & _ & Hcon & _). split; [exact Hcon |]. rewrite Hws. eauto.
Qed.

Lemma connect_deferred_witness :
  connected (state in_control) = true
  /\ config (step in_control (Turn [Do (Connect cfg0); Do Disconnect])) = Some cfg0
  /\ connecting (state (step in_control (Turn [Do (Connect cfg0); Do Disconnect])))
     = true.
Proof.
  destruct (connect_deferred cfg0 [Disconnect] in_control
              ltac:(vm_compute; reflexivity) eq_refl) as (_ & _ & Hc & Hs).
  split; [vm_compute; reflexivity | split; [exact Hc |]].
  exact (proj1 (Hs ltac:(vm_compute; reflexivity))).
Defined.

Lemma trace_send m w :
  trace (send m w)
  = trace w ++ match ws w with
               | Some i => if ws_open w then [WsSend i m] else []
               | None => []
               end.
Proof.
  unfold send. destruct (ws w); [destruct (ws_open w) |]; cbn;
    now rewrite ?app_nil_r.
Qed.

Lemma identity_fields (w : World) (i : nat) (a : Attempt) (cfg : NekoConfig) :
  sockets w !! i = Some a -> a_ready a = CONNECTING ->
  ws w = Some i -> config w = Some cfg ->
  effects_since w (step w (WsOpen i))
  = match nonempty (password cfg) with
    | Some pass =>
        [WsSend i (OutIdentity (default (js "User") (nonempty (displayName cfg))) pass)]
    | None => []
    end
  /\ state (step w (WsOpen i)) = state w.
Proof.
  intros Hi Ha Hws Hc. cbn [step]. rewrite Hi, Ha.
  assert (Hopen : ws_open (set_sockets (<[i := set_ready OPEN a]> (sockets w)) w) = true).
  { unfold ws_open. cbn [ws sockets set_sockets]. rewrite Hws.
    rewrite list_lookup_insert_eq by (now apply lookup_lt_Some in Hi).
    reflexivity. }
  split.
  - apply effects_since_app. unfold ws_onopen. cbn [config set_sockets].
    rewrite Hc. destruct (nonempty (password cfg)).
    + rewrite trace_send, Hopen. cbn [ws trace set_sockets]. now rewrite Hws.
    + cbn. now rewrite app_nil_r.
  - now rewrite state_ws_onopen.
Qed.

(** X8. When the current socket opens, the client sends one
    [member/identity] message with the configured password and the display
    name ([User] when none or an empty one is configured), and nothing at
    all when no password, or an empty one, is configured; the session state
    is not touched. *)
Theorem identity_on_open (w : World) (i : nat) (a : Attempt) (cfg : NekoConfig) :
  sockets w !! i = Some a -> a_ready a = CONNECTING ->
  ws w = Some i -> config w = Some cfg ->
  effects_since w (step w (WsOpen i))
  = match nonempty (password cfg) with
    | Some pass =>
        [WsSend i (OutIdentity (default (js "User") (nonempty (displayName cfg))) pass)]
    | None => []
    end
  /\ state (step w (WsOpen i)) = state w.
Proof. apply identity_fields. Qed.

Lemma identity_on_open_witness :
  effects_since (run init [Api (Connect cfg0)])
    (step (run init [Api (Connect cfg0)]) (WsOpen 0%nat))
  = [WsSend 0%nat (OutIdentity (js "User") (js "secret"))].
Proof.
  exact (proj1 (identity_on_open (run init [Api (Connect cfg0)]) 0%nat
                  (mkAttempt (buildWebSocketUrl (url cfg0)) CONNECTING Pending ByConnect)
                  cfg0 eq_refl eq_refl eq_refl eq_refl)).
Defined.

(** X9. The connect button does nothing without a server address; with
    one, it calls [connect] with a config whose display name is the field
    or [User] and whose password is the field, or none when it is empty.
    When the browser accepts the derived address, the new socket is the
    current one, and when it opens the identity message is sent exactly
    when the password field is not empty. When [new WebSocket] throws on
    the address typed in, no socket is created, [connecting] is false and
    the message of the exception is stored in [error]. *)
Theorem connect_button (serverUrl pass name : jsstring) (w : World) :
  handleConnect [] pass name w = w
  /\ (serverUrl <> [] ->
      config (handleConnect serverUrl pass name w)
      = Some (config_of serverUrl pass name)
      /\ match throws w (buildWebSocketUrl serverUrl) with
         | None =>
             ws (handleConnect serverUrl pass name w) = Some (length (sockets w))
             /\ effects_since (handleConnect serverUrl pass name w)
                  (step (handleConnect serverUrl pass name w)
                     (WsOpen (length (sockets w))))
                = match pass with
                  | [] => []
                  | _ => [WsSend (length (sockets w))
                            (OutIdentity (or_else name (js "User")) pass)]
                  end
         | Some message =>
             length (sockets (handleConnect serverUrl pass name w))
             = length (sockets w)
             /\ connecting (state (handleConnect serverUrl pass name w)) = false
             /\ error (state (handleConnect serverUrl pass name w)) = Some message
         end).
Proof.
  split; [reflexivity |]. intros Hne.
  assert (E : handleConnect serverUrl pass name w
              = call (Connect (config_of serverUrl pass name)) w)
    by (destruct serverUrl; [contradiction | reflexivity]).
  rewrite E.
  destruct (connect_alone (config_of serverUrl pass name) w) as (Hc & _ & _ & H).
  split; [assumption |]. cbn [url config_of] in H.
  destruct (throws w (buildWebSocketUrl serverUrl)) as [m|].
  - destruct H as (_ & Hl & _ & Hcon & Herr & _). auto.
  - destruct H as (Hws & Hs & _).
    split; [assumption |].
    destruct (identity_fields (call (Connect (config_of serverUrl pass name)) w)
                (length (sockets w)) _ _ Hs eq_refl Hws Hc) as [H _].
    rewrite H. destruct pass as [| c pass]; [reflexivity |].
    cbn. destruct name; reflexivity.
Qed.

Lemma connect_button_witness :
  config (handleConnect (js "neko.local") [] [] init)
  = Some {| url := js "neko.local"; password := None;
            displayName := Some (js "User") |}
  /\ effects_since (handleConnect (js "neko.local") [] [] init)
       (step (handleConnect (js "neko.local") [] [] init) (WsOpen 0%nat))
     = [].
Proof.
  destruct (proj2 (connect_button (js "neko.local") [] [] init) ltac:(discriminate))
    as (Hc & _ & Ho).
  split; [exact Hc | exact Ho].
Defined.

(** What a rejection of a pending promise held by [connect] does. *)
Lemma reject_pending (i : nat) (a : Attempt) (message : jsstring) (w : World) :
  sockets w !! i = Some a -> a_promise a = Pending -> a_caller a = ByConnect ->
  reject i message w
  = connect_catch message
      (set_sockets (<[i := set_promise (Rejected message) a]> (sockets w)) w).
Proof. intros Hi Hp Hc. unfold reject. now rewrite Hi, Hp, Hc. Qed.

Lemma reject_settled (i : nat) (a : Attempt) (message : jsstring) (w : World) :
  sockets w !! i = Some a -> a_promise a <> Pending -> reject i message w = w.
Proof.
  intros Hi Hp. unfold reject. rewrite Hi. now destruct (a_promise a).
Qed.

Lemma promise_insert (i : nat) (a x : Attempt) (w : World) :
  sockets w !! i = Some a ->
  promise i (set_sockets (<[i := x]> (sockets w)) w) = Some (a_promise x).
Proof.
  intros Hi. unfold promise. cbn [sockets set_sockets].
  rewrite list_lookup_insert_eq by (now apply lookup_lt_Some in Hi).
  reflexivity.
Qed.

(** X10. When the 10 s timer of a [connect] attempt fires while the client
    is connecting and not connected, the pending promise is rejected with
    [Connection timeout], [connecting] is cleared, the message is stored in
    [error] and passed to [onError]; the socket is neither closed nor
    released. When the client is connected, or no longer connecting, the
    timer does nothing. *)
Theorem connect_timeout_fires (w : World) (t i : nat) (tm : Timer) (a : Attempt) :
  timers w !! t = Some tm -> t_kind tm = ConnectTimeout i -> t_fired tm = false ->
  sockets w !! i = Some a -> a_promise a = Pending -> a_caller a = ByConnect ->
  (connecting (state w) && negb (connected (state w)) = true ->
   promise i (step w (TimerFire t)) = Some (Rejected (js "Connection timeout"))
   /\ state (step w (TimerFire t))
      = set_error (Some (js "Connection timeout")) (set_connecting false (state w))
   /\ effects_since w (step w (TimerFire t)) = [OnError (js "Connection timeout")]
   /\ ws (step w (TimerFire t)) = ws w
   /\ (a_ready <$> sockets (step w (TimerFire t)) !! i) = Some (a_ready a))
  /\ (connecting (state w) && negb (connected (state w)) = false ->
      step w (TimerFire t) = set_timers (<[t := fire tm]> (timers w)) w).
Proof.
  intros Ht Hk Hf Hi Hp Hc. cbn [step]. rewrite Ht, Hf, Hk.
  unfold connect_timeout. cbn [state set_timers]. split; intros Hcon; rewrite Hcon;
    [| reflexivity].
  rewrite (reject_pending i a) by assumption.
  repeat split.
  - unfold promise, connect_catch, upd_state.
    cbn [sockets set_sockets set_state emit set_timers].
    rewrite list_lookup_insert_eq by (now apply lookup_lt_Some in Hi).
    reflexivity.
  - apply effects_since_app. reflexivity.
  - unfold connect_catch, upd_state.
    cbn [sockets set_sockets set_state emit set_timers].
    rewrite list_lookup_insert_eq by (now apply lookup_lt_Some in Hi).
    reflexivity.
Qed.

Lemma connect_timeout_fires_witness :
  promise 0%nat (step awaiting_offer (TimerFire 0%nat))
  = Some (Rejected (js "Connection timeout"))
  /\ ws (step awaiting_offer (TimerFire 0%nat)) = ws awaiting_offer.
Proof.
  assert (H : connecting (state awaiting_offer)
              && negb (connected (state awaiting_offer)) = true)
    by (vm_compute; reflexivity).
  destruct (proj1 (connect_timeout_fires awaiting_offer 0 0
              (mkTimer (ConnectTimeout 0) 10000 false)
              (mkAttempt (buildWebSocketUrl (url cfg0)) OPEN Pending ByConnect)
              ltac:(vm_compute; reflexivity) ltac:(vm_compute; reflexivity)
              ltac:(vm_compute; reflexivity) ltac:(vm_compute; reflexivity)
              ltac:(vm_compute; reflexivity) ltac:(vm_compute; reflexivity)) H)
    as (H1 & _ & _ & H4 & _).
  split; [exact H1 | exact H4].
Defined.

(** X11. An [error] event of a socket stores [WebSocket connection failed]
    in [error] and closes or releases nothing. If the promise of that
    attempt is pending and held by [connect], it is rejected with that
    message, [connecting] is cleared and [onError] is invoked once; if the
    promise has settled, nothing else changes and no callback is invoked. *)
Theorem socket_error (w : World) (i : nat) (a : Attempt) :
  sockets w !! i = Some a -> is_closed (a_ready a) = false ->
  error (state (step w (WsError i))) = Some (js "WebSocket connection failed")
  /\ ws (step w (WsError i)) = ws w /\ pc (step w (WsError i)) = pc w
  /\ dataChannel (step w (WsError i)) = dataChannel w
  /\ connected (state (step w (WsError i))) = connected (state w)
  /\ controlling (state (step w (WsError i))) = controlling (state w)
  /\ (a_promise a = Pending -> a_caller a = ByConnect ->
      promise i (step w (WsError i))
      = Some (Rejected (js "WebSocket connection failed"))
      /\ connecting (state (step w (WsError i))) = false
      /\ effects_since w (step w (WsError i))
         = [OnError (js "WebSocket connection failed")])
  /\ (a_promise a <> Pending ->
      step w (WsError i)
      = upd_state (set_error (Some (js "WebSocket connection failed"))) w).
Proof.
  intros Hi Ha. cbn [step]. rewrite Hi, Ha. unfold ws_onerror.
  set (msg := js "WebSocket connection failed").
  set (w1 := upd_state (set_error (Some msg)) w).
  assert (Hi1 : sockets w1 !! i = Some a) by exact Hi.
  assert (Hframe : error (state (reject i msg w1)) = Some msg
                   /\ ws (reject i msg w1) = ws w /\ pc (reject i msg w1) = pc w
                   /\ dataChannel (reject i msg w1) = dataChannel w
                   /\ connected (state (reject i msg w1)) = connected (state w)
                   /\ controlling (state (reject i msg w1)) = controlling (state w)).
  { unfold reject. rewrite Hi1.
    destruct (a_promise a); [destruct (a_caller a) | |]; now cbn. }
  destruct Hframe as (H1 & H2 & H3 & H4 & H5 & H6).
  repeat split; try assumption.
  - rewrite (reject_pending i a) by assumption.
    unfold connect_catch, upd_state, promise.
    cbn [sockets set_state emit set_sockets]. subst w1. unfold upd_state.
    cbn [sockets set_state].
    rewrite list_lookup_insert_eq by (now apply lookup_lt_Some in Hi).
    reflexivity.
  - rewrite (reject_pending i a) by assumption. reflexivity.
  - rewrite (reject_pending i a) by assumption.
    apply effects_since_app. reflexivity.
  - intros Hp. now apply (reject_settled i a).
Qed.

Lemma socket_error_witness :
  promise 0%nat (step awaiting_offer (WsError 0%nat))
  = Some (Rejected (js "WebSocket connection failed"))
  /\ step in_control (WsError 0%nat)
     = upd_state (set_error (Some (js "WebSocket connection failed"))) in_control.
Proof.
  split.
  - destruct (socket_error awaiting_offer 0
                (mkAttempt (buildWebSocketUrl (url cfg0)) OPEN Pending ByConnect)
                ltac:(vm_compute; reflexivity) ltac:(vm_compute; reflexivity))
      as (_ & _ & _ & _ & _ & _ & H & _).
    exact (proj1 (H ltac:(vm_compute; reflexivity) ltac:(vm_compute; reflexivity))).
  - destruct (socket_error in_control 0
                (mkAttempt (buildWebSocketUrl (url cfg0)) OPEN Resolved ByConnect)
                ltac:(vm_compute; reflexivity) ltac:(vm_compute; reflexivity))
      as (_ & _ & _ & _ & _ & _ & _ & H).
    apply H. discriminate.
Defined.

(** *** The end of a session *)

Lemma closes_frame (w w' : World) :
  dataChannel w' = dataChannel w -> pc w' = pc w -> ws w' = ws w ->
  closes w' = closes w.
Proof. unfold closes. now intros -> -> ->. Qed.

Lemma handleDisconnect_effects r w :
  ws (handleDisconnect r w) = None /\ pc (handleDisconnect r w) = None
  /\ dataChannel (handleDisconnect r w) = None
  /\ trace (handleDisconnect r w) = trace w ++ teardown_effects r w.
Proof.
  unfold handleDisconnect, teardown_effects. cbv zeta.
  set (w0 := if connected (state w) then _ else _).
  set (w1 := cleanup w0).
  assert (H0 : dataChannel w0 = dataChannel w /\ pc w0 = pc w /\ ws w0 = ws w
               /\ trace w0 = trace w
                    ++ (if connected (state w) then [OnDisconnected r] else [])
               /\ config w0 = config w
               /\ reconnectAttempts w0 = reconnectAttempts w
               /\ timers w0 = timers w).
  { subst w0. destruct (connected (state w)); cbn; now rewrite ?app_nil_r. }
  destruct H0 as (Hd & Hp & Hw & Ht & Hc & Ha & Hti).
  assert (H1 : ws w1 = None /\ pc w1 = None /\ dataChannel w1 = None
               /\ trace w1 = trace w0 ++ closes w
               /\ config w1 = config w
               /\ reconnectAttempts w1 = reconnectAttempts w
               /\ timers w1 = timers w).
  { subst w1. destruct (cleanup_releases w0) as (E1 & E2 & E3).
    rewrite trace_cleanup, config_cleanup, reconnectAttempts_cleanup,
      timers_cleanup, (closes_frame w w0) by assumption. auto 10. }
  destruct H1 as (E1 & E2 & E3 & E4 & E5 & E6 & E7). clearbody w1. clearbody w0.
  unfold retries. rewrite E5, E6.
  destruct (connected (state w) && bool_decide (is_Some (config w))
            && (reconnectAttempts w <? maxReconnectAttempts));
    cbn; rewrite ?E1, ?E2, ?E3, ?E4, ?E6, ?E7, ?Ht, <- ?app_assoc, ?app_nil_r;
    auto.
Qed.

Lemma promise_frame (i : nat) (w w' : World) :
  sockets w' = sockets w -> promise i w' = promise i w.
Proof. unfold promise. now intros ->. Qed.

Lemma promise_cleanup i w : promise i (cleanup w) = promise i w.
Proof.
  unfold promise. rewrite sockets_cleanup. destruct (ws w) as [j|]; [| reflexivity].
  destruct (decide (j = i)) as [-> | Hne].
  - rewrite list_lookup_alter_eq. now destruct (sockets w !! i).
  - now rewrite list_lookup_alter_ne.
Qed.

Lemma promise_handleDisconnect i r w :
  promise i (handleDisconnect r w) = promise i w.
Proof.
  unfold promise. rewrite sockets_handleDisconnect. apply promise_cleanup.
Qed.

Lemma promise_set_ready i j a r w :
  sockets w !! j = Some a ->
  promise i (set_sockets (<[j := set_ready r a]> (sockets w)) w) = promise i w.
Proof.
  intros Hj. unfold promise. cbn [sockets set_sockets].
  destruct (decide (j = i)) as [-> | Hne].
  - rewrite list_lookup_insert_eq by (now apply lookup_lt_Some in Hj).
    now rewrite Hj.
  - now rewrite list_lookup_insert_ne.
Qed.

(** The events that end a session run [handleDisconnect] on a world that
    differs from the given one in the ready state of a socket or the state
    of a peer connection only. *)
Lemma session_end_step w e :
  ends_session w e = true ->
  exists w0,
    step w e = handleDisconnect (end_reason e) w0
    /\ state w0 = state w /\ config w0 = config w
    /\ reconnectAttempts w0 = reconnectAttempts w /\ timers w0 = timers w
    /\ ws w0 = ws w /\ pc w0 = pc w /\ dataChannel w0 = dataChannel w
    /\ trace w0 = trace w
    /\ (forall i, promise i w0 = promise i w).
Proof.
  destruct e; try discriminate; cbn [ends_session step end_reason].
  - destruct (sockets w !! i) as [a|] eqn:Hi; [| discriminate].
    destruct (is_closed (a_ready a)); [discriminate |]. intros _.
    unfold ws_onclose. eexists. split; [destruct reason; reflexivity |].
    repeat split. intros j. now apply promise_set_ready.
  - destruct (pc w) as [p'|] eqn:Hpc; [| discriminate].
    destruct (peers w !! p) as [old|] eqn:Hp; [| discriminate].
    intros H. apply andb_true_iff in H as [H Hs].
    apply andb_true_iff in H as [Hpp Hold]. apply Nat.eqb_eq in Hpp. subst p'.
    rewrite Hold.
    assert (Hlook : <[p := s]> (peers w) !! p = Some s).
    { apply list_lookup_insert_eq. now apply lookup_lt_Some in Hp. }
    unfold pc_onconnectionstatechange. cbn [pc peers set_peers].
    rewrite Hpc, Hlook.
    destruct s; try discriminate; cbn [pc_alive andb];
      eexists; (split; [reflexivity |]); repeat split; assumption.
Qed.

Lemma count_teardown r w :
  count is_OnDisconnected (teardown_effects r w)
  = if connected (state w) then 1%nat else 0%nat.
Proof.
  unfold teardown_effects, count, closes.
  destruct (connected (state w)), (dataChannel w), (pc w), (ws w), (retries w);
    reflexivity.
Qed.

Lemma teardown_frame r w w0 :
  state w0 = state w -> config w0 = config w ->
  reconnectAttempts w0 = reconnectAttempts w -> timers w0 = timers w ->
  ws w0 = ws w -> pc w0 = pc w -> dataChannel w0 = dataChannel w ->
  teardown_effects r w0 = teardown_effects r w.
Proof.
  intros Hs Hc Ha Ht Hw Hp Hd. unfold teardown_effects, retries.
  now rewrite Hs, Hc, Ha, Ht, (closes_frame w w0).
Qed.

(** X12. When a socket closes, or the current peer connection turns
    [disconnected] or [failed], the client ends up holding no socket, peer
    connection or data channel, with [connected], [connecting] and
    [controlling] false and the video size, error and config kept; it
    invokes [onDisconnected] once, before closing anything, exactly when
    it was connected, then closes what it holds, then starts the reconnect
    timer if one is due. *)
Theorem session_teardown (w : World) (e : Event) :
  ends_session w e = true ->
  ws (step w e) = None /\ pc (step w e) = None /\ dataChannel (step w e) = None
  /\ state (step w e)
     = set_controlling false (set_connecting false (set_connected false (state w)))
  /\ config (step w e) = config w
  /\ effects_since w (step w e) = teardown_effects (end_reason e) w
  /\ count is_OnDisconnected (effects_since w (step w e))
     = if connected (state w) then 1%nat else 0%nat.
Proof.
  intros He.
  destruct (session_end_step w e He)
    as (w0 & -> & Hs & Hc & Ha & Ht & Hw & Hp & Hd & Htr & _).
  destruct (handleDisconnect_effects (end_reason e) w0) as (E1 & E2 & E3 & E4).
  destruct (handleDisconnect_fields (end_reason e) w0) as (E5 & _).
  assert (Heff : effects_since w (handleDisconnect (end_reason e) w0)
                 = teardown_effects (end_reason e) w).
  { apply effects_since_app.
    now rewrite E4, Htr, (teardown_frame _ w w0). }
  repeat split; try assumption.
  - now rewrite state_handleDisconnect, Hs.
  - congruence.
  - rewrite Heff. apply count_teardown.
Qed.

Lemma session_teardown_witness :
  effects_since in_control (step in_control (PcConnectionState 0%nat Cfailed))
  = [OnDisconnected (js "WebRTC connection failed"); DcCloseCall 0%nat;
     PcCloseCall 0%nat; WsCloseCall 0%nat; SetTimeout 1%nat 2000].
Proof.
  destruct (session_teardown in_control (PcConnectionState 0%nat Cfailed)
              ltac:(vm_compute; reflexivity)) as (_ & _ & _ & _ & _ & H & _).
  rewrite H. vm_compute. reflexivity.
Defined.

(** X13. A session that ends before it was connected (the host closes the
    socket after a wrong password, say) is torn down silently: the only
    effects are the [close()] calls, no callback is invoked, no reconnect
    timer is started, and every promise, the pending one of [connect]
    included, is left as it was. *)
Theorem silent_teardown (w : World) (e : Event) :
  ends_session w e = true -> connected (state w) = false ->
  effects_since w (step w e) = closes w
  /\ timers (step w e) = timers w
  /\ reconnectAttempts (step w e) = reconnectAttempts w
  /\ (forall i, promise i (step w e) = promise i w).
Proof.
  intros He Hcon.
  destruct (session_end_step w e He)
    as (w0 & -> & Hs & Hc & Ha & Ht & Hw & Hp & Hd & Htr & Hpr).
  destruct (handleDisconnect_effects (end_reason e) w0) as (_ & _ & _ & E4).
  destruct (handleDisconnect_fields (end_reason e) w0) as (_ & _ & E6).
  assert (Hr : retries w0 = false) by (unfold retries; now rewrite Hs, Hcon).
  rewrite Hr in E6. destruct E6 as [E6 E7].
  repeat split; try congruence.
  - apply effects_since_app.
    rewrite E4, Htr, (teardown_frame _ w w0) by assumption.
    unfold teardown_effects, retries. rewrite Hcon. cbn. now rewrite app_nil_r.
  - intros i. now rewrite promise_handleDisconnect.
Qed.

Lemma silent_teardown_witness :
  effects_since awaiting_offer (step awaiting_offer (WsClose 0%nat []))
  = [WsCloseCall 0%nat]
  /\ promise 0%nat (step awaiting_offer (WsClose 0%nat [])) = Some Pending.
Proof.
  destruct (silent_teardown awaiting_offer (WsClose 0%nat [])
              ltac:(vm_compute; reflexivity) ltac:(vm_compute; reflexivity))
    as (H1 & _ & _ & H4).
  split; [rewrite H1 | rewrite H4]; vm_compute; reflexivity.
Defined.

(** *** Handles stay live *)

Lemma ws_live_insert h l j x :
  (forall a, l !! j = Some a -> live_socket (a_ready a) = true ->
             live_socket (a_ready x) = true) ->
  ws_live h l -> ws_live h (<[j := x]> l).
Proof.
  destruct h as [i|]; [| auto]. unfold ws_live. intros Hx H.
  destruct (decide (j = i)) as [-> | Hne].
  - destruct (l !! i) as [a|] eqn:E; [| discriminate].
    rewrite list_lookup_insert_eq by (now apply lookup_lt_Some in E).
    cbn in *. injection H as H. f_equal. eauto.
  - now rewrite list_lookup_insert_ne.
Qed.

Lemma ws_live_app h l l' : ws_live h l -> ws_live h (l ++ l').
Proof.
  destruct h as [i|]; [| auto]. unfold ws_live. intros H.
  destruct (l !! i) as [a|] eqn:E; [| discriminate].
  now rewrite (lookup_app_l_Some _ _ _ _ E).
Qed.

Lemma ws_live_new l x :
  live_socket (a_ready x) = true -> ws_live (Some (length l)) (l ++ [x]).
Proof.
  intros H. unfold ws_live. rewrite list_lookup_middle by reflexivity.
  cbn. now rewrite H.
Qed.

Lemma pc_live_insert h l j s :
  pc_alive s = true -> pc_live h l -> pc_live h (<[j := s]> l).
Proof.
  destruct h as [i|]; [| auto]. unfold pc_live. intros Hs H.
  destruct (decide (j = i)) as [-> | Hne].
  - destruct (l !! i) as [a|] eqn:E; [| discriminate].
    rewrite list_lookup_insert_eq by (now apply lookup_lt_Some in E).
    cbn. now rewrite Hs.
  - now rewrite list_lookup_insert_ne.
Qed.

Lemma dc_known_length h l l' :
  length l' = length l -> dc_known h l -> dc_known h l'.
Proof.
  destruct h as [d|]; [| auto]. unfold dc_known. intros Hl H.
  apply lookup_lt_is_Some. rewrite Hl. now apply lookup_lt_is_Some.
Qed.

Lemma dc_known_app h l l' : dc_known h l -> dc_known h (l ++ l').
Proof.
  destruct h as [d|]; [| auto]. unfold dc_known. intros H.
  apply lookup_lt_is_Some. rewrite length_app.
  apply lookup_lt_is_Some in H. lia.
Qed.

Lemma send_cases m w : send m w = w \/ exists i, send m w = emit (WsSend i m) w.
Proof.
  unfold send. destruct (ws w); [destruct (ws_open w) |]; eauto.
Qed.

Lemma sendBinary_cases d w :
  sendBinary d w = w \/ exists c, sendBinary d w = emit (DcSend c d) w.
Proof.
  unfold sendBinary. destruct (dataChannel w); [destruct (dc_open w) |]; eauto.
Qed.

Lemma input_cases c w :
  is_input c = true -> call c w = w \/ exists e, call c w = emit e w.
Proof.
  destruct c; try discriminate; intros _; cbn [call];
    unfold sendMouseMove, sendMouseScroll, sendMouseButton, sendKeyEvent;
    destruct (controlling (state w)); cbn [negb]; auto;
    try (destruct (getKeysym event); auto);
    match goal with
    | |- context [sendBinary ?d w] =>
        destruct (sendBinary_cases d w) as [-> | [c ->]]; eauto
    end.
Qed.

Lemma handleSignalCandidate_cases c w :
  handleSignalCandidate c w = w
  \/ exists e, handleSignalCandidate c w = emit e w.
Proof.
  unfold handleSignalCandidate. destruct (pc w); [destruct c |]; eauto.
Qed.

Lemma holds_live_emit e w : holds_live w -> holds_live (emit e w).
Proof. auto. Qed.

Lemma holds_live_released w :
  ws w = None -> pc w = None -> dataChannel w = None ->
  connected (state w) = false -> holds_live w.
Proof.
  unfold holds_live. intros -> -> -> ->. cbn. repeat split. discriminate.
Qed.

Lemma holds_live_handleDisconnect r w : holds_live (handleDisconnect r w).
Proof.
  destruct (handleDisconnect_effects r w) as (H1 & H2 & H3 & _).
  apply holds_live_released; try assumption.
  now rewrite state_handleDisconnect.
Qed.

Lemma holds_live_disconnect w : holds_live (disconnect w).
Proof.
  destruct (cleanup_releases (set_config None w)) as (H1 & H2 & H3).
  now apply holds_live_released.
Qed.

Lemma holds_live_reject i m w : holds_live w -> holds_live (reject i m w).
Proof.
  intros (H1 & H2 & H3 & H4). unfold reject.
  destruct (sockets w !! i) as [a|] eqn:Hi; [| repeat split; assumption].
  destruct (a_promise a); try (repeat split; assumption).
  assert (Hl : ws_live (ws w) (<[i := set_promise (Rejected m) a]> (sockets w))).
  { apply ws_live_insert; [| assumption].
    intros b Hb. rewrite Hi in Hb. now injection Hb as <-. }
  destruct (a_caller a); repeat split; assumption.
Qed.

Lemma holds_live_resolve i w : holds_live w -> holds_live (resolve i w).
Proof.
  intros (H1 & H2 & H3 & H4). unfold resolve.
  destruct (sockets w !! i) as [a|] eqn:Hi; [| repeat split; assumption].
  destruct (a_promise a); try (repeat split; assumption).
  repeat split; try assumption.
  apply ws_live_insert; [| assumption].
  intros b Hb. rewrite Hi in Hb. now injection Hb as <-.
Qed.

Lemma holds_live_send m w : holds_live w -> holds_live (send m w).
Proof. intros H. now destruct (send_cases m w) as [-> | [i ->]]. Qed.

Lemma holds_live_establishConnection who w :
  holds_live w -> holds_live (fst (establishConnection who w)).
Proof.
  intros (H1 & H2 & H3 & H4). unfold establishConnection.
  destruct (config w) as [cfg|]; [| repeat split; assumption].
  destruct (throws w (buildWebSocketUrl (url cfg)));
    [repeat split; assumption |].
  repeat split; try assumption. now apply ws_live_new.
Qed.

Lemma holds_live_connect_body cfg w :
  holds_live w -> holds_live (fst (connect_body cfg w)).
Proof.
  intros (H1 & H2 & H3 & H4).
  destruct (connect_body_inv cfg w) as (s & -> & _). cbn [fst].
  apply holds_live_establishConnection. repeat split; assumption.
Qed.

Lemma holds_live_call c w :
  is_connect_call c = false -> holds_live w -> holds_live (call c w).
Proof.
  intros Hc H.
  destruct c; try discriminate;
    try (match goal with
         | |- holds_live (call ?c w) =>
             destruct (input_cases c w eq_refl) as [-> | [e ->]]; assumption
         end);
    cbn [call].
  - apply holds_live_disconnect.
  - now apply holds_live_send.
  - unfold releaseControl.
    destruct (send_cases OutControlRelease w) as [-> | [i ->]];
      destruct H as (H1 & H2 & H3 & H4); repeat split; assumption.
Qed.

Lemma holds_live_turn jobs w : holds_live w -> holds_live (turn jobs w).
Proof.
  apply turn_keeps.
  - intros c v. apply holds_live_call.
  - intros cfg v _. apply holds_live_connect_body.
  - intros m v (H1 & H2 & H3 & H4). repeat split; assumption.
Qed.

Lemma holds_live_pc_onconnectionstatechange w :
  holds_live w -> holds_live (pc_onconnectionstatechange w).
Proof.
  intros H. unfold pc_onconnectionstatechange.
  destruct (pc w) as [p|] eqn:Hpc; [| exact H].
  destruct (peers w !! p) as [[]|]; try exact H;
    try apply holds_live_handleDisconnect.
  destruct H as (H1 & H2 & H3 & H4). repeat split; try assumption.
  intros _. cbn. rewrite Hpc. eauto.
Qed.

Lemma holds_live_step w e : holds_live w -> holds_live (step w e).
Proof.
  intros H.
  destruct e as [c | jobs | i | i m | i | i r | t | n ok | p s | p | p | d | d];
    cbn [step].
  - rewrite <- call_turn. now apply holds_live_turn.
  - now apply holds_live_turn.
  - destruct (sockets w !! i) as [a|] eqn:Hi; [| assumption].
    destruct (a_ready a); try assumption.
    assert (H' : holds_live (set_sockets (<[i := set_ready OPEN a]> (sockets w)) w)).
    { destruct H as (H1 & H2 & H3 & H4). repeat split; try assumption.
      apply ws_live_insert; auto. }
    unfold ws_onopen. cbn [config set_sockets].
    destruct (config w) as [cfg|]; [| assumption].
    destruct (nonempty (password cfg)); [now apply holds_live_send | assumption].
  - destruct (sockets w !! i) as [a|]; [| assumption].
    destruct (is_open (a_ready a)); [| assumption].
    destruct H as (H1 & H2 & H3 & H4).
    destruct m as [[]|]; try (repeat split; assumption).
    + repeat split; try assumption; cbn.
      * unfold pc_live. rewrite list_lookup_middle by reflexivity. reflexivity.
      * eauto.
    + unfold ws_onmessage, handleMessage.
      destruct (handleSignalCandidate_cases candidate w) as [-> | [e ->]];
        repeat split; assumption.
  - destruct (sockets w !! i) as [a|]; [| assumption].
    destruct (is_closed (a_ready a)); [assumption |].
    unfold ws_onerror. apply holds_live_reject.
    destruct H as (H1 & H2 & H3 & H4). repeat split; assumption.
  - destruct (sockets w !! i) as [a|]; [| assumption].
    destruct (is_closed (a_ready a)); [assumption |].
    apply holds_live_handleDisconnect.
  - destruct (timers w !! t) as [tm|]; [| assumption].
    destruct (t_fired tm); [assumption |].
    assert (H' : holds_live (set_timers (<[t := fire tm]> (timers w)) w))
      by (destruct H as (H1 & H2 & H3 & H4); repeat split; assumption).
    destruct (t_kind tm) as [i|].
    + unfold connect_timeout.
      match goal with |- context [if ?b then _ else _] => destruct b end;
        [now apply holds_live_reject | assumption].
    + now apply holds_live_establishConnection.
  - destruct (tasks w !! n) as [k|]; [| assumption].
    unfold resume. destruct ok; cbn [negb]; [| exact H].
    destruct (k_stage k); try exact H.
    + destruct (pc w); exact H.
    + destruct (pc w); exact H.
    + assert (H' : holds_live (resolve (k_attempt k) (send OutAnswer w)))
        by now apply holds_live_resolve, holds_live_send.
      exact H'.
  - destruct (peers w !! p) as [old|] eqn:Hp; [| assumption].
    destruct (pc_alive old && pc_alive s) eqn:Hal; [| assumption].
    apply andb_true_iff in Hal as [_ Hs].
    apply holds_live_pc_onconnectionstatechange.
    destruct H as (H1 & H2 & H3 & H4). repeat split; try assumption.
    now apply pc_live_insert.
  - destruct (peers w !! p) as [s|]; [| assumption].
    destruct (pc_alive s); [| assumption].
    now apply holds_live_send.
  - destruct (peers w !! p) as [s|]; [| assumption].
    destruct (pc_alive s); [| assumption].
    destruct H as (H1 & H2 & H3 & H4). repeat split; try assumption.
    cbn. unfold dc_known. rewrite list_lookup_middle by reflexivity. eauto.
  - destruct H as (H1 & H2 & H3 & H4).
    destruct (channels w !! d) as [[]|]; repeat split; try assumption.
    cbn. eapply dc_known_length; [| eassumption]. apply length_insert.
  - destruct H as (H1 & H2 & H3 & H4).
    destruct (channels w !! d) as [r|]; repeat split; try assumption.
    cbn. eapply dc_known_length; [| eassumption]. apply length_insert.
Qed.

(** X14. In every reachable state the handles the client holds are live:
    its socket is connecting or open (never one it has closed or seen
    close), its peer connection is not closed, its data channel exists; and
    whenever [connected] is true it holds a peer connection. *)
Theorem handles_stay_live (browser : jsstring -> option jsstring)
    (es : list Event) :
  holds_live (run (new_client browser) es).
Proof.
  induction es as [| e es IH] using rev_ind.
  - apply holds_live_released; reflexivity.
  - rewrite run_snoc. now apply holds_live_step.
Qed.

(** *** What inbound messages and other events can and cannot do *)

(** X15. No signaling message, whatever its kind or content, tears the
    session down or changes the connection: [connected], [connecting],
    [error], the config, the socket and data channel held, the sockets and
    their promises, the timers and the reconnect count are as before; only
    an offer replaces the peer connection and starts a task. *)
Theorem message_frame (w : World) (i : nat) (m : option Message) :
  connected (state (step w (WsMessage i m))) = connected (state w)
  /\ connecting (state (step w (WsMessage i m))) = connecting (state w)
  /\ error (state (step w (WsMessage i m))) = error (state w)
  /\ config (step w (WsMessage i m)) = config w
  /\ ws (step w (WsMessage i m)) = ws w
  /\ dataChannel (step w (WsMessage i m)) = dataChannel w
  /\ sockets (step w (WsMessage i m)) = sockets w
  /\ timers (step w (WsMessage i m)) = timers w
  /\ reconnectAttempts (step w (WsMessage i m)) = reconnectAttempts w
  /\ (m <> Some SignalProvide ->
      pc (step w (WsMessage i m)) = pc w
      /\ peers (step w (WsMessage i m)) = peers w
      /\ tasks (step w (WsMessage i m)) = tasks w).
Proof.
  cbn [step]. destruct (sockets w !! i) as [a|]; [| now repeat split].
  destruct (is_open (a_ready a)); [| now repeat split].
  destruct m as [[]|]; try (now repeat split).
  unfold ws_onmessage, handleMessage.
  destruct (handleSignalCandidate_cases candidate w) as [-> | [e ->]];
    now repeat split.
Qed.

Ltac flags :=
  repeat match goal with
         | H : state _ = _ |- _ => rewrite H; clear H
         end;
  cbn [state set_sockets set_timers set_peers set_tasks set_channels
       set_config set_ws set_pc set_dataChannel set_memberId
       set_reconnectAttempts emit set_state upd_state pc_ondatachannel];
  try match goal with
      | w : World |- _ => destruct (state w) as [[] [] [] ? ? ?]
      end;
  cbn; repeat split; intros; first [congruence | solve [eauto]].

Lemma flags_turn (jobs : list Job) (w : World) :
  (controlling (state w) = false -> controlling (state (turn jobs w)) = false)
  /\ (connected (state w) = false -> connected (state (turn jobs w)) = false)
  /\ (connecting (state w) = false -> connecting (state (turn jobs w)) = true ->
      exists cfg, In (Do (Connect cfg)) jobs).
Proof.
  split; [| split].
  - apply (turn_keeps (fun v => controlling (state v) = false)).
    + intros c v Hc Hv. destruct (state_call c v Hc) as [-> | [-> | ->]]; auto.
    + intros cfg v _ Hv. now rewrite state_connect_body.
    + intros m v Hv. exact Hv.
  - apply (turn_keeps (fun v => connected (state v) = false)).
    + intros c v Hc Hv. destruct (state_call c v Hc) as [-> | [-> | ->]]; auto.
    + intros cfg v _ Hv. now rewrite state_connect_body.
    + intros m v Hv. exact Hv.
  - intros Hw Ht. destruct (existsb does_connect jobs) eqn:Hjobs.
    + apply existsb_exists in Hjobs as ([[] | n] & Hin & Hj);
        try discriminate. eauto.
    + destruct (ok_change_turn jobs w) as (_ & _ & H).
      rewrite Hjobs in H. rewrite (H eq_refl Hw) in Ht. discriminate.
Qed.

(** X16. The three flags are raised by one kind of event each:
    [controlling] becomes true only on a [control/give] message of the
    host, [connected] only in the connection-state handler of a peer
    connection (not when the answer is sent), and [connecting] only in a
    turn in which [connect] is called. *)
Theorem flags_raised_by (w : World) (e : Event) :
  (controlling (state w) = false -> controlling (state (step w e)) = true ->
   exists i, e = WsMessage i (Some ControlGive))
  /\ (connected (state w) = false -> connected (state (step w e)) = true ->
      exists p s, e = PcConnectionState p s)
  /\ (connecting (state w) = false -> connecting (state (step w e)) = true ->
      (exists cfg, e = Api (Connect cfg))
      \/ (exists jobs cfg, e = Turn jobs /\ In (Do (Connect cfg)) jobs)).
Proof.
  destruct e as [c | jobs | i | i m | i | i r | t | n ok | p s | p | p | d | d];
    cbn [step].
  - destruct (flags_turn [Do c] w) as (H1 & H2 & H3).
    rewrite call_turn in H1, H2, H3.
    split; [| split].
    + intros Hw Ht. rewrite (H1 Hw) in Ht. discriminate.
    + intros Hw Ht. rewrite (H2 Hw) in Ht. discriminate.
    + intros Hw Ht. destruct (H3 Hw Ht) as (cfg & [[= ->] | []]). eauto.
  - destruct (flags_turn jobs w) as (H1 & H2 & H3).
    split; [| split].
    + intros Hw Ht. rewrite (H1 Hw) in Ht. discriminate.
    + intros Hw Ht. rewrite (H2 Hw) in Ht. discriminate.
    + intros Hw Ht. destruct (H3 Hw Ht) as (cfg & Hin). eauto.
  - destruct (sockets w !! i) as [a|]; [| flags].
    destruct (a_ready a); try flags. rewrite state_ws_onopen. flags.
  - destruct (sockets w !! i) as [a|]; [| flags].
    destruct (is_open (a_ready a)); [| flags].
    rewrite state_ws_onmessage. destruct m as [m|]; [| flags].
    rewrite state_handleMessage. destruct m; flags.
  - destruct (sockets w !! i) as [a|]; [| flags].
    destruct (is_closed (a_ready a)); [flags |].
    unfold ws_onerror.
    match goal with |- context [reject i ?m ?w'] =>
      destruct (state_reject i m w') as [H | H]; rewrite H; clear H end;
      cbn [state upd_state set_state]; flags.
  - destruct (sockets w !! i) as [a|]; [| flags].
    destruct (is_closed (a_ready a)); [flags |].
    unfold ws_onclose. rewrite state_handleDisconnect.
    cbn [state set_sockets]. flags.
  - destruct (timers w !! t) as [tm|]; [| flags].
    destruct (t_fired tm); [flags |].
    destruct (t_kind tm) as [i|].
    + unfold connect_timeout. cbn [state set_timers].
      destruct (connecting (state w) && negb (connected (state w)));
        [| flags].
      match goal with |- context [reject i ?m ?w'] =>
        destruct (state_reject i m w') as [H | H]; rewrite H; clear H end;
        cbn [state set_timers]; flags.
    + unfold reconnect_timeout. rewrite state_establishConnection.
      cbn [state set_timers]. flags.
  - destruct (tasks w !! n) as [k|]; [| flags]. rewrite state_resume. flags.
  - destruct (peers w !! p) as [old|]; [| flags].
    destruct (pc_alive old && pc_alive s); [| flags].
    repeat split; intros Hf Ht; eauto; exfalso; revert Hf Ht;
      match goal with |- context [pc_onconnectionstatechange ?w'] =>
        destruct (state_pc_onconnectionstatechange w') as [H | [H | H]];
        rewrite H; clear H end;
      cbn [state set_peers]; destruct (state w) as [[] [] [] ? ? ?]; cbn;
      congruence.
  - destruct (peers w !! p) as [s|]; [| flags].
    destruct (pc_alive s); [| flags].
    unfold pc_onicecandidate. rewrite state_send. flags.
  - destruct (peers w !! p) as [s|]; [| flags]. destruct (pc_alive s); flags.
  - destruct (channels w !! d) as [[]|]; flags.
  - destruct (channels w !! d) as [r|]; flags.
Qed.

Lemma flags_raised_by_witness :
  (exists i, WsMessage 0%nat (Some ControlGive) = WsMessage i (Some ControlGive))
  /\ (exists p s, PcConnectionState 0%nat Cconnected = PcConnectionState p s).
Proof.
  split.
  - exact (proj1 (flags_raised_by awaiting_offer (WsMessage 0%nat (Some ControlGive)))
             ltac:(vm_compute; reflexivity) ltac:(vm_compute; reflexivity)).
  - exact (proj1 (proj2 (flags_raised_by
                           (run init (removelast handshake))
                           (PcConnectionState 0%nat Cconnected)))
             ltac:(vm_compute; reflexivity) ltac:(vm_compute; reflexivity)).
Defined.

(** *** How the promise of an attempt settles *)

Lemma promise_resolve i j w :
  promise i (resolve j w) = promise i w
  \/ (j = i /\ promise i w = Some Pending
      /\ promise i (resolve j w) = Some Resolved).
Proof.
  unfold resolve. destruct (sockets w !! j) as [a|] eqn:Hj; [| now left].
  destruct (a_promise a) eqn:Hp; try now left.
  destruct (decide (j = i)) as [-> | Hne].
  - right. split; [reflexivity |]. unfold promise at 1. rewrite Hj. cbn.
    rewrite Hp. split; [reflexivity |]. now rewrite (promise_insert i a).
  - left. unfold promise. cbn [sockets set_sockets].
    now rewrite list_lookup_insert_ne.
Qed.

Lemma promise_reject i j m w :
  promise i (reject j m w) = promise i w
  \/ (j = i /\ promise i w = Some Pending
      /\ promise i (reject j m w) = Some (Rejected m)).
Proof.
  unfold reject. destruct (sockets w !! j) as [a|] eqn:Hj; [| now left].
  destruct (a_promise a) eqn:Hp; try now left.
  assert (H : promise i (set_sockets (<[j := set_promise (Rejected m) a]> (sockets w)) w)
              = promise i w
              \/ (j = i /\ promise i w = Some Pending
                  /\ promise i (set_sockets (<[j := set_promise (Rejected m) a]>
                                               (sockets w)) w)
                     = Some (Rejected m))).
  { destruct (decide (j = i)) as [-> | Hne].
    - right. split; [reflexivity |]. unfold promise at 1. rewrite Hj. cbn.
      rewrite Hp. split; [reflexivity |]. now rewrite (promise_insert i a).
    - left. unfold promise. cbn [sockets set_sockets].
      now rewrite list_lookup_insert_ne. }
  destruct (a_caller a); exact H.
Qed.

Lemma promise_app i p l w :
  promise i w = Some p -> a_promise <$> (sockets w ++ l) !! i = Some p.
Proof.
  unfold promise. intros H.
  destruct (sockets w !! i) as [a|] eqn:E; [| discriminate].
  now rewrite (lookup_app_l_Some _ _ _ _ E).
Qed.

Lemma promise_establishConnection i p who w :
  promise i w = Some p -> promise i (fst (establishConnection who w)) = Some p.
Proof.
  intros H. unfold establishConnection.
  destruct (config w) as [cfg|]; [| exact H].
  destruct (throws w (buildWebSocketUrl (url cfg))); [exact H |].
  unfold promise. cbn. now apply promise_app.
Qed.

Lemma promise_call i p c w :
  is_connect_call c = false ->
  promise i w = Some p -> promise i (call c w) = Some p.
Proof.
  intros Hc Hp. destruct c; try discriminate;
    try (rewrite (promise_frame i w) by (now apply sockets_input); exact Hp);
    cbn [call].
  - unfold disconnect.
    rewrite (promise_frame i (cleanup (set_config None w))) by reflexivity.
    now rewrite promise_cleanup.
  - now rewrite (promise_frame i w) by apply sockets_send.
  - unfold releaseControl.
    now rewrite (promise_frame i w) by apply sockets_send.
Qed.

Lemma promise_turn i p jobs w :
  promise i w = Some p -> promise i (turn jobs w) = Some p.
Proof.
  apply (turn_keeps (fun v => promise i v = Some p)).
  - intros c v. apply promise_call.
  - intros cfg v _ Hv. destruct (connect_body_inv cfg v) as (s & -> & _).
    cbn [fst]. apply promise_establishConnection. exact Hv.
  - intros m v Hv. exact Hv.
Qed.

(** A step keeps the promise of an attempt, or resolves it when pending by
    the end of the answer, or rejects it when pending by an error of its
    socket or by its own timer. *)
Lemma promise_step w e i p :
  promise i w = Some p ->
  promise i (step w e) = Some p
  \/ (p = Pending /\ promise i (step w e) = Some Resolved
      /\ exists n k, e = TaskResume n true /\ tasks w !! n = Some k
                     /\ k_attempt k = i /\ k_stage k = AwaitSetLocal)
  \/ (p = Pending
      /\ exists m, promise i (step w e) = Some (Rejected m)
                   /\ (e = WsError i
                       \/ exists t tm, e = TimerFire t /\ timers w !! t = Some tm
                                       /\ t_kind tm = ConnectTimeout i)).
Proof.
  intros Hp.
  destruct e as [c | jobs | j | j m | j | j r | t | n ok | q s | q | q | d | d];
    cbn [step].
  - left. rewrite <- call_turn. now apply promise_turn.
  - left. now apply promise_turn.
  - left. destruct (sockets w !! j) as [a|] eqn:Hj; [| exact Hp].
    destruct (a_ready a); try exact Hp.
    rewrite <- Hp, <- (promise_set_ready i j a OPEN w Hj).
    apply promise_frame. unfold ws_onopen. cbn [config set_sockets].
    destruct (config w) as [cfg|]; [| reflexivity].
    destruct (nonempty (password cfg)); [apply sockets_send | reflexivity].
  - left. destruct (sockets w !! j) as [a|]; [| exact Hp].
    destruct (is_open (a_ready a)); [| exact Hp].
    rewrite <- Hp. apply promise_frame.
    destruct m as [[]|]; try reflexivity.
    unfold ws_onmessage. apply sockets_handleMessage.
  - destruct (sockets w !! j) as [a|]; [| now left].
    destruct (is_closed (a_ready a)); [now left |].
    unfold ws_onerror.
    match goal with |- context [reject j ?m ?w'] =>
      destruct (promise_reject i j m w') as [H | (-> & H1 & H2)] end.
    + left. now rewrite H.
    + right; right. change (promise i w = Some Pending) in H1.
      split; [congruence |]. eauto.
  - left. destruct (sockets w !! j) as [a|] eqn:Hj; [| exact Hp].
    destruct (is_closed (a_ready a)); [exact Hp |].
    unfold ws_onclose. rewrite promise_handleDisconnect.
    now rewrite promise_set_ready.
  - destruct (timers w !! t) as [tm|] eqn:Ht; [| now left].
    destruct (t_fired tm); [now left |].
    destruct (t_kind tm) as [j|] eqn:Hk.
    + unfold connect_timeout.
      match goal with |- context [if ?b then _ else _] => destruct b end;
        [| now left].
      match goal with |- context [reject j ?m ?w'] =>
        destruct (promise_reject i j m w') as [H | (-> & H1 & H2)] end.
      * left. now rewrite H.
      * right; right. change (promise i w = Some Pending) in H1.
        split; [congruence |]. eexists. split; [exact H2 |]. right. eauto.
    + left. unfold reconnect_timeout. now apply promise_establishConnection.
  - destruct (tasks w !! n) as [k|] eqn:Hn; [| now left].
    unfold resume. destruct ok; cbn [negb]; [| now left].
    destruct (k_stage k) eqn:Hs; try now left.
    + left. now destruct (pc w).
    + left. now destruct (pc w).
    + rewrite (promise_frame i (resolve (k_attempt k) (send OutAnswer w)))
        by reflexivity.
      destruct (promise_resolve i (k_attempt k) (send OutAnswer w))
        as [H | (Hk & H1 & H2)].
      * left. rewrite H. now rewrite (promise_frame i w) by apply sockets_send.
      * right; left.
        rewrite (promise_frame i w) in H1 by apply sockets_send.
        split; [congruence |]. split; [exact H2 |]. eauto 10.
  - left. destruct (peers w !! q) as [old|]; [| exact Hp].
    destruct (pc_alive old && pc_alive s); [| exact Hp].
    unfold pc_onconnectionstatechange. cbn [pc peers set_peers].
    destruct (pc w) as [p'|]; [| exact Hp].
    destruct (<[q:=s]> (peers w) !! p') as [[]|]; try exact Hp;
      now rewrite promise_handleDisconnect.
  - left. destruct (peers w !! q) as [s|]; [| exact Hp].
    destruct (pc_alive s); [| exact Hp].
    now rewrite (promise_frame i w) by apply sockets_send.
  - left. destruct (peers w !! q) as [s|]; [| exact Hp].
    now destruct (pc_alive s).
  - left. now destruct (channels w !! d) as [[]|].
  - left. now destruct (channels w !! d) as [r|].
Qed.

(** X17. The promise of a connection attempt settles once and in two ways
    only: a settled promise is never changed by any event; a pending one is
    resolved only by the step that ends the answer to an offer received on
    its own socket (after the remote description, the answer and the local
    description), and rejected only by an [error] event of its socket or
    by its own 10 s timer. *)
Theorem promise_settles (w : World) (e : Event) (i : nat) (p : PromiseState) :
  promise i w = Some p ->
  (p <> Pending -> promise i (step w e) = Some p)
  /\ (promise i (step w e) = Some Resolved ->
      p = Resolved
      \/ exists n k, e = TaskResume n true /\ tasks w !! n = Some k
                     /\ k_attempt k = i /\ k_stage k = AwaitSetLocal)
  /\ (forall m, promise i (step w e) = Some (Rejected m) ->
        p = Rejected m \/ e = WsError i
        \/ exists t tm, e = TimerFire t /\ timers w !! t = Some tm
                        /\ t_kind tm = ConnectTimeout i).
Proof.
  intros Hp.
  destruct (promise_step w e i p Hp)
    as [H | [(-> & H & Hex) | (-> & m & H & Hex)]].
  - repeat split; intros; try assumption; left; congruence.
  - repeat split; intros; try congruence; auto.
  - repeat split; intros; try congruence. destruct Hex; auto.
Qed.

Lemma promise_settles_witness :
  promise 0%nat (step in_control (WsError 0%nat)) = Some Resolved.
Proof.
  exact (proj1 (promise_settles in_control (WsError 0%nat) 0%nat Resolved
                  ltac:(vm_compute; reflexivity)) ltac:(discriminate)).
Defined.

(** *** Answering an offer *)

Lemma insert_last {A} (l : list A) (x y : A) :
  <[length l := y]> (l ++ [x]) = l ++ [y].
Proof.
  rewrite insert_app_r_alt by reflexivity. now rewrite Nat.sub_diag.
Qed.

Lemma resume_next (v : World) (l : list Task) (i p : nat) (st st' : Stage) :
  tasks v = l ++ [mkTask i st] -> pc v = Some p ->
  (st = AwaitSetRemote /\ st' = AwaitCreateAnswer
   \/ st = AwaitCreateAnswer /\ st' = AwaitSetLocal) ->
  step v (TaskResume (length l) true) = set_tasks (l ++ [mkTask i st']) v.
Proof.
  intros Ht Hp Hst. cbn [step]. rewrite Ht, list_lookup_middle by reflexivity.
  unfold resume. cbn [negb k_stage].
  destruct Hst as [[-> ->] | [-> ->]]; rewrite Hp, Ht, insert_last; reflexivity.
Qed.

Lemma resume_last (v : World) (l : list Task) (i : nat) :
  tasks v = l ++ [mkTask i AwaitSetLocal] ->
  step v (TaskResume (length l) true)
  = set_tasks (l ++ [mkTask i Finished]) (resolve i (send OutAnswer v)).
Proof.
  intros Ht. cbn [step]. rewrite Ht, list_lookup_middle by reflexivity.
  unfold resume. cbn [negb k_stage k_attempt].
  assert (E : tasks (resolve i (send OutAnswer v)) = l ++ [mkTask i AwaitSetLocal]).
  { rewrite <- Ht. unfold resolve.
    destruct (sockets (send OutAnswer v) !! i) as [b|];
      [destruct (a_promise b) |]; cbn; apply tasks_send. }
  rewrite E, insert_last. reflexivity.
Qed.

Lemma resolve_cases i w :
  resolve i w = w \/ exists l, resolve i w = set_sockets l w.
Proof.
  unfold resolve. destruct (sockets w !! i) as [a|]; [| now left].
  destruct (a_promise a); eauto.
Qed.

Lemma promise_resolve_self i a w :
  sockets w !! i = Some a ->
  promise i (resolve i w)
  = Some (match a_promise a with Pending => Resolved | s => s end).
Proof.
  intros Hi. unfold resolve. rewrite Hi.
  destruct (a_promise a) eqn:Hp.
  - now rewrite (promise_insert i a).
  - unfold promise. rewrite Hi. cbn. now rewrite Hp.
  - unfold promise. rewrite Hi. cbn. now rewrite Hp.
Qed.

(** X18. When an offer arrives on an open socket and the three awaited
    calls succeed with no other event in between, the client holds a new
    peer connection (the earlier one, if any, is not closed), has sent the
    answer on its current socket if that is open, and has resolved the
    promise of the socket the offer came on if it was pending; the session
    state is untouched: [connected] stays false until the transport
    reports it. *)
Theorem offer_answered (w : World) (i : nat) (a : Attempt) :
  sockets w !! i = Some a -> is_open (a_ready a) = true ->
  pc (run w (answer_offer i (length (tasks w)))) = Some (length (peers w))
  /\ peers (run w (answer_offer i (length (tasks w)))) = peers w ++ [Cnew]
  /\ effects_since w (run w (answer_offer i (length (tasks w))))
     = NewPeerConnection (length (peers w))
       :: match ws w with
          | Some j => if ws_open w then [WsSend j OutAnswer] else []
          | None => []
          end
  /\ promise i (run w (answer_offer i (length (tasks w))))
     = Some (match a_promise a with Pending => Resolved | s => s end)
  /\ state (run w (answer_offer i (length (tasks w)))) = state w
  /\ tasks (run w (answer_offer i (length (tasks w))))
     = tasks w ++ [mkTask i Finished].
Proof.
  intros Hi Ha.
  set (p := length (peers w)).
  set (v := set_pc (Some p)
              (set_peers (peers w ++ [Cnew]) (emit (NewPeerConnection p) w))).
  set (w1 := set_tasks (tasks w ++ [mkTask i AwaitSetRemote]) v).
  set (w2 := set_tasks (tasks w ++ [mkTask i AwaitCreateAnswer]) v).
  set (w3 := set_tasks (tasks w ++ [mkTask i AwaitSetLocal]) v).
  assert (E1 : step w (WsMessage i (Some SignalProvide)) = w1)
    by (cbn [step]; now rewrite Hi, Ha).
  assert (E2 : step w1 (TaskResume (length (tasks w)) true) = w2)
    by (apply (resume_next w1 (tasks w) i p AwaitSetRemote AwaitCreateAnswer); auto).
  assert (E3 : step w2 (TaskResume (length (tasks w)) true) = w3)
    by (apply (resume_next w2 (tasks w) i p AwaitCreateAnswer AwaitSetLocal); auto).
  assert (E4 : step w3 (TaskResume (length (tasks w)) true)
               = set_tasks (tasks w ++ [mkTask i Finished])
                   (resolve i (send OutAnswer w3)))
    by (apply (resume_last w3 (tasks w) i); reflexivity).
  unfold answer_offer, run. cbn [fold_left]. rewrite E1, E2, E3, E4.
  clear E1 E2 E3 E4.
  assert (Hsend : trace (send OutAnswer w3)
                  = trace w ++ NewPeerConnection p
                    :: match ws w with
                       | Some j => if ws_open w then [WsSend j OutAnswer] else []
                       | None => []
                       end).
  { rewrite trace_send. subst w3 v. cbn [trace ws set_tasks set_pc set_peers emit].
    change (ws_open _) with (ws_open w). now rewrite <- app_assoc. }
  assert (Hsock : sockets (send OutAnswer w3) !! i = Some a)
    by (rewrite sockets_send; exact Hi).
  assert (Hv : pc (send OutAnswer w3) = Some p
               /\ peers (send OutAnswer w3) = peers w ++ [Cnew]
               /\ state (send OutAnswer w3) = state w)
    by (destruct (send_cases OutAnswer w3) as [-> | [j ->]]; now subst w3 v).
  destruct Hv as (Hv1 & Hv2 & Hv3).
  pose proof (promise_resolve_self i a _ Hsock) as Hpr.
  destruct (resolve_cases i (send OutAnswer w3)) as [E | [l E]];
    rewrite E in *; repeat split; try assumption;
    now apply effects_since_app.
Qed.

Lemma offer_answered_witness :
  promise 0%nat (run awaiting_offer (answer_offer 0 0)) = Some Resolved
  /\ connected (state (run awaiting_offer (answer_offer 0 0))) = false.
Proof.
  destruct (offer_answered awaiting_offer 0
              (mkAttempt (buildWebSocketUrl (url cfg0)) OPEN Pending ByConnect)
              ltac:(vm_compute; reflexivity) ltac:(vm_compute; reflexivity))
    as (_ & _ & _ & H4 & H5 & _).
  split; [exact H4 |].
  change (connected (state (run awaiting_offer
                              (answer_offer 0 (length (tasks awaiting_offer)))))
          = false).
  rewrite H5. vm_compute. reflexivity.
Defined.

(** *** Forwarding a key *)

(** X19. While the client is in control and its data channel is open, a
    key event whose code is in the table is sent as one binary message on
    that channel, from which [getUint32] reads back the keysym (the table
    value, 0x20 less for a shifted letter). A key event whose code is
    neither in the table nor the name of a property that every object
    inherits, and whose key text is not a single code unit, sends nothing.
    For a code that is the name of an inherited property ([toString],
    [constructor], ...) the lookup finds that property: a key message with
    keycode 0 is sent, whatever the key text. *)
Theorem key_forwarded :
  (forall w d ev pressed z,
     controlling (state w) = true -> dataChannel w = Some d ->
     channels w !! d = Some OPEN -> assoc (code ev) KEYSYM_MAP = Some z ->
     effects_since w (sendKeyEvent ev pressed w)
     = [DcSend d (encodeKey (num_of_Z (shifted ev z)) pressed)]
     /\ getUint32 1 (encodeKey (num_of_Z (shifted ev z)) pressed)
        = Some (shifted ev z)
     /\ state (sendKeyEvent ev pressed w) = state w)
  /\ (forall w ev pressed,
        assoc (code ev) KEYSYM_MAP = None ->
        existsb (jseqb (code ev)) Object_prototype_names = false ->
        length (key ev) <> 1%nat ->
        sendKeyEvent ev pressed w = w)
  /\ (forall w d ev pressed,
        controlling (state w) = true -> dataChannel w = Some d ->
        channels w !! d = Some OPEN ->
        assoc (code ev) KEYSYM_MAP = None ->
        existsb (jseqb (code ev)) Object_prototype_names = true ->
        effects_since w (sendKeyEvent ev pressed w)
        = [DcSend d [opcode_of 0x05 0x06 pressed; 0; 0; 0; 0]]).
Proof.
  split; [| split].
  - intros w d ev pressed z Hc Hd Ho Hz.
    destruct (getKeysym_mapped ev z Hz) as [Hk Hr].
    assert (Hopen : dc_open w = true) by (unfold dc_open; now rewrite Hd, Ho).
    assert (E : sendKeyEvent ev pressed w
                = emit (DcSend d (encodeKey (num_of_Z (shifted ev z)) pressed)) w).
    { unfold sendKeyEvent. rewrite Hc, Hk. cbn [negb ToNumber].
      unfold sendBinary. now rewrite Hd, Hopen. }
    rewrite E. repeat split.
    + now apply effects_since_app.
    + rewrite getUint32_encodeKey, ToUint32_integer by lia. reflexivity.
  - intros w ev pressed Ha Hn Hlen.
    assert (Hu : get KEYSYM_MAP (code ev) = VUndef) by now apply get_undefined.
    unfold sendKeyEvent, getKeysym.
    rewrite Hu. cbn [truthy].
    destruct (controlling (state w)); cbn [negb]; [| reflexivity].
    destruct (key ev) as [| c [| c' k]]; try reflexivity. now cbn in Hlen.
  - intros w d ev pressed Hc Hd Ho Ha Hn.
    assert (Hg : get KEYSYM_MAP (code ev) = VObj)
      by (unfold get; now rewrite Ha, Hn).
    assert (Hopen : dc_open w = true) by (unfold dc_open; now rewrite Hd, Ho).
    assert (E : sendKeyEvent ev pressed w
                = emit (DcSend d [opcode_of 0x05 0x06 pressed; 0; 0; 0; 0]) w).
    { unfold sendKeyEvent, getKeysym. rewrite Hc, Hg. cbn [negb truthy].
      destruct (startsWith (code ev) (js "Key") && shiftKey ev);
        cbn [ToNumber sub]; unfold sendBinary; rewrite Hd, Hopen;
        destruct pressed; reflexivity. }
    rewrite E. now apply effects_since_app.
Qed.

Lemma key_forwarded_witness :
  effects_since in_control
    (sendKeyEvent (key_event (js "KeyA") (js "A") true) true in_control)
  = [DcSend 0%nat [0x05; 0x41; 0; 0; 0]]
  /\ sendKeyEvent (key_event (js "AudioVolumeUp") (js "AudioVolumeUp") false) true
       in_control
     = in_control
  /\ effects_since in_control
       (sendKeyEvent (key_event (js "toString") (js "a") false) true in_control)
     = [DcSend 0%nat [0x05; 0; 0; 0; 0]].
Proof.
  destruct key_forwarded as (Hsend & Hdrop & Hproto). split; [| split].
  - exact (proj1 (Hsend in_control 0%nat (key_event (js "KeyA") (js "A") true) true 0x61
                    ltac:(vm_compute; reflexivity) ltac:(vm_compute; reflexivity)
                    ltac:(vm_compute; reflexivity) ltac:(vm_compute; reflexivity))).
  - apply Hdrop; [vm_compute; reflexivity | vm_compute; reflexivity
                  | vm_compute; discriminate].
  - exact (Hproto in_control 0%nat (key_event (js "toString") (js "a") false) true
             ltac:(vm_compute; reflexivity) ltac:(vm_compute; reflexivity)
             ltac:(vm_compute; reflexivity) ltac:(vm_compute; reflexivity)
             ltac:(vm_compute; reflexivity)).
Defined.

(** *** The wheel *)

(** X6. While the client is in control and its data channel is open, a
    wheel event is sent as one scroll message whose two deltas, as
    [getInt16] reads them back, lie between -10 and 10 whatever the event
    reports (infinite deltas give 10 or -10, NaN gives 0) and, for a finite
    delta, are the delta clamped to [-10, 10] and rounded: the 16-bit
    fields never wrap. *)
Theorem wheel_never_wraps (w : World) (d : nat) (deltaX deltaY : number) :
  controlling (state w) = true -> dataChannel w = Some d ->
  channels w !! d = Some OPEN ->
  exists payload vx vy,
    effects_since w (handleWheel deltaX deltaY w) = [DcSend d payload]
    /\ getUint8 0 payload = Some 0x02
    /\ getInt16 1 payload = Some vx /\ getInt16 3 payload = Some vy
    /\ -10 <= vx <= 10 /\ -10 <= vy <= 10
    /\ (forall q, deltaX = Fin q -> vx = nearest (clamp10 q))
    /\ (forall q, deltaY = Fin q -> vy = nearest (clamp10 q)).
Proof.
  intros Hc Hd Ho.
  destruct (normalize_rounded deltaX) as (vx & Hx & Bx & Fx).
  destruct (normalize_rounded deltaY) as (vy & Hy & By & Fy).
  exists (encodeMouseScroll (normalize deltaX) (normalize deltaY)), vx, vy.
  destruct (getInt16_encodeMouseScroll (normalize deltaX) (normalize deltaY))
    as (H1 & H3).
  rewrite H1, H3, Hx, Hy.
  assert (Hopen : dc_open w = true) by (unfold dc_open; now rewrite Hd, Ho).
  repeat split; auto; try lia.
  apply effects_since_app. unfold handleWheel, sendMouseScroll, sendBinary.
  now rewrite Hc, Hd, Hopen.
Qed.

Lemma wheel_never_wraps_witness :
  exists payload vx vy,
    effects_since in_control
      (handleWheel (Fin (-120)) (Fin (7 # 2)) in_control)
    = [DcSend 0%nat payload]
    /\ getUint8 0 payload = Some 0x02
    /\ getInt16 1 payload = Some vx /\ getInt16 3 payload = Some vy
    /\ -10 <= vx <= 10 /\ -10 <= vy <= 10
    /\ (forall q, Fin (-120) = Fin q -> vx = nearest (clamp10 q))
    /\ (forall q, Fin (7 # 2) = Fin q -> vy = nearest (clamp10 q)).
Proof.
  exact (wheel_never_wraps in_control 0%nat (Fin (-120)) (Fin (7 # 2))
           ltac:(vm_compute; reflexivity) ltac:(vm_compute; reflexivity)
           ltac:(vm_compute; reflexivity)).
Defined.

End SessionProofs.
